(** * IT-Workflow-Chatbot: triage, classification and automation rules

  A shallow embedding of the request-triage and automation-decision core
  of the chatbot: the intent detector, the access-risk helper of the HTTP
  server, the background agent service (access scan and SLA sweep), the
  ticket service it writes through, the base agent's [execute] wrapper and
  the agent triage router with its analytics log.

  Conventions used throughout:
  - JavaScript strings are [string]s of 8-bit characters; [toLowerCase],
    [trim] and the regular-expression flag [i] act on the ASCII range.
  - JavaScript numbers that the code only adds, multiplies, divides and
    compares are exact rationals ([Q]); on the constants of the intent table
    and of the router the comparisons come out as in double precision.
    Millisecond clocks are [Z]. An integer column read into JavaScript is
    the nearest double ([js_number]).
  - SQL rows are records, a table is the list of its rows, and
    [UPDATE ... WHERE id = ?] rewrites every row carrying that id. *)

From Stdlib Require Import String Ascii List ZArith QArith Lia Bool.
From Stdlib Require Import Permutation Sorted Lqa Qround DecimalString.
From stdpp Require Import gmap strings.

Import ListNotations.
Local Open Scope string_scope.
Local Open Scope bool_scope.

(** ** JavaScript string primitives *)

Module JsString.

(** [String.prototype.toLowerCase], restricted to ASCII letters. *)
Definition lower_ascii (c : ascii) : ascii :=
  let n := N_of_ascii c in
  if ((65 <=? n) && (n <=? 90))%N then ascii_of_N (n + 32) else c.

Fixpoint toLowerCase (s : string) : string :=
  match s with
  | EmptyString => EmptyString
  | String c s' => String (lower_ascii c) (toLowerCase s')
  end.

Definition upper_ascii (c : ascii) : ascii :=
  let n := N_of_ascii c in
  if ((97 <=? n) && (n <=? 122))%N then ascii_of_N (n - 32) else c.

Fixpoint toUpperCase (s : string) : string :=
  match s with
  | EmptyString => EmptyString
  | String c s' => String (upper_ascii c) (toUpperCase s')
  end.

(** [hay.startsWith(needle)]. *)
Fixpoint startsWith (hay needle : string) : bool :=
  match needle, hay with
  | EmptyString, _ => true
  | String _ _, EmptyString => false
  | String a needle', String b hay' =>
      if Ascii.eqb a b then startsWith hay' needle' else false
  end.

(** [hay.includes(needle)]: the needle starts at some offset of [hay]. *)
Fixpoint includes (hay needle : string) : bool :=
  startsWith hay needle ||
  match hay with
  | EmptyString => false
  | String _ hay' => includes hay' needle
  end.

(** White space removed by [String.prototype.trim] (TAB, LF, VT, FF, CR,
    SPACE). *)
Definition is_space (c : ascii) : bool :=
  let n := N_of_ascii c in
  (((9 <=? n) && (n <=? 13)) || (n =? 32))%N.

Fixpoint trimStart (s : string) : string :=
  match s with
  | EmptyString => EmptyString
  | String c s' => if is_space c then trimStart s' else s
  end.

(** [trimEnd] keeps a character when it is not a space or when something
    survives to its right. *)
Fixpoint trimEnd (s : string) : string :=
  match s with
  | EmptyString => EmptyString
  | String c s' =>
      match trimEnd s' with
      | EmptyString => if is_space c then EmptyString else String c EmptyString
      | t => String c t
      end
  end.

Definition trim (s : string) : string := trimEnd (trimStart s).

(** JavaScript truthiness of a possibly-null string. *)
Definition truthy (o : option string) : bool :=
  match o with
  | Some (String _ _) => true
  | _ => false
  end.

(** [o || d] for a possibly-null string. *)
Definition or_default (o : option string) (d : string) : string :=
  if truthy o then default d o else d.

End JsString.

Import JsString.

(** ** Access-risk helper of the HTTP server ([assessAccessRisk]) *)

Module AccessRisk.

Inductive risk := Low | Medium | High.

Definition lowRiskResources : list string :=
  [ "figma"; "canva"; "notion"; "slack"; "zoom"; "teams";
    "office365"; "google workspace"; "confluence"; "jira";
    "trello"; "asana"; "monday.com" ].

Definition highRiskResources : list string :=
  [ "aws"; "azure"; "gcp"; "production"; "database";
    "admin"; "root"; "billing"; "payroll"; "financial" ].

(** [list.some(r => resourceLower.includes(r))]. *)
Definition some_included (names : list string) (resourceLower : string) : bool :=
  existsb (fun r => includes resourceLower r) names.

Definition assessAccessRisk (resource : string) : risk :=
  let resourceLower := toLowerCase resource in
  if some_included lowRiskResources resourceLower then Low
  else if some_included highRiskResources resourceLower then High
  else Medium.

Definition is_low (r : risk) : bool :=
  match r with
  | Low => true
  | _ => false
  end.

(** The access request object built by [POST /api/access/auto-approve]
    (its id, user and timestamps apart). *)
Record submitted_request := SubmittedRequest {
  sub_resource : string;
  sub_reason : string;
  sub_status : string;
  auto_approved : bool;
  risk_level : risk;
  approval_reason : option string
}.

Definition build_request (resource : string) (reason : option string)
  : submitted_request :=
  let riskLevel := assessAccessRisk resource in
  let isLowRisk := is_low riskLevel in
  SubmittedRequest resource
    (or_default reason "Auto-approval for low-risk resource")
    (if isLowRisk then "approved" else "pending")
    isLowRisk riskLevel
    (if isLowRisk then Some "Automatic approval - Low risk resource" else None).

(** What the handler answers: 400, 500, or 200 with the request. *)
Inductive answer :=
| BadRequest
| ServerError
| Accepted (request : submitted_request).

(** The methods of [AccessRequestService] the handler could store the
    request with. It calls [createRequest]; the class defines
    [createAccessRequest], [getAccessRequestsByUser], [getAllAccessRequests]
    and [updateRequestStatus] only. *)
Definition service_has_method (method : string) : bool :=
  existsb (String.eqb method)
    [ "createAccessRequest"; "getAccessRequestsByUser";
      "getAllAccessRequests"; "updateRequestStatus" ].

(** The handler of [POST /api/access/auto-approve]. A missing resource is
    answered 400. Otherwise the request object is built and handed to
    [accessRequestService.createRequest]; calling a method the service does
    not have throws, and the [catch] answers 500. *)
Definition auto_approve (resource reason : option string) : answer :=
  if truthy resource then
    let accessRequest := build_request (default "" resource) reason in
    if service_has_method "createRequest" then Accepted accessRequest
    else ServerError
  else BadRequest.

End AccessRisk.

(** ** A backtracking matcher for the regular expressions of the intent table

    The intent patterns only use literals, [.+], non-capturing groups with
    alternatives, the greedy [?], the anchor [^] and one capturing group;
    every pattern carries the flag [i]. The matcher follows the
    continuation-passing formulation of ECMAScript's pattern semantics:
    alternatives left to right, greedy quantifiers longest first, the first
    start offset that yields a match wins. *)

Module Regex.

Inductive regex :=
| Eps
| Chr (c : ascii)
| Dot
| Bol
| Seq (r1 r2 : regex)
| Alt (r1 r2 : regex)
| Opt (r : regex)
| DotPlus
| Group (r : regex).

(** Matcher state: whether no character was consumed since offset 0, the
    input still to read, and the text held by capturing group 1. *)
Record mstate := MState {
  at_start : bool;
  rest : string;
  group1 : option string
}.

(** The result of a successful match is [match[1]]: [None] when group 1 did
    not take part (JavaScript's [undefined]). *)
Definition captures := option string.

(** Canonicalisation under the flag [i]. *)
Definition ci_eqb (a b : ascii) : bool :=
  Ascii.eqb (upper_ascii a) (upper_ascii b).

(** [.] does not match the line terminators LF and CR. *)
Definition is_line_terminator (c : ascii) : bool :=
  let n := N_of_ascii c in ((n =? 10) || (n =? 13))%N.

(** Text consumed between two states of one run. *)
Definition consumed (before after : string) : string :=
  substring 0 (String.length before - String.length after) before.

Fixpoint dot_star (s : string) (k : string -> option captures) : option captures :=
  match s with
  | EmptyString => k s
  | String c s' =>
      if is_line_terminator c then k s
      else match dot_star s' k with
           | Some g => Some g
           | None => k s
           end
  end.

Definition dot_plus (s : string) (k : string -> option captures) : option captures :=
  match s with
  | EmptyString => None
  | String c s' => if is_line_terminator c then None else dot_star s' k
  end.

Fixpoint run (r : regex) (k : mstate -> option captures) (st : mstate)
  : option captures :=
  match r with
  | Eps => k st
  | Chr c =>
      match rest st with
      | String d s' =>
          if ci_eqb c d then k (MState false s' (group1 st)) else None
      | EmptyString => None
      end
  | Dot =>
      match rest st with
      | String d s' =>
          if is_line_terminator d then None
          else k (MState false s' (group1 st))
      | EmptyString => None
      end
  | Bol => if at_start st then k st else None
  | Seq r1 r2 => run r1 (run r2 k) st
  | Alt r1 r2 =>
      match run r1 k st with
      | Some g => Some g
      | None => run r2 k st
      end
  | Opt r1 =>
      match run r1 k st with
      | Some g => Some g
      | None => k st
      end
  | DotPlus =>
      dot_plus (rest st) (fun s' => k (MState false s' (group1 st)))
  | Group r1 =>
      run r1 (fun st' =>
                k (MState (at_start st') (rest st')
                     (Some (consumed (rest st) (rest st'))))) st
  end.

Definition accept (st : mstate) : option captures := Some (group1 st).

(** Try every start offset, leftmost first. *)
Fixpoint search (r : regex) (start : bool) (s : string) : option captures :=
  match run r accept (MState start s None) with
  | Some g => Some g
  | None =>
      match s with
      | EmptyString => None
      | String _ s' => search r false s'
      end
  end.

(** [s.match(r)] for a pattern without the flag [g]: [None] is JavaScript's
    [null], [Some g] a match array whose element 1 is [g]. *)
Definition js_match (s : string) (r : regex) : option captures :=
  search r true s.

(** Builders for the pattern table. *)
Fixpoint lit (s : string) : regex :=
  match s with
  | EmptyString => Eps
  | String c s' => Seq (Chr c) (lit s')
  end.

Fixpoint seqs (rs : list regex) : regex :=
  match rs with
  | [] => Eps
  | [r] => r
  | r :: rs' => Seq r (seqs rs')
  end.

Fixpoint alts (rs : list regex) : regex :=
  match rs with
  | [] => Eps
  | [r] => r
  | r :: rs' => Alt r (alts rs')
  end.

Definition any_of (ws : list string) : regex := alts (map lit ws).
Definition dot_plus_group : regex := Group DotPlus.

End Regex.

(** ** Intent detector ([IntentDetector.detect]) *)

Module IntentDetector.
Import Regex.

(** One entry of [this.intents]. The field [confidence] of the source is
    [base_confidence] here; [confidence] names the score of a detection. *)
Record intent_data := IntentData {
  keywords : list string;
  patterns : list regex;
  base_confidence : Q
}.

(** The object returned by [detect]; [entities] is the [extracted] property
    of the [entities] object, absent when [None]. *)
Record detection := Detection {
  intent : string;
  confidence : Q;
  entities : option string
}.

Definition access_request : intent_data :=
  IntentData
    [ "access"; "need"; "permission"; "grant"; "allow"; "enable" ]
    [ seqs [lit "need access to "; dot_plus_group];
      seqs [lit "can I "; any_of ["get"; "have"]; lit " access to "; dot_plus_group];
      seqs [any_of ["grant"; "give"]; lit " "; Opt (lit "me "); lit "access to ";
            dot_plus_group];
      seqs [lit "I need "; dot_plus_group; lit " access"] ]
    0.8%Q.

Definition ticket_creation : intent_data :=
  IntentData
    [ "broken"; "not working"; "issue"; "problem"; "help"; "fix"; "repair"; "error" ]
    [ seqs [dot_plus_group; lit " "; any_of ["is"; "isn't"; "not"]; lit " working"];
      seqs [any_of ["having"; "got"]; lit " "; Opt (lit "a "); lit "problem with ";
            dot_plus_group];
      seqs [dot_plus_group; lit " broken"];
      seqs [lit "issue with "; dot_plus_group] ]
    0.7%Q.

Definition ticket_query : intent_data :=
  IntentData
    [ "show"; "list"; "view"; "display"; "tickets"; "open"; "pending" ]
    [ seqs [lit "show "; Opt (lit "me "); Opt (any_of ["all "; "the "]);
            Opt (lit "open "); lit "tickets"];
      seqs [any_of ["list"; "display"]; lit " tickets"];
      seqs [lit "tickets from "; dot_plus_group];
      seqs [lit "what "; any_of ["are"; "is"]; lit " "; any_of ["the"; "my"];
            lit " tickets"] ]
    0.75%Q.

Definition onboarding_query : intent_data :=
  IntentData
    [ "onboarding"; "new hire"; "checklist"; "employee"; "orientation" ]
    [ seqs [lit "onboarding "; any_of ["for"; "checklist"]];
      seqs [lit "new "; any_of ["hire"; "employee"]; lit " "; dot_plus_group];
      seqs [lit "show "; Opt (lit "me "); Opt (lit "the "); Opt (lit "onboarding ");
            lit "checklist"] ]
    0.8%Q.

Definition greeting : intent_data :=
  IntentData
    [ "hello"; "hi"; "hey"; "good morning"; "good afternoon"; "greetings" ]
    [ seqs [Bol; any_of ["hello"; "hi"; "hey"; "greetings"]];
      seqs [lit "good "; any_of ["morning"; "afternoon"; "evening"]] ]
    0.9%Q.

Definition help : intent_data :=
  IntentData
    [ "help"; "what can you do"; "how"; "guide"; "assist" ]
    [ seqs [Opt (lit "can you "); lit "help"; Opt (lit " me")];
      lit "what can you do";
      seqs [lit "how "; any_of ["do I"; "to"]] ]
    0.85%Q.

Definition status_check : intent_data :=
  IntentData
    [ "status"; "state"; "progress"; "update" ]
    [ seqs [any_of ["what's"; "what is"]; lit " "; Opt (lit "the "); lit "status"];
      seqs [lit "check status of "; dot_plus_group];
      seqs [lit "status "; any_of ["on"; "of"]; lit " "; dot_plus_group] ]
    0.7%Q.

(** [Object.entries(this.intents)]: the definitions in the order written. *)
Definition intents : list (string * intent_data) :=
  [ ("access_request", access_request);
    ("ticket_creation", ticket_creation);
    ("ticket_query", ticket_query);
    ("onboarding_query", onboarding_query);
    ("greeting", greeting);
    ("help", help);
    ("status_check", status_check) ].

(** [intentData.keywords.filter(kw => lowerMessage.includes(kw.toLowerCase()))]. *)
Definition keywordMatches (lowerMessage : string) (kws : list string) : list string :=
  List.filter (fun kw => includes lowerMessage (toLowerCase kw)) kws.

(** The pattern loop with its [break]: the first pattern that matches adds
    0.6 and, when [match[1]] is truthy, stores its trimmed text. *)
Fixpoint check_patterns (message : string) (ps : list regex)
  (score : Q) (extracted : option string) : Q * option string :=
  match ps with
  | [] => (score, extracted)
  | pattern :: ps' =>
      match js_match message pattern with
      | Some m1 =>
          ((score + 0.6)%Q,
           if truthy m1 then option_map trim m1 else extracted)
      | None => check_patterns message ps' score extracted
      end
  end.

(** Body of the loop over the intents, for one entry. A definition without
    keywords would score [0/0], which is [NaN] and never exceeds anything:
    [None] stands for it. *)
Definition score_intent (message lowerMessage : string) (d : intent_data)
  : option (Q * option string) :=
  match keywords d with
  | [] => None
  | _ =>
      let score :=
        (0 + inject_Z (Z.of_nat (List.length (keywordMatches lowerMessage (keywords d))))
             / inject_Z (Z.of_nat (List.length (keywords d))) * 0.4)%Q in
      let '(score, extracted) := check_patterns message (patterns d) score None in
      Some ((score * base_confidence d)%Q, extracted)
  end.

Definition unknown : detection := Detection "unknown" 0%Q None.

(** [score > bestMatch.confidence]. *)
Definition exceeds (score best : Q) : bool := negb (Qle_bool score best).

Definition detect_step (message lowerMessage : string)
  (bestMatch : detection) (entry : string * intent_data) : detection :=
  let '(intentName, intentData) := entry in
  match score_intent message lowerMessage intentData with
  | Some (score, extracted) =>
      if exceeds score (confidence bestMatch)
      then Detection intentName score extracted
      else bestMatch
  | None => bestMatch
  end.

Definition detect_in (table : list (string * intent_data)) (message : string)
  : detection :=
  let lowerMessage := toLowerCase message in
  fold_left (detect_step message lowerMessage) table unknown.

Definition detect (message : string) : detection := detect_in intents message.

End IntentDetector.

(** ** The SQLite store

    Rows as returned by [SELECT *]: a nullable column is an [option], a
    [DATETIME] column a [datetime]. *)

Module Store.

(** A [DATETIME] cell as the JavaScript code reads it. [DtTime ms] is text
    that [new Date(..)] parses to the instant [ms] (what [CURRENT_TIMESTAMP]
    and [toISOString()] write), [DtUnparsed s] is any other text. *)
Inductive datetime :=
| DtNull
| DtUnparsed (s : string)
| DtTime (ms : Z).

(** [new Date(cell).getTime()]; [None] is [NaN]. [new Date(null)] is the
    epoch. *)
Definition getTime (d : datetime) : option Z :=
  match d with
  | DtNull => Some 0%Z
  | DtUnparsed _ => None
  | DtTime ms => Some ms
  end.

(** Truthiness of the cell: [null] and the empty text are falsy. *)
Definition dt_truthy (d : datetime) : bool :=
  match d with
  | DtNull => false
  | DtUnparsed s => truthy (Some s)
  | DtTime _ => true
  end.

Record ticket := Ticket {
  id : Z;
  user_id : Z;
  title : string;
  description : option string;
  priority : option string;
  status : option string;
  category : option string;
  assignee : option string;
  tags : option string;
  created_at : datetime;
  updated_at : datetime;
  escalated_at : datetime;
  escalation_level : option Z
}.

Record access_request := AccessRequest {
  ar_id : Z;
  ar_user_id : Z;
  resource_name : option string;
  access_type : option string;
  justification : option string;
  ar_status : option string;
  approver : option string;
  approved_at : datetime;
  decision_reason : option string;
  ar_created_at : datetime
}.

Record db := Db {
  users : gset Z;
  tickets : list ticket;
  access_requests : list access_request
}.

(** [(a === b)] on a nullable text column and a literal. *)
Definition text_is (o : option string) (lit : string) : bool :=
  match o with
  | Some s => String.eqb s lit
  | None => false
  end.

End Store.

(** ** Ticket service *)

Module TicketService.
Import Store.

(** The [fields] argument of [updateTicket]: [None] is an absent key, the
    inner value is what is bound to the SQL parameter. Only the keys of the
    [allowed] list are read. *)
Record ticket_fields := Fields {
  f_title : option string;
  f_description : option (option string);
  f_priority : option (option string);
  f_status : option (option string);
  f_category : option (option string);
  f_assignee : option (option string);
  f_tags : option (option string);
  f_escalated_at : option datetime;
  f_escalation_level : option (option Z)
}.

Definition no_fields : ticket_fields :=
  Fields None None None None None None None None None.

(** [!sets.length]. *)
Definition fields_empty (f : ticket_fields) : bool :=
  match f with
  | Fields None None None None None None None None None => true
  | _ => false
  end.

(** The [SET] clause applied to one row, [updated_at = CURRENT_TIMESTAMP]
    included. *)
Definition set_fields (now : Z) (f : ticket_fields) (t : ticket) : ticket :=
  Ticket (id t) (user_id t)
    (default (title t) (f_title f))
    (default (description t) (f_description f))
    (default (priority t) (f_priority f))
    (default (status t) (f_status f))
    (default (category t) (f_category f))
    (default (assignee t) (f_assignee f))
    (default (tags t) (f_tags f))
    (created_at t)
    (DtTime now)
    (default (escalated_at t) (f_escalated_at f))
    (default (escalation_level t) (f_escalation_level f)).

(** [UPDATE tickets SET .. WHERE id = ?]. *)
Definition update_where_id (ticketId : Z) (upd : ticket -> ticket)
  (rows : list ticket) : list ticket :=
  map (fun r => if (id r =? ticketId)%Z then upd r else r) rows.

Definition updateTicket (now : Z) (ticketId : Z) (f : ticket_fields) (d : db) : db :=
  if fields_empty f then d
  else Db (users d) (update_where_id ticketId (set_fields now f) (tickets d))
          (access_requests d).

(** The [UPDATE] of [escalateTicket]. *)
Definition escalate_row (now : Z) (t : ticket) : ticket :=
  Ticket (id t) (user_id t) (title t) (description t)
    (Some "urgent") (status t) (category t) (assignee t) (tags t)
    (created_at t) (DtTime now) (DtTime now)
    (Some (default 0%Z (escalation_level t) + 1)%Z).

(** [escalateTicket]: [inl] is [{success: false, error}], [inr] is
    [{success: true, ticket}]. *)
Definition escalateTicket (now : Z) (ticketId : Z) (d : db)
  : (string + ticket) * db :=
  match find (fun r => (id r =? ticketId)%Z) (tickets d) with
  | None => (inl "Ticket not found", d)
  | Some _ =>
      let d' := Db (users d) (update_where_id ticketId (escalate_row now) (tickets d))
                   (access_requests d) in
      match find (fun r => (id r =? ticketId)%Z) (tickets d') with
      | Some updatedTicket => (inr updatedTicket, d')
      | None => (inl "Failed to escalate ticket", d')
      end
  end.

Section Queries.

(** [ORDER BY created_at DESC]: how SQLite orders the stored cells is left
    open; the result holds the same rows. *)
Variable order_by_created_at : list ticket -> list ticket.

(** [getAllTickets()]. The class body defines [getAllTickets] twice; the
    later definition, which takes no filter and selects every row, is the
    one in force. *)
Definition getAllTickets (d : db) : list ticket :=
  order_by_created_at (tickets d).

End Queries.

End TicketService.

(** ** Access-request service *)

Module AccessRequestService.
Import Store.

Section Queries.

Variable order_by_created_at : list access_request -> list access_request.

(** [getAllAccessRequests({status})]: requests joined with their user row,
    filtered on [ar.status] when a status is given. *)
Definition getAllAccessRequests (status_filter : option string) (d : db)
  : list access_request :=
  order_by_created_at
    (List.filter
       (fun ar =>
          bool_decide (ar_user_id ar ∈ users d) &&
          (if truthy status_filter
           then match ar_status ar, status_filter with
                | Some s, Some f => String.eqb s f
                | _, _ => false
                end
           else true))
       (access_requests d)).

End Queries.

End AccessRequestService.

(** ** Background agent service ([AgentService]) *)

Module AgentService.
Import Store.

Record config := Config {
  slaHours : gmap string Q;
  lowRiskResources : list string;
  reminderLeadMinutes : Z
}.

(** The configuration of the exported singleton [new AgentService()]. *)
Definition default_config : config :=
  Config
    (<["high" := 4%Q]> (<["medium" := 24%Q]> (<["low" := 48%Q]> ∅)))
    [ "Slack"; "Confluence"; "Figma"; "Notion"; "Jira-Viewer" ]
    5.

Record scan_result := ScanResult { scanned : nat; approved : nat }.
Record sla_result := SlaResult { sla_scanned : nat; escalated : nat }.

(** [/routine|standard|daily|team|collaboration/.test(justification)]: one
    of the alternatives occurs in the text. *)
Definition safe_terms : list string :=
  [ "routine"; "standard"; "daily"; "team"; "collaboration" ].

Definition safeWords (justification : string) : bool :=
  existsb (fun w => includes justification w) safe_terms.

(** [this.config.lowRiskResources.includes(resource)]: array membership. *)
Definition lowRisk (cfg : config) (resource : string) : bool :=
  existsb (String.eqb resource) (lowRiskResources cfg).

(** The test of the scan loop on one pending request. *)
Definition auto_approvable (cfg : config) (req : access_request) : bool :=
  let resource := trim (or_default (resource_name req) "") in
  let justification := toLowerCase (or_default (justification req) "") in
  lowRisk cfg resource && safeWords justification.

(** [UPDATE access_requests SET status='approved', approver='auto-agent',
    approved_at=CURRENT_TIMESTAMP, decision_reason=? WHERE id=?]. *)
Definition approve_row (now : Z) (r : access_request) : access_request :=
  AccessRequest (ar_id r) (ar_user_id r) (resource_name r) (access_type r)
    (Store.justification r) (Some "approved") (Some "auto-agent") (DtTime now)
    (Some "low-risk auto approval") (ar_created_at r).

Definition approve_where_id (now : Z) (reqId : Z) (d : db) : db :=
  Db (users d) (tickets d)
     (map (fun r => if (ar_id r =? reqId)%Z then approve_row now r else r)
          (access_requests d)).

(** Milliseconds per hour, the divisor of [ageHours]. *)
Definition ms_per_hour : Z := 3600000.

(** [(now - created) / 3600000]; [None] is [NaN]. *)
Definition ageHours (now : Z) (t : ticket) : option Q :=
  match getTime (created_at t) with
  | Some created => Some (inject_Z (now - created) / inject_Z ms_per_hour)%Q
  | None => None
  end.

(** [this.config.slaHours[(t.priority || 'medium').toLowerCase()] || 24].
    Keys are looked up among the configured priorities only. *)
Definition sla_of (cfg : config) (t : ticket) : Q :=
  match slaHours cfg !! toLowerCase (or_default (priority t) "medium") with
  | Some h => if Qeq_bool h 0 then 24%Q else h
  | None => 24%Q
  end.

(** [ageHours > sla]: false when the age is [NaN]. *)
Definition overdue (cfg : config) (now : Z) (t : ticket) : bool :=
  match ageHours now t with
  | Some age => negb (Qle_bool age (sla_of cfg t))
  | None => false
  end.

(** [!t.escalated_at || t.escalation_level === 0]. *)
Definition escalation_guard (t : ticket) : bool :=
  negb (dt_truthy (escalated_at t)) ||
  match escalation_level t with
  | Some 0%Z => true
  | _ => false
  end.

Definition should_escalate (cfg : config) (now : Z) (t : ticket) : bool :=
  overdue cfg now t && escalation_guard t.

(** The double nearest to an integer, ties to the even significand: what a
    JavaScript number holds of it. Integers up to 2^53 in size are held
    exactly; beyond, the spacing of the doubles is [2 ^ k]. (SQLite integers
    have 64 bits, far below the largest double.) *)
Definition js_number (z : Z) : Z :=
  let a := Z.abs z in
  let k := Z.max 0 (Z.log2 a - 52) in
  let spacing := (2 ^ k)%Z in
  let q := (a / spacing)%Z in
  let rest := (a mod spacing)%Z in
  (Z.sgn z *
   (if (2 * rest <? spacing)%Z then q * spacing
    else if (spacing <? 2 * rest)%Z then (q + 1) * spacing
    else if Z.even q then q * spacing else (q + 1) * spacing))%Z.

(** [(t.escalation_level || 0) + 1]: the column as the JavaScript number
    it is read into, and the sum in double precision. *)
Definition next_level (t : ticket) : Z :=
  js_number
    (match escalation_level t with
     | Some n => js_number n
     | None => 0
     end + 1)%Z.

(** The object handed to [updateTicket] for an overdue ticket. *)
Definition escalation_fields (now : Z) (t : ticket) : TicketService.ticket_fields :=
  TicketService.Fields None None
    (Some (if text_is (priority t) "medium" then Some "high" else priority t))
    (Some (Some "open"))
    None None None
    (Some (DtTime now))
    (Some (Some (next_level t))).

Section Sweeps.

Variable order_tickets : list ticket -> list ticket.
Variable order_requests : list access_request -> list access_request.
Variable cfg : config.

(** The loop of [scanAccessRequests] over the rows fetched beforehand. *)
Fixpoint scan_loop (now : Z) (pending : list access_request)
  (d : db) (approved_count : nat) : db * nat :=
  match pending with
  | [] => (d, approved_count)
  | req :: pending' =>
      if auto_approvable cfg req
      then scan_loop now pending' (approve_where_id now (ar_id req) d)
                     (S approved_count)
      else scan_loop now pending' d approved_count
  end.

Definition scanAccessRequests (now : Z) (d : db) : scan_result * db :=
  let pending :=
    AccessRequestService.getAllAccessRequests order_requests (Some "pending") d in
  let '(d', n) := scan_loop now pending d 0 in
  (ScanResult (List.length pending) n, d').

(** The loop of [monitorSLA] over the rows fetched beforehand; the clock
    does not advance during the sweep. *)
Fixpoint sla_loop (now : Z) (all : list ticket) (d : db) (escalated_count : nat)
  : db * nat :=
  match all with
  | [] => (d, escalated_count)
  | t :: all' =>
      if should_escalate cfg now t
      then sla_loop now all'
             (TicketService.updateTicket now (id t) (escalation_fields now t) d)
             (S escalated_count)
      else sla_loop now all' d escalated_count
  end.

Definition monitorSLA (now : Z) (d : db) : sla_result * db :=
  let all := TicketService.getAllTickets order_tickets d in
  let '(d', n) := sla_loop now all d 0 in
  (SlaResult (List.length all) n, d').

End Sweeps.

End AgentService.

(** ** Agents ([BaseAgent] and the six specialists) *)

Module Agents.

(** What [execute] resolves to: [{success: true, agent, ..}] with the
    agent's payload, or [{success: false, agent, error}], where [error] is
    the [message] property of the value thrown ([None] when it has none). *)
Inductive result :=
| Succeeded (agent : string) (output : string)
| Failed (agent : string) (error : option string).

Definition success (r : result) : bool :=
  match r with
  | Succeeded _ _ => true
  | Failed _ _ => false
  end.

Definition agent_of (r : result) : string :=
  match r with
  | Succeeded a _ => a
  | Failed a _ => a
  end.

(** The context object: the properties read by the router and by the
    capability tests, and the two properties added for secondary agents.
    [timeElapsed] holds [parseInt(context.timeElapsed)] when the property
    is truthy and parses. *)
Record context := Context {
  priority : option string;
  severity : option string;
  userRole : option string;
  timeElapsed : option Z;
  primaryAgentResult : option result;
  multiAgentExecution : bool
}.

(** How a call of [run] ends: it returns, it throws a value whose
    [message] property can be read ([None] when the property is undefined),
    or it throws [null] or [undefined]. *)
Inductive outcome :=
| Returned (output : string)
| Threw (message : option string)
| ThrewNullish.

(** Why a promise rejects: the [TypeError] of reading [message] of [null]
    or [undefined] in the [catch] of [execute], or the one of reading
    [execute] of the missing first element of an empty selection. *)
Inductive rejection :=
| MessageOfNullish
| ExecuteOfUndefined.

(** How a promise settles. *)
Inductive settled (A : Type) :=
| Resolved (value : A)
| Rejected (reason : rejection).

Arguments Resolved {A} value.
Arguments Rejected {A} reason.

(** An agent: its [name], its capability test and its [run] method, whose
    language-model call is an arbitrary function of the input and the
    context. Agents are built with the default (empty) own context. *)
Record agent := Agent {
  name : string;
  canHandle : string -> context -> bool;
  run : string -> context -> outcome
}.

(** [BaseAgent.execute]: the [try]/[catch] around [run]. The [catch]
    builds its answer from [error.message]; when the value thrown is [null]
    or [undefined] that read throws in turn and the promise of [execute]
    rejects. The overriding [execute] methods of the performance and
    knowledge-base agents have the same shape. *)
Definition execute (a : agent) (input : string) (ctx : context)
  : settled result :=
  match run a input ctx with
  | Returned out => Resolved (Succeeded (name a) out)
  | Threw msg => Resolved (Failed (name a) msg)
  | ThrewNullish => Rejected MessageOfNullish
  end.

(** [keywords.some(keyword => text.includes(keyword))]. *)
Definition some_keyword (kws : list string) (text : string) : bool :=
  existsb (fun keyword => includes text keyword) kws.

Definition is_text (o : option string) (lit : string) : bool :=
  match o with
  | Some s => String.eqb s lit
  | None => false
  end.

Definition escalationKeywords : list string :=
  [ "urgent"; "critical"; "emergency"; "down"; "outage"; "escalate";
    "production"; "security breach"; "data loss"; "system failure";
    "major issue"; "high priority"; "immediate attention" ].

Definition EscalationAgent_canHandle (input : string) (ctx : context) : bool :=
  let text := toLowerCase input in
  let hasSeverityContext := is_text (severity ctx) "high" || is_text (priority ctx) "high" in
  let hasTimeContext :=
    match timeElapsed ctx with
    | Some n => (240 <? n)%Z
    | None => false
    end in
  some_keyword escalationKeywords text || hasSeverityContext || hasTimeContext.

Definition performanceKeywords : list string :=
  [ "performance"; "slow"; "lag"; "bottleneck"; "optimization"; "monitor";
    "cpu"; "memory"; "disk"; "network"; "latency"; "throughput";
    "response time"; "load time"; "server"; "infrastructure";
    "scaling"; "capacity"; "utilization"; "metrics"; "dashboard";
    "alert"; "monitoring"; "uptime"; "downtime"; "availability" ].

Definition PerformanceMonitoringAgent_canHandle (input : string) (ctx : context) : bool :=
  some_keyword performanceKeywords (toLowerCase input).

Definition knowledgeKeywords : list string :=
  [ "how to"; "procedure"; "policy"; "documentation"; "guide"; "manual";
    "instructions"; "setup"; "configure"; "install"; "troubleshoot";
    "best practice"; "standard"; "protocol"; "process"; "workflow";
    "contact"; "phone number"; "email"; "help"; "support"; "knowledge";
    "information"; "documentation"; "wiki"; "faq"; "tutorial" ].

Definition KnowledgeBaseAgent_canHandle (input : string) (ctx : context) : bool :=
  let text := toLowerCase input in
  some_keyword knowledgeKeywords text ||
  includes input "?" ||
  startsWith text "what" || startsWith text "how" || startsWith text "where".

Definition supportKeywords : list string :=
  [ "error"; "bug"; "crash"; "not working"; "broken"; "failed"; "issue";
    "computer"; "laptop"; "software"; "hardware"; "network"; "wifi";
    "login"; "password"; "access"; "printer"; "email"; "vpn" ].

Definition ITSupportAgent_canHandle (input : string) (ctx : context) : bool :=
  some_keyword supportKeywords (toLowerCase input).

Definition accessKeywords : list string :=
  [ "access"; "permission"; "need access to"; "can i get"; "authorize";
    "login"; "account"; "credentials"; "system access"; "resource" ].

Definition AccessManagementAgent_canHandle (input : string) (ctx : context) : bool :=
  some_keyword accessKeywords (toLowerCase input).

Definition onboardingKeywords : list string :=
  [ "onboarding"; "new employee"; "new hire"; "starting"; "first day";
    "checklist"; "orientation"; "setup"; "welcome"; "join the team";
    "employee setup"; "workspace setup" ].

Definition OnboardingAgent_canHandle (input : string) (ctx : context) : bool :=
  some_keyword onboardingKeywords (toLowerCase input).

(** The language-model behaviour of the six specialists and of the
    fallback instance. *)
Record models := Models {
  escalation_run : string -> context -> outcome;
  performance_run : string -> context -> outcome;
  knowledge_run : string -> context -> outcome;
  itSupport_run : string -> context -> outcome;
  accessManagement_run : string -> context -> outcome;
  onboarding_run : string -> context -> outcome;
  fallback_run : string -> context -> outcome
}.

Definition EscalationAgent (m : models) : agent :=
  Agent "EscalationAgent" EscalationAgent_canHandle (escalation_run m).
Definition PerformanceMonitoringAgent (m : models) : agent :=
  Agent "PerformanceMonitoringAgent" PerformanceMonitoringAgent_canHandle (performance_run m).
Definition KnowledgeBaseAgent (m : models) : agent :=
  Agent "KnowledgeBaseAgent" KnowledgeBaseAgent_canHandle (knowledge_run m).
Definition ITSupportAgent (run_ : string -> context -> outcome) : agent :=
  Agent "ITSupportAgent" ITSupportAgent_canHandle run_.
Definition AccessManagementAgent (m : models) : agent :=
  Agent "AccessManagementAgent" AccessManagementAgent_canHandle (accessManagement_run m).
Definition OnboardingAgent (m : models) : agent :=
  Agent "OnboardingAgent" OnboardingAgent_canHandle (onboarding_run m).

End Agents.

(** ** Agent triage router ([AgentTriageRouter]) *)

Module AgentTriageRouter.
Import Agents.

Record config := Config {
  enableMultiAgent : bool;
  confidenceThreshold : Q;
  maxAgents : Z
}.

Definition default_config : config := Config true 0.7%Q 2.

Record candidate := Candidate {
  cand_agent : agent;
  confidence : Q
}.

(** The object returned by [analyzeRouting] (the two reasoning strings,
    which no decision reads, are left out). *)
Record routing_decision := RoutingDecision {
  agents : list agent;
  candidates : list candidate;
  decision_confidence : Q
}.

Record routing_data := RoutingData {
  log_input : string;
  log_context : context;
  routingDecision : routing_decision;
  results : list result;
  executionTime : Z;
  timestamp : Z
}.

Record router := Router {
  registry : list agent;
  fallbackAgent : agent;
  routingHistory : list routing_data;
  cfg : config
}.

(** [new AgentTriageRouter(config)]: registration order as in the
    constructor. *)
Definition new_router (m : models) (c : config) : router :=
  Router
    [ EscalationAgent m; PerformanceMonitoringAgent m; KnowledgeBaseAgent m;
      ITSupportAgent (itSupport_run m); AccessManagementAgent m; OnboardingAgent m ]
    (ITSupportAgent (fallback_run m))
    []
    c.

Definition agentKeywords : gmap string (list string) :=
  <["EscalationAgent" :=
      ["urgent"; "critical"; "emergency"; "escalate"; "production"; "outage"]]>
  (<["PerformanceMonitoringAgent" :=
      ["performance"; "slow"; "monitor"; "metrics"; "cpu"; "memory"; "optimization"]]>
  (<["KnowledgeBaseAgent" :=
      ["how to"; "procedure"; "policy"; "documentation"; "guide"; "help"; "information"]]>
  (<["ITSupportAgent" :=
      ["error"; "bug"; "not working"; "computer"; "software"; "hardware"; "technical"]]>
  (<["AccessManagementAgent" :=
      ["access"; "permission"; "login"; "account"; "authorize"; "security"]]>
  (<["OnboardingAgent" :=
      ["onboarding"; "new employee"; "setup"; "welcome"; "checklist"; "hire"]]>
   ∅))))).

(** [countKeywordMatches]: [agentKeywords[agent.name] || []], one count per
    keyword that occurs in the lowercased input. *)
Definition countKeywordMatches (a : agent) (input : string) : nat :=
  let text := toLowerCase input in
  let keywords := default [] (agentKeywords !! name a) in
  List.length (List.filter (fun keyword => includes text keyword) keywords).

Definition successRates : gmap string Q :=
  <["ITSupportAgent" := 0.85%Q]>
  (<["AccessManagementAgent" := 0.90%Q]>
  (<["OnboardingAgent" := 0.88%Q]>
  (<["EscalationAgent" := 0.92%Q]> ∅))).

(** [successRates[agentName] || 0.80]. *)
Definition getHistoricalSuccess (agentName : string) : Q :=
  match successRates !! agentName with
  | Some r => if Qeq_bool r 0 then 0.80%Q else r
  | None => 0.80%Q
  end.

(** [Math.min(confidence, 1.0)]. *)
Definition min_one (q : Q) : Q := if Qle_bool q 1 then q else 1%Q.

Definition calculateConfidence (a : agent) (input : string) (ctx : context) : Q :=
  let confidence := 0.5%Q in
  let keywordMatches := countKeywordMatches a input in
  let confidence := (confidence + inject_Z (Z.of_nat keywordMatches) * 0.1)%Q in
  let confidence :=
    if is_text (priority ctx) "high" && String.eqb (name a) "EscalationAgent"
    then (confidence + 0.3)%Q else confidence in
  let confidence :=
    if is_text (userRole ctx) "new_hire" && String.eqb (name a) "OnboardingAgent"
    then (confidence + 0.4)%Q else confidence in
  let historicalSuccess := getHistoricalSuccess (name a) in
  let confidence := (confidence + historicalSuccess * 0.2)%Q in
  min_one confidence.

(** [confidence >= threshold]. *)
Definition reaches (confidence threshold : Q) : bool := Qle_bool threshold confidence.

(** The candidate loop of [analyzeRouting]. *)
Fixpoint collect_candidates (c : config) (registered : list agent)
  (input : string) (ctx : context) : list candidate :=
  match registered with
  | [] => []
  | a :: registered' =>
      let can := canHandle a input ctx in
      let confidence := calculateConfidence a input ctx in
      if can && reaches confidence (confidenceThreshold c)
      then Candidate a confidence :: collect_candidates c registered' input ctx
      else collect_candidates c registered' input ctx
  end.

(** [candidates.sort((a, b) => b.confidence - a.confidence)]: a stable sort,
    highest confidence first. *)
Fixpoint insert_desc (x : candidate) (l : list candidate) : list candidate :=
  match l with
  | [] => [x]
  | y :: l' =>
      if Qle_bool (confidence y) (confidence x) then x :: l
      else y :: insert_desc x l'
  end.

Fixpoint sort_desc (l : list candidate) : list candidate :=
  match l with
  | [] => []
  | x :: l' => insert_desc x (sort_desc l')
  end.

(** [l.slice(0, n)] for an integer [n]: a negative [n] counts from the
    end. *)
Definition slice0 {A : Type} (l : list A) (n : Z) : list A :=
  if (n <? 0)%Z
  then firstn (Z.to_nat (Z.max (Z.of_nat (List.length l) + n) 0)) l
  else firstn (Z.to_nat n) l.

Definition analyzeRouting (r : router) (input : string) (ctx : context)
  : routing_decision :=
  let candidates := sort_desc (collect_candidates (cfg r) (registry r) input ctx) in
  let selectedAgents := map cand_agent (slice0 candidates (maxAgents (cfg r))) in
  let selectedAgents :=
    match selectedAgents with
    | [] => [fallbackAgent r]
    | _ => selectedAgents
    end in
  RoutingDecision selectedAgents candidates
    (match candidates with
     | c0 :: _ => if Qeq_bool (confidence c0) 0 then 0.5%Q else confidence c0
     | [] => 0.5%Q
     end).

(** [{...context, primaryAgentResult, multiAgentExecution: true}]. *)
Definition enrich (ctx : context) (primaryResult : result) : context :=
  Context (priority ctx) (severity ctx) (userRole ctx) (timeElapsed ctx)
    (Some primaryResult) true.

(** [Promise.all] over promises that are already running: the results in
    the order of the array, or a rejection when one of them rejects. (All
    rejections of [execute] carry the same kind of reason.) *)
Fixpoint promise_all (promises : list (settled result)) : settled (list result) :=
  match promises with
  | [] => Resolved []
  | Rejected reason :: _ => Rejected reason
  | Resolved value :: promises' =>
      match promise_all promises' with
      | Resolved values => Resolved (value :: values)
      | Rejected reason => Rejected reason
      end
  end.

(** [executeMultiAgent]: the primary agent first, then the others on the
    enriched context, collected by [Promise.all] in the order of the
    array. A rejection of the primary agent's [execute] ends the call
    before the others are started. *)
Definition executeMultiAgent (selected : list agent) (input : string) (ctx : context)
  : settled (list result) :=
  match selected with
  | [] => Rejected ExecuteOfUndefined
  | primary :: secondary =>
      match execute primary input ctx with
      | Rejected reason => Rejected reason
      | Resolved primaryResult =>
          match secondary with
          | [] => Resolved [primaryResult]
          | _ =>
              let enrichedContext := enrich ctx primaryResult in
              match promise_all
                      (map (fun a => execute a input enrichedContext) secondary) with
              | Resolved secondaryResults =>
                  Resolved (primaryResult :: secondaryResults)
              | Rejected reason => Rejected reason
              end
          end
      end
  end.

(** [logRouting]: append, then drop the oldest entry beyond 100. *)
Definition logRouting (history : list routing_data) (entry : routing_data)
  : list routing_data :=
  let history := (history ++ [entry])%list in
  if (100 <? List.length history)%nat then tl history else history.

(** The object [route] resolves to: the one of the [try] path, or the one
    of the [catch] branch, whose [error] is the message of the rejection
    caught. *)
Inductive route_response :=
| RouteSuccess (routing : routing_decision) (results : list result)
    (executionTime : Z) (agentsUsed : list string) (primaryResult : option result)
| RouteFailure (error : rejection) (routing : routing_decision)
    (executionTime : Z).

(** The property [success]. *)
Definition route_success (response : route_response) : bool :=
  match response with
  | RouteSuccess _ _ _ _ _ => true
  | RouteFailure _ _ _ => false
  end.

Definition routing (response : route_response) : routing_decision :=
  match response with
  | RouteSuccess decision _ _ _ _ => decision
  | RouteFailure _ decision _ => decision
  end.


Definition agentsUsed (response : route_response) : option (list string) :=
  match response with
  | RouteSuccess _ _ _ used _ => Some used
  | RouteFailure _ _ _ => None
  end.

Definition primaryResult (response : route_response) : option result :=
  match response with
  | RouteSuccess _ _ _ _ primary => primary
  | RouteFailure _ _ _ => None
  end.

(** [[await agent.execute(input, context)]]. *)
Definition single (promise : settled result) : settled (list result) :=
  match promise with
  | Resolved value => Resolved [value]
  | Rejected reason => Rejected reason
  end.

(** The executions inside the [try] of [route]. *)
Definition attempt (r : router) (decision : routing_decision)
  (input : string) (ctx : context) : settled (list result) :=
  match agents decision with
  | [a] => single (execute a input ctx)
  | _ =>
      if (1 <? List.length (agents decision))%nat && enableMultiAgent (cfg r)
      then executeMultiAgent (agents decision) input ctx
      else single (execute (fallbackAgent r) input ctx)
  end.

(** [route]: [startTime] and [endTime] are the two readings of
    [Date.now()]. When an [execute] rejects, the [catch] branch answers
    [success: false] and nothing is logged. *)
Definition route (r : router) (input : string) (ctx : context)
  (startTime endTime : Z) : route_response * router :=
  let decision := analyzeRouting r input ctx in
  let executionTime := (endTime - startTime)%Z in
  match attempt r decision input ctx with
  | Resolved results =>
      let history :=
        logRouting (routingHistory r)
          (RoutingData input ctx decision results executionTime endTime) in
      (RouteSuccess decision results executionTime (map agent_of results)
         (head results),
       Router (registry r) (fallbackAgent r) history (cfg r))
  | Rejected reason => (RouteFailure reason decision executionTime, r)
  end.

(** JavaScript division: [None] stands for the non-finite quotient of a
    division by zero. *)
Definition js_div (a b : Q) : option Q :=
  if Qeq_bool b 0 then None else Some (a / b)%Q.

Record analytics := Analytics {
  total : nat;
  avgExecutionTime : option Q;
  successRate : option Q;
  agentUsage : gmap string nat;
  recentRoutings : list routing_data
}.

(** [getRoutingAnalytics] answers [{total: 0}] or the full object. *)
Inductive analytics_report :=
| OnlyTotal (total : nat)
| Full (a : analytics).

Definition all_succeeded (r : routing_data) : bool := forallb success (results r).

Definition count_usage (usage : gmap string nat) (res : result) : gmap string nat :=
  <[agent_of res := (default 0%nat (usage !! agent_of res) + 1)%nat]> usage.

(** [l.slice(-10)]. *)
Definition last10 {A : Type} (l : list A) : list A :=
  skipn (List.length l - 10) l.

Definition getRoutingAnalytics (r : router) : analytics_report :=
  let history := routingHistory r in
  let total := List.length history in
  if (total =? 0)%nat then OnlyTotal 0
  else
    let sum := fold_left (fun sum e => (sum + executionTime e)%Z) history 0%Z in
    let avgExecutionTime := js_div (inject_Z sum) (inject_Z (Z.of_nat total)) in
    let succeeded := List.length (List.filter all_succeeded history) in
    let successRate :=
      js_div (inject_Z (Z.of_nat succeeded)) (inject_Z (Z.of_nat total)) in
    let agentUsage :=
      fold_left (fun usage e => fold_left count_usage (results e) usage) history ∅ in
    Full (Analytics total avgExecutionTime successRate agentUsage (last10 history)).

End AgentTriageRouter.

(** * Vocabulary of the statements *)

Module Vocabulary.

(** The context with its [priority] replaced, everything else equal. *)
Definition with_priority (ctx : Agents.context) (p : string) : Agents.context :=
  Agents.Context (Some p) (Agents.severity ctx) (Agents.userRole ctx)
    (Agents.timeElapsed ctx) (Agents.primaryAgentResult ctx)
    (Agents.multiAgentExecution ctx).

(** Sample values for the concrete instances. *)
Definition sample_models : Agents.models :=
  Agents.Models
    (fun _ _ => Agents.Returned "P1")
    (fun _ _ => Agents.Returned "healthy")
    (fun _ _ => Agents.Threw (Some "knowledge base unavailable"))
    (fun _ _ => Agents.Returned "restart the device")
    (fun _ _ => Agents.Returned "review: manager approval")
    (fun _ _ => Agents.Returned "day one checklist")
    (fun _ _ => Agents.Returned "ticket opened").


Definition empty_context : Agents.context :=
  Agents.Context None None None None None false.

Definition sample_router : AgentTriageRouter.router :=
  AgentTriageRouter.new_router sample_models AgentTriageRouter.default_config.

(** [SELECT * FROM tickets WHERE id = ?]. *)
Definition ticket_by_id (i : Z) (d : Store.db) : option Store.ticket :=
  find (fun r => (Store.id r =? i)%Z) (Store.tickets d).

Definition request_by_id (i : Z) (d : Store.db) : option Store.access_request :=
  find (fun r => (Store.ar_id r =? i)%Z) (Store.access_requests d).

(** What one SLA sweep does to one row, taken alone. *)
Definition sweep_row (cfg : AgentService.config) (now : Z) (t : Store.ticket)
  : Store.ticket :=
  if AgentService.should_escalate cfg now t
  then TicketService.set_fields now (AgentService.escalation_fields now t) t
  else t.

(** Whether the access scan fetches a row: its user exists and its status
    is pending. *)
Definition fetched_pending (d : Store.db) (r : Store.access_request) : bool :=
  bool_decide (Store.ar_user_id r ∈ Store.users d)
  && Store.text_is (Store.ar_status r) "pending".

(** What one access scan does to one row, taken alone. *)
Definition scan_row (cfg : AgentService.config) (now : Z) (d : Store.db)
  (r : Store.access_request) : Store.access_request :=
  if fetched_pending d r && AgentService.auto_approvable cfg r
  then AgentService.approve_row now r
  else r.

(** A ticket of the sample store: open, never escalated. *)
Definition sample_ticket (i : Z) (p : option string) (created : Store.datetime)
  : Store.ticket :=
  Store.Ticket i 1 "printer jam" (Some "third floor") p (Some "open")
    (Some "hardware") None (Some "") created created Store.DtNull (Some 0%Z).

(** One pass of the sweep loop seen from a single row [r]: only a fetched
    ticket carrying [r]'s id rewrites it. *)
Definition touch (cfg : AgentService.config) (now : Z) (r t : Store.ticket)
  : Store.ticket :=
  if AgentService.should_escalate cfg now t && (Store.id r =? Store.id t)%Z
  then TicketService.set_fields now (AgentService.escalation_fields now t) r
  else r.

Definition sample_now : Z := 1800000000000.

(** A store with one registered user, three tickets (a high-priority one
    created five hours ago, one whose creation date is not a date, a
    medium-priority one created thirty hours ago) and two pending access
    requests. *)
Definition sample_store : Store.db :=
  Store.Db {[ 1%Z ]}
    [ sample_ticket 1 (Some "high")
        (Store.DtTime (sample_now - 5 * AgentService.ms_per_hour));
      sample_ticket 2 (Some "medium") (Store.DtUnparsed "yesterday");
      sample_ticket 3 (Some "medium")
        (Store.DtTime (sample_now - 30 * AgentService.ms_per_hour)) ]
    [ Store.AccessRequest 10 1 (Some " Figma ") (Some "read")
        (Some "Routine design review") (Some "pending") None Store.DtNull None
        (Store.DtTime sample_now);
      Store.AccessRequest 11 1 (Some "AWS") (Some "admin")
        (Some "routine team standard daily") (Some "pending") None Store.DtNull None
        (Store.DtTime sample_now) ].

(** A store whose only ticket is open, of high priority, created five
    hours ago, at escalation level 5 and without an escalation date. *)
Definition store_level_five : Store.db :=
  Store.Db {[ 1%Z ]}
    [ Store.Ticket 8 1 "printer jam" (Some "third floor") (Some "high")
        (Some "open") (Some "hardware") None (Some "")
        (Store.DtTime (sample_now - 5 * AgentService.ms_per_hour))
        (Store.DtTime (sample_now - 5 * AgentService.ms_per_hour))
        Store.DtNull (Some 5%Z) ]
    [].

(** A store whose only access request is pending, names the resource
    "figma" in lower case and is justified as routine. *)
Definition store_figma_request : Store.db :=
  Store.Db {[ 1%Z ]} []
    [ Store.AccessRequest 12 1 (Some "figma") (Some "read")
        (Some "routine design review") (Some "pending") None Store.DtNull None
        (Store.DtTime sample_now) ].

(** The largest integer up to which every integer is a JavaScript number. *)
Definition max_safe_level : Z := 2 ^ 53.

(** A store whose only ticket is open, of high priority, created five
    hours ago, never escalated, at escalation level 2^53. *)
Definition store_level_2_53 : Store.db :=
  Store.Db {[ 1%Z ]}
    [ Store.Ticket 9 1 "printer jam" (Some "third floor") (Some "high")
        (Some "open") (Some "hardware") None (Some "")
        (Store.DtTime (sample_now - 5 * AgentService.ms_per_hour))
        (Store.DtTime (sample_now - 5 * AgentService.ms_per_hour))
        Store.DtNull (Some max_safe_level) ]
    [].

(** A store whose only ticket has no creation date. *)
Definition store_missing_created_at : Store.db :=
  Store.Db {[ 1%Z ]} [ sample_ticket 7 (Some "high") Store.DtNull ] [].

(** One pass of the scan loop seen from a single row [r]. *)
Definition scan_touch (cfg : AgentService.config) (now : Z)
  (r req : Store.access_request) : Store.access_request :=
  if AgentService.auto_approvable cfg req && (Store.ar_id r =? Store.ar_id req)%Z
  then AgentService.approve_row now r
  else r.

(** *** The classifier as the specification words it *)

(** (#keywords present in the lowercased text) / (#keywords) x 0.4. *)
Definition keywordScore (message : string) (d : IntentDetector.intent_data) : Q :=
  (inject_Z (Z.of_nat (List.length
      (List.filter (fun kw => includes (toLowerCase message) (toLowerCase kw))
         (IntentDetector.keywords d))))
   / inject_Z (Z.of_nat (List.length (IntentDetector.keywords d))) * 0.4)%Q.

(** The first pattern, in order, that matches the message: its match
    array's element 1. *)
Fixpoint first_match (message : string) (ps : list Regex.regex)
  : option Regex.captures :=
  match ps with
  | [] => None
  | p :: ps' =>
      match Regex.js_match message p with
      | Some g => Some g
      | None => first_match message ps'
      end
  end.

Definition patternScore (message : string) (d : IntentDetector.intent_data) : Q :=
  match first_match message (IntentDetector.patterns d) with
  | Some _ => 0.6%Q
  | None => 0%Q
  end.

Definition total_score (message : string) (d : IntentDetector.intent_data) : Q :=
  ((keywordScore message d + patternScore message d)
   * IntentDetector.base_confidence d)%Q.

(** The entity as the claim words it: the first capture group of the first
    matching pattern, if any. *)
Definition entity_as_stated (message : string) (d : IntentDetector.intent_data)
  : option string :=
  match first_match message (IntentDetector.patterns d) with
  | Some g => g
  | None => None
  end.

(** The entity as the code stores it: the group when it is non-empty,
    trimmed. *)
Definition entity_trimmed (message : string) (d : IntentDetector.intent_data)
  : option string :=
  match first_match message (IntentDetector.patterns d) with
  | Some (Some (String c g)) => Some (trim (String c g))
  | _ => None
  end.

(** No keyword of the definition occurs in the message and none of its
    patterns matches. *)
Definition non_matching (message : string) (d : IntentDetector.intent_data) : Prop :=
  List.filter (fun kw => includes (toLowerCase message) (toLowerCase kw))
    (IntentDetector.keywords d) = []
  /\ first_match message (IntentDetector.patterns d) = None.

(** The entry has at least one keyword, so its keyword ratio is a number. *)
Definition has_keywords (entry : string * IntentDetector.intent_data) : Prop :=
  IntentDetector.keywords (snd entry) <> [].

(** A store whose only ticket is resolved, was created thirty hours ago at
    medium priority and was never escalated. *)
Definition store_resolved_ticket : Store.db :=
  Store.Db {[ 1%Z ]}
    [ Store.Ticket 5 1 "vpn drops" None (Some "medium") (Some "resolved")
        (Some "network") None None
        (Store.DtTime (sample_now - 30 * AgentService.ms_per_hour))
        (Store.DtTime (sample_now - 2 * AgentService.ms_per_hour))
        Store.DtNull (Some 0%Z) ]
    [].

End Vocabulary.

Import Vocabulary.

(** * The rest of the modules *)

(** ** The router's other entry points *)

Module RouterOps.
Import Agents AgentTriageRouter.


(** One request to the router: the text, the context and the two readings
    of the clock. *)
Record call := Call {
  call_input : string;
  call_context : context;
  call_start : Z;
  call_end : Z
}.

(** The router object after a sequence of [route] calls. *)
Definition serve (r : router) (calls : list call) : router :=
  fold_left
    (fun r c =>
       snd (route r (call_input c) (call_context c) (call_start c) (call_end c)))
    calls r.

(** Whether [route] answers a call with [success: true]. *)
Definition answered (r : router) (c : call) : bool :=
  route_success
    (fst (route r (call_input c) (call_context c) (call_start c) (call_end c))).

(** The context bonuses of [calculateConfidence]. *)
Definition priority_bonus (a : agent) (ctx : context) : bool :=
  is_text (priority ctx) "high" && String.eqb (name a) "EscalationAgent".

Definition role_bonus (a : agent) (ctx : context) : bool :=
  is_text (userRole ctx) "new_hire" && String.eqb (name a) "OnboardingAgent".

(** Highest confidence first: [b] may follow [a]. *)
Definition descending (a b : candidate) : Prop :=
  (confidence b <= confidence a)%Q.

(** How often an agent appears in the results of a history. *)
Definition appearances (agentName : string) (history : list routing_data) : nat :=
  List.length
    (List.filter (fun res => String.eqb (agent_of res) agentName)
       (concat (map results history))).

(** The sample router after two requests. *)
Definition sample_served : router :=
  serve (new_router Vocabulary.sample_models default_config)
    [ Call "urgent performance problem" Vocabulary.empty_context 0 12;
      Call "how to reset a password" Vocabulary.empty_context 20 25 ].

End RouterOps.

(** ** Suggested phrases ([IntentDetector.getSuggestions]) *)

Module Suggestions.

(** The object literal of [getSuggestions]; only its own properties are
    modelled, which is all a name produced by [detect] can reach. *)
Definition suggestions : gmap string (list string) :=
  <["access_request" :=
      [ "I need access to Figma"; "Can I get access to GitHub?";
        "Grant me access to AWS console" ]]>
  (<["ticket_creation" :=
      [ "My laptop is not working"; "Issue with printer on 3rd floor";
        "Email client keeps crashing" ]]>
  (<["ticket_query" :=
      [ "Show open tickets from this week"; "List all my tickets";
        "Display pending tickets" ]]>
  (<["onboarding_query" :=
      [ "Show onboarding checklist for new hire"; "New employee onboarding steps";
        "Create onboarding for Sarah" ]]>
  (<["greeting" :=
      [ "What can you help me with?"; "Show me what you can do" ]]>
  (<["unknown" :=
      [ "I need access to Figma"; "Show open tickets";
        "Create onboarding checklist" ]]>
   ∅))))).

(** [suggestions[intent] || suggestions.unknown]: an array is truthy. *)
Definition getSuggestions (intent : string) : list string :=
  match suggestions !! intent with
  | Some phrases => phrases
  | None => default [] (suggestions !! "unknown")
  end.


End Suggestions.

(** ** Texts that differ in the case of their letters *)

Module CaseFold.
Import Regex.

Definition alike (s s' : string) : Prop := toLowerCase s = toLowerCase s'.

Definition alike_opt (o o' : option string) : Prop :=
  option_map toLowerCase o = option_map toLowerCase o'.

Definition alike_result (o o' : option captures) : Prop :=
  option_map (option_map toLowerCase) o = option_map (option_map toLowerCase) o'.

Definition alike_state (st st' : mstate) : Prop :=
  at_start st = at_start st' /\
  alike (rest st) (rest st') /\
  alike_opt (group1 st) (group1 st').

Definition alike_detection (d d' : IntentDetector.detection) : Prop :=
  IntentDetector.intent d = IntentDetector.intent d' /\
  IntentDetector.confidence d = IntentDetector.confidence d' /\
  alike_opt (IntentDetector.entities d) (IntentDetector.entities d').

End CaseFold.

(** ** Automation helpers of the server *)

Module Automation.
Import Store TicketService.

Definition urgentWords : list string :=
  [ "urgent"; "critical"; "emergency"; "down"; "broken"; "immediately" ].

Definition highWords : list string :=
  [ "important"; "asap"; "soon"; "blocking"; "cannot work" ].

(** [autoDetectPriority]. *)
Definition autoDetectPriority (description : string) : string :=
  let text := toLowerCase description in
  if existsb (fun word => includes text word) urgentWords then "urgent"
  else if existsb (fun word => includes text word) highWords then "high"
  else "medium".

(** [autoDetectCategory]. *)
Definition autoDetectCategory (description : string) : string :=
  let text := toLowerCase description in
  if includes text "password" || includes text "login" || includes text "access"
  then "Access & Authentication"
  else if includes text "hardware" || includes text "laptop" || includes text "computer"
  then "Hardware"
  else if includes text "software" || includes text "application" || includes text "app"
  then "Software"
  else if includes text "network" || includes text "internet" || includes text "wifi"
  then "Network"
  else if includes text "email" || includes text "outlook" || includes text "mail"
  then "Email & Communication"
  else "General IT Support".

Definition assignments : gmap string string :=
  <["Access & Authentication" := "security-team@company.com"]>
  (<["Hardware" := "hardware-support@company.com"]>
  (<["Software" := "software-support@company.com"]>
  (<["Network" := "network-team@company.com"]>
  (<["Email & Communication" := "email-support@company.com"]> ∅)))).

(** [autoAssignTicket]: [assignments[category] || 'it-support@company.com'];
    the priority argument is not read. Own keys only. *)
Definition autoAssignTicket (category priority : string) : string :=
  match assignments !! category with
  | Some (String c s) => String c s
  | _ => "it-support@company.com"
  end.

Definition thresholds : gmap string Q :=
  <["urgent" := 4%Q]> (<["high" := 24%Q]> (<["medium" := 48%Q]>
  (<["low" := 72%Q]> ∅))).

(** [getSLAThreshold]: [thresholds[priority] || 48], in hours. A null
    priority reads the absent key "null". Own keys only. *)
Definition getSLAThreshold (priority : option string) : Q :=
  match priority with
  | Some p =>
      match thresholds !! p with
      | Some h => if Qeq_bool h 0 then 48%Q else h
      | None => 48%Q
      end
  | None => 48%Q
  end.

(** [Math.round]: the nearest integer, halves upwards. *)
Definition round (q : Q) : Z := Qfloor (q + 0.5)%Q.

(** What the loop of [GET /api/sla/monitor] decides for one fetched row:
    the list it is pushed onto and, for the two lists that carry one, the
    rounded number of hours. *)
Inductive verdict :=
| Compliant
| Warning (hours_remaining : Z)
| Violated (hours_overdue : Z).

(** The body of the [forEach] up to the pushes. [hoursSince] is
    [(now - created) / (1000 * 60 * 60)], not a number when the creation
    date does not parse; every comparison with it is then false. *)
Definition assess (now : Z) (t : ticket) : verdict :=
  if text_is (status t) "resolved" then Compliant
  else
    let slaThreshold := getSLAThreshold (priority t) in
    let warningThreshold := (slaThreshold * 0.8)%Q in
    match AgentService.ageHours now t with
    | Some hoursSince =>
        if negb (Qle_bool hoursSince slaThreshold)
        then Violated (round (hoursSince - slaThreshold))
        else if negb (Qle_bool hoursSince warningThreshold)
        then Warning (round (slaThreshold - hoursSince))
        else Compliant
    | None => Compliant
    end.

Definition violates (now : Z) (t : ticket) : bool :=
  match assess now t with
  | Violated _ => true
  | _ => false
  end.

(** The [sla_status] object of the answer. The entries of [warning] and
    [violated] are the row with its extra property. *)
Record sla_status := SlaStatus {
  st_compliant : list ticket;
  st_warning : list (ticket * Z);
  st_violated : list (ticket * Z);
  st_escalated : list ticket
}.

Section Endpoint.

Variable order_by_created_at : list ticket -> list ticket.

(** [clock i] is the reading of [new Date()] in iteration [i] of the loop;
    the [CURRENT_TIMESTAMP] of an escalation in that iteration is the same
    reading. *)
Variable clock : nat -> Z.

(** The [forEach] of the endpoint. The test [!ticket.escalated] reads a
    property no row has (the columns are [escalated_at] and
    [escalation_level]), so it holds for every row. The helper
    [escalateTicket] of the server calls [ticketService.escalateTicket]
    before its first [await], within the iteration. *)
Fixpoint monitor_loop (i : nat) (fetched : list ticket) (st : sla_status) (d : db)
  : sla_status * db :=
  match fetched with
  | [] => (st, d)
  | t :: fetched' =>
      let now := clock i in
      match assess now t with
      | Compliant =>
          monitor_loop (S i) fetched'
            (SlaStatus (st_compliant st ++ [t]) (st_warning st)
               (st_violated st) (st_escalated st)) d
      | Warning h =>
          monitor_loop (S i) fetched'
            (SlaStatus (st_compliant st) (st_warning st ++ [(t, h)])
               (st_violated st) (st_escalated st)) d
      | Violated h =>
          monitor_loop (S i) fetched'
            (SlaStatus (st_compliant st) (st_warning st)
               (st_violated st ++ [(t, h)]) (st_escalated st ++ [t]))
            (snd (escalateTicket now (id t) d))
      end
  end%list.

Definition slaMonitor (d : db) : sla_status * db :=
  monitor_loop 0 (getAllTickets order_by_created_at d) (SlaStatus [] [] [] []) d.

(** The loop seen from a single stored row [r]. *)
Fixpoint visit (i : nat) (fetched : list ticket) (r : ticket) : ticket :=
  match fetched with
  | [] => r
  | t :: fetched' =>
      visit (S i) fetched'
        (if violates (clock i) t && (id r =? id t)%Z
         then escalate_row (clock i) r else r)
  end.

End Endpoint.



End Automation.

(** ** The rest of the background agent service *)

Module AgentOps.
Import Store.

(** *** [classifyTicket] *)

Record classification := Classification {
  cl_category : string;
  cl_priority : string;
  assigneeSuggestion : option string
}.

(** [/a|b|c/.test(text)]: one of the alternatives occurs in the text. *)
Definition test_any (alternatives : list string) (text : string) : bool :=
  existsb (fun w => includes text w) alternatives.

Definition classifyTicket (text : option string) : classification :=
  let lower := toLowerCase (or_default text "") in
  let category :=
    if test_any ["laptop"; "hardware"; "device"; "keyboard"; "mouse"] lower
    then "hardware"
    else if test_any ["vpn"; "network"; "wifi"; "lan"] lower then "network"
    else if test_any ["login"; "access"; "permission"; "authorize"] lower
    then "access"
    else if test_any ["error"; "bug"; "issue"; "crash"; "exception"] lower
    then "software"
    else "general" in
  let priority :=
    if test_any ["outage"; "down"; "cannot access"; "urgent"; "production"] lower
    then "high"
    else if test_any ["slow"; "minor"; "typo"] lower then "low"
    else "medium" in
  let assigneeSuggestion : option string := None in
  let assigneeSuggestion :=
    if String.eqb category "network" then Some "network-team"
    else assigneeSuggestion in
  let assigneeSuggestion :=
    if String.eqb category "hardware" then Some "helpdesk"
    else assigneeSuggestion in
  let assigneeSuggestion :=
    if String.eqb category "software" then Some "app-support"
    else assigneeSuggestion in
  let assigneeSuggestion :=
    if String.eqb category "access" then Some "iam-team"
    else assigneeSuggestion in
  Classification category priority assigneeSuggestion.

(** *** Reminders *)

(** A row of [reminders]. [due_at] is written by
    [scheduleChecklistReminders] alone, as [toISOString()] text; such texts
    compare as the instants they denote, so the column holds the instant in
    milliseconds. *)
Record reminder := Reminder {
  rem_id : Z;
  rem_user_id : Z;
  rem_checklist_id : option Z;
  item : string;
  due_at : Z;
  sent_at : datetime;
  rem_status : option string;
  rem_created_at : datetime
}.

(** A row of [conversations], without its generated id. *)
Record conversation := Conversation {
  conv_user_id : Z;
  message : string;
  role : string;
  metadata : option string;
  conv_created_at : datetime
}.

(** The tables the service works on. Rows obey the foreign keys of the
    schema, so the inserts below do not fail. *)
Record store := AgentStore {
  base : db;
  reminders : list reminder;
  conversations : list conversation
}.

Definition is_null (d : datetime) : bool :=
  match d with
  | DtNull => true
  | _ => false
  end.

(** [status='pending' AND (sent_at IS NULL) AND due_at <= ?]. *)
Definition due (now : Z) (r : reminder) : bool :=
  text_is (rem_status r) "pending" && is_null (sent_at r) && (due_at r <=? now)%Z.

(** [UPDATE reminders SET sent_at=CURRENT_TIMESTAMP, status='sent']. *)
Definition mark_sent (now : Z) (r : reminder) : reminder :=
  Reminder (rem_id r) (rem_user_id r) (rem_checklist_id r) (item r) (due_at r)
    (DtTime now) (Some "sent") (rem_created_at r).

(** The decimal text of an integer, and the quotation mark. *)
Definition decimal (z : Z) : string := NilZero.string_of_int (Z.to_int z).
Definition quote : string := String (ascii_of_nat 34) EmptyString.

(** The template literal of the notice; [r.checklist_id || 'n/a']. *)
Definition reminder_message (r : reminder) : string :=
  "Reminder: Task " ++ quote ++ item r ++ quote ++ " is due now (checklist "
  ++ match rem_checklist_id r with
     | Some c => if (c =? 0)%Z then "n/a" else decimal c
     | None => "n/a"
     end
  ++ ").".

(** [JSON.stringify({ type: 'reminder', reminder_id: r.id })]. *)
Definition reminder_metadata (r : reminder) : string :=
  "{" ++ quote ++ "type" ++ quote ++ ":" ++ quote ++ "reminder" ++ quote ++ ","
  ++ quote ++ "reminder_id" ++ quote ++ ":" ++ decimal (rem_id r) ++ "}".

(** The conversation row written for a dispatched reminder. *)
Definition notice (now : Z) (r : reminder) : conversation :=
  Conversation (rem_user_id r) (reminder_message r) "assistant"
    (Some (reminder_metadata r)) (DtTime now).

Record dispatch_result := DispatchResult { dispatch_scanned : nat; sent : nat }.

(** [status='open' AND escalated_at IS NOT NULL]. *)
Definition counted (t : ticket) : bool :=
  text_is (status t) "open" && negb (is_null (escalated_at t)).

(** [status='pending' AND due_at <= ?]. *)
Definition pending_due (now : Z) (r : reminder) : bool :=
  text_is (rem_status r) "pending" && (due_at r <=? now)%Z.

Record status_report := StatusReport {
  pendingAccess : nat;
  openTickets : nat;
  overdueTickets : nat;
  dueReminders : nat
}.

Section Service.

Variable order_reminders : list reminder -> list reminder.
Variable order_requests : list access_request -> list access_request.
Variable order_tickets : list ticket -> list ticket.

(** The loop of [dispatchOnboardingReminders] over the rows selected
    beforehand; the clock does not advance during the dispatch. *)
Fixpoint dispatch_loop (now : Z) (rows : list reminder) (s : store) (count : nat)
  : store * nat :=
  match rows with
  | [] => (s, count)
  | r :: rows' =>
      dispatch_loop now rows'
        (AgentStore (base s)
           (map (fun x => if (rem_id x =? rem_id r)%Z then mark_sent now x else x)
                (reminders s))
           (conversations s ++ [notice now r])%list)
        (S count)
  end.

Definition dispatchOnboardingReminders (now : Z) (s : store)
  : dispatch_result * store :=
  let rows := order_reminders (List.filter (due now) (reminders s)) in
  let '(s', n) := dispatch_loop now rows s 0 in
  (DispatchResult (List.length rows) n, s').

(** [getStatus]. [getAllTickets({ status: 'open' })] reaches the later
    definition of [getAllTickets], which takes no filter. *)
Definition getStatus (now : Z) (s : store) : status_report :=
  StatusReport
    (List.length
       (AccessRequestService.getAllAccessRequests order_requests (Some "pending")
          (base s)))
    (List.length (TicketService.getAllTickets order_tickets (base s)))
    (List.length (List.filter counted (tickets (base s))))
    (List.length (List.filter (pending_due now) (reminders s))).

End Service.

(** A store with two pending reminders, one due a second ago and one due
    in an hour. *)
Definition sample_reminder_store : store :=
  AgentStore Vocabulary.sample_store
    [ Reminder 1 1 (Some 7%Z) "Sign the contract"
        (Vocabulary.sample_now - 1000) DtNull (Some "pending")
        (DtTime (Vocabulary.sample_now - 86401000));
      Reminder 2 1 (Some 7%Z) "Collect the badge"
        (Vocabulary.sample_now + 3600000) DtNull (Some "pending")
        (DtTime (Vocabulary.sample_now - 82800000)) ]
    [].

End AgentOps.

(** * Properties *)

(** ** Strings *)

Lemma lower_upper_ascii (c : ascii) : lower_ascii (upper_ascii c) = lower_ascii c.
Proof. destruct c as [[] [] [] [] [] [] [] []]; reflexivity. Qed.

Lemma lower_lower_ascii (c : ascii) : lower_ascii (lower_ascii c) = lower_ascii c.
Proof. destruct c as [[] [] [] [] [] [] [] []]; reflexivity. Qed.

Lemma toLowerCase_toUpperCase (s : string) :
  toLowerCase (toUpperCase s) = toLowerCase s.
Proof.
  induction s as [|c s IH]; simpl; [reflexivity|].
  now rewrite lower_upper_ascii, IH.
Qed.

Lemma toLowerCase_idempotent (s : string) :
  toLowerCase (toLowerCase s) = toLowerCase s.
Proof.
  induction s as [|c s IH]; simpl; [reflexivity|].
  now rewrite lower_lower_ascii, IH.
Qed.

Lemma startsWith_empty (hay : string) : startsWith hay "" = true.
Proof. destruct hay; reflexivity. Qed.

Lemma startsWith_trans (hay mid needle : string) :
  startsWith hay mid = true -> startsWith mid needle = true ->
  startsWith hay needle = true.
Proof.
  revert hay mid. induction needle as [|a needle IH]; intros hay mid H1 H2.
  - apply startsWith_empty.
  - destruct mid as [|b mid]; [discriminate H2|].
    destruct hay as [|c hay]; [discriminate H1|].
    cbn [startsWith] in *.
    destruct (Ascii.eqb a b) eqn:Eab; [|discriminate H2].
    destruct (Ascii.eqb b c) eqn:Ebc; [|discriminate H1].
    apply Ascii.eqb_eq in Eab. apply Ascii.eqb_eq in Ebc. subst.
    rewrite Ascii.eqb_refl. eapply IH; eassumption.
Qed.

Lemma includes_prefix (hay mid needle : string) :
  includes hay mid = true -> startsWith mid needle = true ->
  includes hay needle = true.
Proof.
  intros H1 H2. induction hay as [|c hay IH]; cbn [includes] in *.
  - rewrite orb_false_r in *. eapply startsWith_trans; eassumption.
  - apply orb_true_iff in H1. apply orb_true_iff. destruct H1 as [H1|H1].
    + left. eapply startsWith_trans; eassumption.
    + right. now apply IH.
Qed.

Lemma startsWith_lower (hay needle : string) :
  startsWith hay needle = true ->
  startsWith (toLowerCase hay) (toLowerCase needle) = true.
Proof.
  revert hay. induction needle as [|a needle IH]; intros hay H.
  - apply startsWith_empty.
  - destruct hay as [|b hay]; [discriminate H|].
    cbn [startsWith toLowerCase] in *.
    destruct (Ascii.eqb a b) eqn:E; [|discriminate H].
    apply Ascii.eqb_eq in E. subst. rewrite Ascii.eqb_refl. now apply IH.
Qed.

Lemma includes_lower (hay needle : string) :
  includes hay needle = true ->
  includes (toLowerCase hay) (toLowerCase needle) = true.
Proof.
  induction hay as [|c hay IH]; intros H; cbn [includes toLowerCase] in *.
  - rewrite orb_false_r in *. now apply (startsWith_lower "").
  - apply orb_true_iff in H. apply orb_true_iff. destruct H as [H|H].
    + left. now apply (startsWith_lower (String c hay)).
    + right. now apply IH.
Qed.

Lemma startsWith_trimEnd (s : string) : startsWith s (trimEnd s) = true.
Proof.
  induction s as [|c s IH]; [reflexivity|].
  cbn [trimEnd]. destruct (trimEnd s) as [|d t] eqn:E.
  - destruct (is_space c); [reflexivity|].
    cbn [startsWith]. rewrite Ascii.eqb_refl. apply startsWith_empty.
  - cbn [startsWith]. rewrite Ascii.eqb_refl. exact IH.
Qed.

Lemma includes_trim (s : string) : includes s (trim s) = true.
Proof.
  unfold trim. induction s as [|c s IH]; [reflexivity|].
  cbn [trimStart includes]. destruct (is_space c).
  - rewrite IH. apply orb_true_r.
  - rewrite startsWith_trimEnd. reflexivity.
Qed.

(** ** The matcher and the detector on sample phrases *)

Section MatcherExamples.
Import Regex IntentDetector.

Example trim_both_ends : trim "  Figma console  " = "Figma console".
Proof. reflexivity. Qed.

Example match_is_case_insensitive :
  js_match "NEED ACCESS TO Jira" (seqs [lit "need access to "; dot_plus_group])
  = Some (Some "Jira").
Proof. reflexivity. Qed.

Example match_greedy_group_backtracks :
  js_match "My laptop is not working"
    (seqs [dot_plus_group; lit " "; any_of ["is"; "isn't"; "not"]; lit " working"])
  = Some (Some "My laptop is").
Proof. reflexivity. Qed.

Example match_anchor_only_at_start :
  js_match "oh hi" (seqs [Bol; any_of ["hello"; "hi"; "hey"; "greetings"]]) = None /\
  js_match "hi all" (seqs [Bol; any_of ["hello"; "hi"; "hey"; "greetings"]]) = Some None.
Proof. split; reflexivity. Qed.

Example match_dot_stops_at_newline :
  js_match (String.append "issue with vpn" (String (ascii_of_nat 10) "second line"))
    (seqs [lit "issue with "; dot_plus_group])
  = Some (Some "vpn").
Proof. reflexivity. Qed.

Example detect_access_request :
  detect "I need access to Figma"
  = Detection "access_request" (3520 # 6000) (Some "Figma").
Proof. vm_compute. reflexivity. Qed.

Example detect_ticket_query :
  intent (detect "Show open tickets from this week") = "ticket_query" /\
  entities (detect "Show open tickets from this week") = None.
Proof. vm_compute. split; reflexivity. Qed.

End MatcherExamples.

(** ** Risk assessment *)

Section RiskFacts.
Import AccessRisk.

Lemma some_included_iff (names : list string) (text : string) :
  some_included names text = true <->
  exists r, In r names /\ includes text r = true.
Proof.
  unfold some_included. rewrite existsb_exists. reflexivity.
Qed.

(** C7. [assessAccessRisk] lowercases the resource name and looks for an
    entry of the low-risk list inside it first (answer: low), then for an
    entry of the high-risk list (answer: high), and answers medium when no
    entry of either list occurs; names that differ only in the case of
    their letters get the same answer; "AWS" is high and "Figma" is low. *)
Theorem assessAccessRisk_order (resource : string) :
  let hit names := exists r, In r names /\ includes (toLowerCase resource) r = true in
  (assessAccessRisk resource = Low <-> hit lowRiskResources) /\
  (assessAccessRisk resource = High <->
     ~ hit lowRiskResources /\ hit highRiskResources) /\
  (assessAccessRisk resource = Medium <->
     ~ hit lowRiskResources /\ ~ hit highRiskResources) /\
  (forall other, toLowerCase other = toLowerCase resource ->
     assessAccessRisk other = assessAccessRisk resource) /\
  assessAccessRisk (toUpperCase resource) = assessAccessRisk resource /\
  assessAccessRisk (toLowerCase resource) = assessAccessRisk resource /\
  assessAccessRisk "AWS" = High /\
  assessAccessRisk "Figma" = Low.
Proof.
  intros hit. subst hit. cbv beta.
  rewrite <- !some_included_iff.
  assert (Hcase : forall other, toLowerCase other = toLowerCase resource ->
            assessAccessRisk other = assessAccessRisk resource)
    by (intros other Heq; unfold assessAccessRisk; now rewrite Heq).
  assert (Hshape :
    (assessAccessRisk resource = Low <->
     some_included lowRiskResources (toLowerCase resource) = true) /\
    (assessAccessRisk resource = High <->
     some_included lowRiskResources (toLowerCase resource) <> true /\
     some_included highRiskResources (toLowerCase resource) = true) /\
    (assessAccessRisk resource = Medium <->
     some_included lowRiskResources (toLowerCase resource) <> true /\
     some_included highRiskResources (toLowerCase resource) <> true)).
  { unfold assessAccessRisk.
    destruct (some_included lowRiskResources (toLowerCase resource));
      destruct (some_included highRiskResources (toLowerCase resource));
      repeat split; try reflexivity; try congruence;
      try (intros [? ?]; congruence); try (intros ?; congruence). }
  destruct Hshape as (Hlow & Hhigh & Hmedium).
  split; [exact Hlow|]. split; [exact Hhigh|]. split; [exact Hmedium|].
  split; [exact Hcase|].
  split; [apply Hcase, toLowerCase_toUpperCase|].
  split; [apply Hcase, toLowerCase_idempotent|].
  split; reflexivity.
Qed.

End RiskFacts.

(** ** Routing analytics *)

Section AnalyticsFacts.
Import Agents AgentTriageRouter.

(** C10. [getRoutingAnalytics] never divides by zero: on an empty history
    it answers [{total: 0}] and computes no quotient; on a non-empty
    history both quotients have the divisor [total >= 1] and are finite:
    the mean of the execution times and the fraction of entries whose
    results all succeeded. *)
Theorem getRoutingAnalytics_no_zero_division (r : router) :
  match routingHistory r with
  | [] => getRoutingAnalytics r = OnlyTotal 0
  | _ :: _ =>
      exists a,
        getRoutingAnalytics r = Full a /\
        total a = List.length (routingHistory r) /\
        (1 <= total a)%nat /\
        avgExecutionTime a =
          Some (inject_Z (fold_left (fun sum e => (sum + executionTime e)%Z)
                            (routingHistory r) 0%Z)
                / inject_Z (Z.of_nat (total a)))%Q /\
        successRate a =
          Some (inject_Z (Z.of_nat (List.length
                            (List.filter all_succeeded (routingHistory r))))
                / inject_Z (Z.of_nat (total a)))%Q
  end.
Proof.
  unfold getRoutingAnalytics.
  destruct (routingHistory r) as [|e history] eqn:Hh; [reflexivity|].
  set (n := List.length (e :: history)).
  assert (Hn : (0 < n)%nat) by (subst n; simpl; lia).
  replace (n =? 0)%nat with false by (symmetry; apply Nat.eqb_neq; lia).
  eexists. split; [reflexivity|]. cbn [total avgExecutionTime successRate].
  repeat split; lia.
Qed.

End AnalyticsFacts.

(** ** Routing confidence *)

Section ConfidenceFacts.
Import Agents AgentTriageRouter.

Lemma min_one_spec (q : Q) :
  ((q <= 1)%Q /\ min_one q = q) \/ ((1 < q)%Q /\ min_one q = 1%Q).
Proof.
  unfold min_one. destruct (Qle_bool q 1) eqn:E.
  - left. split; [now apply Qle_bool_iff|reflexivity].
  - right. split; [|reflexivity].
    apply Qnot_le_lt. intros H. apply Qle_bool_iff in H. congruence.
Qed.

Lemma escalation_confidence_unfold (a : agent) (input : string) (ctx : context) (p : string) :
  name a = "EscalationAgent" ->
  calculateConfidence a input (with_priority ctx p) =
  min_one
    ((if String.eqb p "high"
      then 0.5 + inject_Z (Z.of_nat (countKeywordMatches a input)) * 0.1 + 0.3
      else 0.5 + inject_Z (Z.of_nat (countKeywordMatches a input)) * 0.1)
     + 0.92 * 0.2)%Q.
Proof.
  intros Hname. unfold calculateConfidence. rewrite Hname.
  cbn [priority userRole with_priority is_text].
  replace (String.eqb "EscalationAgent" "EscalationAgent") with true by reflexivity.
  replace (String.eqb "EscalationAgent" "OnboardingAgent") with false by reflexivity.
  rewrite andb_true_r, andb_false_r.
  replace (getHistoricalSuccess "EscalationAgent") with 0.92%Q by (vm_compute; reflexivity).
  destruct (String.eqb p "high"); reflexivity.
Qed.

Lemma inject_nat_le (k n : nat) :
  (k <= n)%nat -> (inject_Z (Z.of_nat k) <= inject_Z (Z.of_nat n))%Q.
Proof. intros H. rewrite <- Zle_Qle. lia. Qed.

(** C8, as stated, fails: with four escalation keywords in the text the
    confidence is capped at 1 under both priorities. *)
Lemma escalation_confidence_capped_equal :
  ~ (forall (a : agent) (input : string) (ctx : context),
       name a = "EscalationAgent" ->
       (calculateConfidence a input (with_priority ctx "medium")
        < calculateConfidence a input (with_priority ctx "high"))%Q).
Proof.
  intros H.
  specialize (H (EscalationAgent sample_models)
                "urgent critical emergency escalate" empty_context eq_refl).
  vm_compute in H. discriminate H.
Qed.

(** C8, amended. For an agent named EscalationAgent the confidence under
    priority "high" is never below the one under "medium", everything else
    equal; it is strictly greater when at most three of the router's
    escalation keywords occur in the text, and with four or more both are
    capped at 1. *)
Theorem escalation_confidence_high_vs_medium
  (a : agent) (input : string) (ctx : context) :
  name a = "EscalationAgent" ->
  let medium := calculateConfidence a input (with_priority ctx "medium") in
  let high := calculateConfidence a input (with_priority ctx "high") in
  (medium <= high)%Q /\
  ((countKeywordMatches a input <= 3)%nat -> (medium < high)%Q) /\
  ((4 <= countKeywordMatches a input)%nat -> (medium == 1)%Q /\ (high == 1)%Q).
Proof.
  intros Hname medium high. subst medium high.
  rewrite !escalation_confidence_unfold by exact Hname.
  replace (String.eqb "medium" "high") with false by reflexivity.
  replace (String.eqb "high" "high") with true by reflexivity.
  set (k := countKeywordMatches a input).
  assert (Hk0 : (0 <= inject_Z (Z.of_nat k))%Q) by (apply (inject_nat_le 0); lia).
  destruct (min_one_spec (0.5 + inject_Z (Z.of_nat k) * 0.1 + 0.92 * 0.2))
    as [[Hm ->]|[Hm ->]];
  destruct (min_one_spec (0.5 + inject_Z (Z.of_nat k) * 0.1 + 0.3 + 0.92 * 0.2))
    as [[Hh ->]|[Hh ->]];
  (split; [lra|split]).
  all: try (intros Hk; apply (inject_nat_le _ 3) in Hk; change (inject_Z (Z.of_nat 3)) with 3%Q in Hk; lra).
  all: try (intros Hk; apply (inject_nat_le 4) in Hk; change (inject_Z (Z.of_nat 4)) with 4%Q in Hk; split; lra).
Qed.

Lemma escalation_confidence_high_vs_medium_witness :
  (calculateConfidence (EscalationAgent sample_models) "the server is down"
     (with_priority empty_context "medium")
   < calculateConfidence (EscalationAgent sample_models) "the server is down"
       (with_priority empty_context "high"))%Q.
Proof.
  apply (escalation_confidence_high_vs_medium
           (EscalationAgent sample_models) "the server is down" empty_context eq_refl).
  vm_compute. lia.
Defined.

End ConfidenceFacts.

(** ** Routing decision *)

Section RoutingFacts.
Import Agents AgentTriageRouter.

Lemma insert_desc_length (x : candidate) (l : list candidate) :
  List.length (insert_desc x l) = S (List.length l).
Proof.
  induction l as [|y l IH]; simpl; [reflexivity|].
  destruct (Qle_bool (confidence y) (confidence x)); simpl; congruence.
Qed.

Lemma sort_desc_length (l : list candidate) :
  List.length (sort_desc l) = List.length l.
Proof.
  induction l as [|x l IH]; simpl; [reflexivity|].
  now rewrite insert_desc_length, IH.
Qed.

Lemma collect_candidates_nil (c : config) (registered : list agent)
  (input : string) (ctx : context) :
  (forall a, In a registered ->
     canHandle a input ctx
     && reaches (calculateConfidence a input ctx) (confidenceThreshold c) = false) ->
  collect_candidates c registered input ctx = [].
Proof.
  induction registered as [|a registered IH]; intros H; simpl; [reflexivity|].
  rewrite (H a) by (left; reflexivity).
  apply IH. intros b Hb. apply H. right. exact Hb.
Qed.

Lemma slice0_positive {A : Type} (l : list A) (n : Z) :
  (1 <= n)%Z ->
  slice0 l n = firstn (Z.to_nat n) l /\
  (Z.of_nat (List.length (slice0 l n)) <= n)%Z /\
  (l <> [] -> slice0 l n <> []).
Proof.
  intros Hn. unfold slice0.
  replace (n <? 0)%Z with false by (symmetry; apply Z.ltb_ge; lia).
  split; [reflexivity|]. split.
  - rewrite length_firstn. lia.
  - destruct l as [|x l]; [congruence|]. intros _.
    destruct (Z.to_nat n) as [|m] eqn:E; [lia|]. simpl. discriminate.
Qed.

(** C1. Whatever the text and the context, the agents selected by
    [analyzeRouting] are never none, and under a configuration that allows
    at least one agent (the default and the server allow two) they number
    at most [maxAgents]; when no registered agent is both capable and at or
    above the confidence threshold, the selection is exactly the fallback
    agent, which the constructor builds as an ITSupportAgent. *)
Theorem analyzeRouting_selection_bounds
  (r : router) (input : string) (ctx : context) :
  let decision := analyzeRouting r input ctx in
  (1 <= List.length (agents decision))%nat /\
  ((1 <= maxAgents (cfg r))%Z ->
   (Z.of_nat (List.length (agents decision)) <= maxAgents (cfg r))%Z) /\
  ((forall a, In a (registry r) ->
      canHandle a input ctx
      && reaches (calculateConfidence a input ctx) (confidenceThreshold (cfg r))
      = false) ->
   agents decision = [fallbackAgent r]) /\
  (forall m c, name (fallbackAgent (new_router m c)) = "ITSupportAgent") /\
  maxAgents default_config = 2%Z.
Proof.
  intros decision. subst decision. unfold analyzeRouting. cbn [agents].
  set (sorted := sort_desc (collect_candidates (cfg r) (registry r) input ctx)).
  split; [|split; [|split; [|split]]].
  - destruct (map cand_agent (slice0 sorted (maxAgents (cfg r)))); simpl; lia.
  - intros Hmax.
    destruct (slice0_positive sorted (maxAgents (cfg r)) Hmax) as (_ & Hlen & _).
    destruct (map cand_agent (slice0 sorted (maxAgents (cfg r)))) eqn:E;
      [simpl; lia|].
    rewrite <- E, length_map. exact Hlen.
  - intros Hnone. subst sorted.
    rewrite (collect_candidates_nil _ _ _ _ Hnone). simpl.
    unfold slice0. destruct (maxAgents (cfg r) <? 0)%Z; simpl;
      rewrite ?firstn_nil; reflexivity.
  - reflexivity.
  - reflexivity.
Qed.

Lemma analyzeRouting_selection_bounds_witness :
  (Z.of_nat (List.length (agents (analyzeRouting sample_router
                                    "My laptop is broken and urgent"
                                    (with_priority empty_context "high"))))
   <= maxAgents (cfg sample_router))%Z.
Proof.
  apply (analyzeRouting_selection_bounds sample_router
           "My laptop is broken and urgent" (with_priority empty_context "high")).
  vm_compute. discriminate.
Defined.

End RoutingFacts.

(** ** Execution of the selected agents *)

Section ExecutionFacts.
Import Agents AgentTriageRouter.












End ExecutionFacts.

(** ** Tables keyed by a primary key *)

(** Split [NoDup (map key (x :: l))] into the freshness of [key x] and the
    rest. *)
Ltac nodup_head H Hfresh :=
  cbn [map] in H; apply NoDup_cons_iff in H; destruct H as [Hfresh H].

Lemma find_key_map {A : Type} (key : A -> Z) (f : A -> A) (rows : list A) (t : A) :
  (forall r, key (f r) = key r) ->
  List.NoDup (map key rows) -> In t rows ->
  find (fun r => (key r =? key t)%Z) (map f rows) = Some (f t).
Proof.
  intros Hf. induction rows as [|r rows IH]; intros Hnd Hin; [destruct Hin|].
  nodup_head Hnd Hfresh.
  cbn [map find]. rewrite Hf. destruct Hin as [->|Hin].
  - now rewrite Z.eqb_refl.
  - replace (key r =? key t)%Z with false; [now apply IH|].
    symmetry. apply Z.eqb_neq. intros Heq. apply Hfresh. rewrite Heq.
    now apply in_map.
Qed.

(** ** Integers as JavaScript numbers *)

Lemma js_number_exact (z : Z) :
  (- 2 ^ 53 <= z <= 2 ^ 53)%Z -> AgentService.js_number z = z.
Proof.
  intros Hz. unfold AgentService.js_number.
  destruct (Z.eq_dec (Z.abs z) (2 ^ 53)%Z) as [Heq|Hne].
  - assert (Hcases : z = (2 ^ 53)%Z \/ z = (- 2 ^ 53)%Z) by lia.
    destruct Hcases as [-> | ->]; vm_compute; reflexivity.
  - assert (Ha : (0 <= Z.abs z < 2 ^ 53)%Z) by lia.
    assert (Hlog : (Z.log2 (Z.abs z) <= 52)%Z).
    { destruct (Z.eq_dec (Z.abs z) 0%Z) as [H0|H0]; [rewrite H0; cbn; lia|].
      assert (Hlt : (Z.log2 (Z.abs z) < 53)%Z) by (apply Z.log2_lt_pow2; lia).
      lia. }
    replace (Z.max 0 (Z.log2 (Z.abs z) - 52)) with 0%Z by lia.
    change (2 ^ 0)%Z with 1%Z.
    rewrite Z.mod_1_r, Z.div_1_r.
    replace (2 * 0 <? 1)%Z with true by reflexivity.
    destruct z; cbn [Z.sgn Z.abs]; lia.
Qed.

Lemma next_level_exact (t : Store.ticket) :
  (forall n, Store.escalation_level t = Some n -> (0 <= n < 2 ^ 53)%Z) ->
  AgentService.next_level t = (default 0%Z (Store.escalation_level t) + 1)%Z.
Proof.
  intros Hlevel. unfold AgentService.next_level.
  destruct (Store.escalation_level t) as [n|]; cbn [default from_option Datatypes.id].
  - specialize (Hlevel n eq_refl).
    rewrite (js_number_exact n) by lia. apply js_number_exact. lia.
  - reflexivity.
Qed.

(** ** The SLA sweep *)

Section SweepFacts.
Import Store TicketService AgentService.

Variable order_tickets : list ticket -> list ticket.
Hypothesis order_tickets_perm : forall l, Permutation (order_tickets l) l.
Variable cfg : config.

Lemma sweep_row_id (now : Z) (t : ticket) : id (sweep_row cfg now t) = id t.
Proof. unfold sweep_row. destruct (should_escalate cfg now t); reflexivity. Qed.

Lemma touch_id (now : Z) (r t : ticket) : id (touch cfg now r t) = id r.
Proof.
  unfold touch.
  destruct (should_escalate cfg now t && (id r =? id t)%Z); reflexivity.
Qed.

Lemma touch_self (now : Z) (r : ticket) : touch cfg now r r = sweep_row cfg now r.
Proof. unfold touch, sweep_row. now rewrite Z.eqb_refl, andb_true_r. Qed.

Lemma touch_other (now : Z) (r t : ticket) : id t <> id r -> touch cfg now r t = r.
Proof.
  intros Hne. unfold touch.
  replace (id r =? id t)%Z with false by (symmetry; apply Z.eqb_neq; congruence).
  now rewrite andb_false_r.
Qed.

Lemma updateTicket_escalation (now : Z) (t : ticket) (d : db) :
  updateTicket now (id t) (escalation_fields now t) d
  = Db (users d)
       (map (fun r => if (id r =? id t)%Z
                      then set_fields now (escalation_fields now t) r else r)
            (tickets d))
       (access_requests d).
Proof. reflexivity. Qed.

Lemma sla_loop_rows (now : Z) (all : list ticket) :
  forall (d : db) (n : nat),
    tickets (fst (sla_loop cfg now all d n))
    = map (fun r => fold_left (touch cfg now) all r) (tickets d) /\
    users (fst (sla_loop cfg now all d n)) = users d /\
    access_requests (fst (sla_loop cfg now all d n)) = access_requests d /\
    snd (sla_loop cfg now all d n)
    = (n + List.length (List.filter (should_escalate cfg now) all))%nat.
Proof.
  induction all as [|t all IH]; intros d n.
  - simpl. rewrite map_id. repeat split; lia.
  - cbn [sla_loop List.filter].
    destruct (should_escalate cfg now t) eqn:Hesc.
    + destruct (IH (updateTicket now (id t) (escalation_fields now t) d) (S n))
        as (Ht & Hu & Ha & Hn).
      rewrite Ht, Hu, Ha, Hn. rewrite updateTicket_escalation.
      cbn [tickets users access_requests].
      rewrite map_map. repeat split; [|simpl; lia].
      apply map_ext. intros r. cbn [fold_left]. f_equal.
      unfold touch. rewrite Hesc. reflexivity.
    + destruct (IH d n) as (Ht & Hu & Ha & Hn).
      rewrite Ht, Hu, Ha, Hn. repeat split.
      apply map_ext. intros r. cbn [fold_left]. f_equal.
      unfold touch. rewrite Hesc. reflexivity.
Qed.

Lemma fold_touch_foreign (now : Z) (all : list ticket) (r : ticket) :
  ~ In (id r) (map id all) -> fold_left (touch cfg now) all r = r.
Proof.
  induction all as [|t all IH]; intros Hnot; [reflexivity|].
  cbn [fold_left]. rewrite touch_other.
  - apply IH. intros Hin. apply Hnot. right. exact Hin.
  - intros Heq. apply Hnot. left. exact Heq.
Qed.

Lemma fold_touch_unique (now : Z) (all : list ticket) (r : ticket) :
  List.NoDup (map id all) -> In r all ->
  fold_left (touch cfg now) all r = sweep_row cfg now r.
Proof.
  induction all as [|t all IH]; intros Hnd Hin; [destruct Hin|].
  nodup_head Hnd Hfresh.
  cbn [fold_left]. destruct Hin as [->|Hin].
  - rewrite touch_self. apply fold_touch_foreign.
    now rewrite sweep_row_id.
  - rewrite touch_other; [now apply IH|].
    intros Heq. apply Hfresh. rewrite Heq. now apply in_map.
Qed.

(** With ids unique (the primary key), a sweep rewrites every row by the
    row-wise rule. *)
Lemma monitorSLA_rows (now : Z) (d : db) :
  List.NoDup (map id (tickets d)) ->
  snd (monitorSLA order_tickets cfg now d)
  = Db (users d) (map (sweep_row cfg now) (tickets d)) (access_requests d) /\
  escalated (fst (monitorSLA order_tickets cfg now d))
  = List.length (List.filter (should_escalate cfg now) (order_tickets (tickets d))) /\
  sla_scanned (fst (monitorSLA order_tickets cfg now d)) = List.length (tickets d).
Proof.
  intros Hnd. unfold monitorSLA, getAllTickets.
  set (all := order_tickets (tickets d)).
  assert (Hperm : Permutation all (tickets d)) by apply order_tickets_perm.
  destruct (sla_loop_rows now all d 0) as (Ht & Hu & Ha & Hn).
  destruct (sla_loop cfg now all d 0) as [d' n]. cbn [fst snd] in *.
  split; [|split].
  - destruct d' as [u' t' a']. cbn [tickets users access_requests] in *.
    subst u' t' a'. f_equal.
    apply map_ext_in. intros r Hr. apply fold_touch_unique.
    + apply (Permutation_NoDup (l := map id (tickets d))); [|exact Hnd].
      apply Permutation_map. now symmetry.
    + apply (Permutation_in (l := tickets d)); [now symmetry|exact Hr].
  - cbn [escalated]. exact Hn.
  - cbn [sla_scanned]. now apply Permutation_length.
Qed.

Lemma monitorSLA_ticket (now : Z) (d : db) (t : ticket) :
  List.NoDup (map id (tickets d)) -> In t (tickets d) ->
  ticket_by_id (id t) (snd (monitorSLA order_tickets cfg now d))
  = Some (sweep_row cfg now t).
Proof.
  intros Hnd Hin. destruct (monitorSLA_rows now d Hnd) as (-> & _).
  unfold ticket_by_id. cbn [tickets].
  apply (find_key_map id); auto using sweep_row_id.
Qed.

(** [TicketService.escalateTicket], the escalation of one ticket on request,
    differs from the sweep in one column: it sets the priority to "urgent"
    whatever it was. *)
Lemma escalateTicket_sets_urgent (now : Z) (d : db) (t : ticket) :
  List.NoDup (map id (tickets d)) -> In t (tickets d) ->
  exists t',
    escalateTicket now (id t) d
    = (inr t', Db (users d) (update_where_id (id t) (escalate_row now) (tickets d))
                  (access_requests d)) /\
    t' = escalate_row now t /\
    priority t' = Some "urgent" /\
    escalation_level t' = Some (default 0%Z (escalation_level t) + 1)%Z /\
    escalated_at t' = DtTime now /\
    status t' = status t.
Proof.
  intros Hnd Hin. exists (escalate_row now t). unfold escalateTicket.
  assert (Hfind : find (fun r => (id r =? id t)%Z) (tickets d) = Some t).
  { rewrite <- (map_id (tickets d)) at 1.
    apply (find_key_map id (fun r => r)); auto. }
  rewrite Hfind. cbn [tickets].
  assert (Hupd : find (fun r => (id r =? id t)%Z)
                   (update_where_id (id t) (escalate_row now) (tickets d))
                 = Some (escalate_row now t)).
  { unfold update_where_id.
    rewrite (find_key_map id
               (fun r => if (id r =? id t)%Z then escalate_row now r else r)
               (tickets d) t); auto.
    - now rewrite Z.eqb_refl.
    - intros r. destruct (id r =? id t)%Z; reflexivity. }
  rewrite Hupd. repeat split.
Qed.

Lemma overdue_high_after_5h (now : Z) (t : ticket) :
  priority t = Some "high" ->
  created_at t = DtTime (now - 5 * ms_per_hour) ->
  (sla_of default_config t == 4)%Q /\ overdue default_config now t = true.
Proof.
  intros Hp Hc. unfold overdue, ageHours, sla_of. rewrite Hp, Hc.
  cbn [getTime or_default truthy default].
  replace (now - (now - 5 * ms_per_hour))%Z with (5 * ms_per_hour)%Z by lia.
  split; vm_compute; reflexivity.
Qed.

(** C4. An open ticket whose age exceeds the SLA of its priority and whose
    [escalation_level] is 0 leaves the sweep with [escalation_level] 1,
    [escalated_at] set to the sweep time and status "open"; a "medium"
    priority becomes "high" and any other priority is kept; the remaining
    columns but [updated_at] are untouched. Under the default 4-hour
    threshold a high-priority ticket created 5 hours before the sweep is
    overdue, so it ends at level 1, open, escalated, still high. *)
Theorem monitorSLA_escalation_transition (now : Z) (d : db) (t : ticket) :
  List.NoDup (map id (tickets d)) ->
  In t (tickets d) ->
  status t = Some "open" ->
  overdue cfg now t = true ->
  escalation_level t = Some 0%Z ->
  (exists t',
     ticket_by_id (id t) (snd (monitorSLA order_tickets cfg now d)) = Some t' /\
     escalation_level t' = Some 1%Z /\
     escalated_at t' = DtTime now /\
     status t' = Some "open" /\
     (priority t = Some "medium" -> priority t' = Some "high") /\
     (priority t <> Some "medium" -> priority t' = priority t) /\
     created_at t' = created_at t /\ title t' = title t /\
     description t' = description t /\ category t' = category t /\
     assignee t' = assignee t /\ tags t' = tags t /\ user_id t' = user_id t) /\
  (forall t0 : ticket,
     priority t0 = Some "high" ->
     created_at t0 = DtTime (now - 5 * ms_per_hour) ->
     (sla_of default_config t0 == 4)%Q /\ overdue default_config now t0 = true).
Proof.
  intros Hnd Hin Hopen Hover Hlevel.
  split; [|intros t0; apply overdue_high_after_5h].
  exists (sweep_row cfg now t).
  split; [now apply monitorSLA_ticket|].
  unfold sweep_row, should_escalate, escalation_guard.
  rewrite Hover, Hlevel, orb_true_r. cbn [andb].
  unfold set_fields, escalation_fields.
  replace (next_level t) with 1%Z
    by (unfold next_level; rewrite Hlevel; reflexivity).
  cbn. repeat split.
  - intros ->. reflexivity.
  - intros Hp. destruct (priority t) as [p|]; [|reflexivity].
    cbn. destruct (String.eqb p "medium") eqn:E; [|reflexivity].
    apply String.eqb_eq in E. congruence.
Qed.

Lemma filter_none_length {A : Type} (f : A -> bool) (l : list A) :
  (forall x, In x l -> f x = false) -> List.length (List.filter f l) = 0%nat.
Proof.
  induction l as [|x l IH]; intros H; [reflexivity|].
  cbn [List.filter]. rewrite (H x) by (left; reflexivity).
  apply IH. intros y Hy. apply H. right. exact Hy.
Qed.

Lemma sweep_row_settled (now : Z) (t : ticket) :
  (forall n, escalation_level t = Some n -> (0 <= n < 2 ^ 53)%Z) ->
  should_escalate cfg now (sweep_row cfg now t) = false /\
  (should_escalate cfg now t = true ->
   escalation_guard (sweep_row cfg now t) = false).
Proof.
  intros Hlevel. unfold sweep_row.
  destruct (should_escalate cfg now t) eqn:Hesc; [|split; [exact Hesc|discriminate]].
  assert (Hguard : escalation_guard (set_fields now (escalation_fields now t) t) = false).
  { unfold escalation_guard, set_fields, escalation_fields.
    rewrite (next_level_exact t Hlevel). cbn.
    destruct (escalation_level t) as [n|] eqn:E; [|reflexivity].
    specialize (Hlevel n eq_refl). cbn.
    destruct (n + 1)%Z eqn:E1; try reflexivity; lia. }
  split; [|intros _; exact Hguard].
  unfold should_escalate. rewrite Hguard. apply andb_false_r.
Qed.

Lemma sweep_row_idempotent (now : Z) (t : ticket) :
  (forall n, escalation_level t = Some n -> (0 <= n < 2 ^ 53)%Z) ->
  sweep_row cfg now (sweep_row cfg now t) = sweep_row cfg now t.
Proof.
  intros Hlevel. destruct (sweep_row_settled now t Hlevel) as [Hs _].
  unfold sweep_row at 1. now rewrite Hs.
Qed.

(** C3, amended. With ids unique and levels from 0 to below 2^53 (the
    range in which JavaScript adds 1 exactly), a second sweep at the same
    instant changes nothing and escalates nothing. A ticket is escalated
    exactly when it is overdue and its guard holds: it was never escalated
    before ([escalated_at] empty) or it is at level 0; so an overdue ticket
    without escalation date is escalated at any level. Every ticket the
    first sweep escalates ends, after both sweeps, exactly one level above
    its level before (a null level counting as 0), its guard being false
    once it is escalated; every other ticket is unchanged. *)
Theorem monitorSLA_idempotent (now : Z) (d : db) :
  List.NoDup (map id (tickets d)) ->
  (forall t n, In t (tickets d) -> escalation_level t = Some n ->
     (0 <= n < 2 ^ 53)%Z) ->
  let once := snd (monitorSLA order_tickets cfg now d) in
  let twice := snd (monitorSLA order_tickets cfg now once) in
  twice = once /\
  escalated (fst (monitorSLA order_tickets cfg now once)) = 0%nat /\
  forall t, In t (tickets d) ->
    exists t1,
      ticket_by_id (id t) once = Some t1 /\
      ticket_by_id (id t) twice = Some t1 /\
      (should_escalate cfg now t = true <->
       overdue cfg now t = true /\
       (dt_truthy (escalated_at t) = false \/ escalation_level t = Some 0%Z)) /\
      (should_escalate cfg now t = true ->
       escalation_level t1 = Some (default 0%Z (escalation_level t) + 1)%Z /\
       escalation_guard t1 = false) /\
      (should_escalate cfg now t = false -> t1 = t).
Proof.
  intros Hnd Hlevel once twice.
  destruct (monitorSLA_rows now d Hnd) as (Honce & _).
  fold once in Honce.
  assert (Hnd1 : List.NoDup (map id (tickets once))).
  { rewrite Honce. cbn [tickets]. rewrite map_map.
    erewrite map_ext; [exact Hnd|]. intros r. apply sweep_row_id. }
  destruct (monitorSLA_rows now once Hnd1) as (Htwice & Hcount & _).
  fold twice in Htwice.
  assert (Hsame : twice = once).
  { rewrite Htwice, Honce. cbn [users tickets access_requests]. f_equal.
    rewrite map_map. apply map_ext_in. intros r Hr.
    apply sweep_row_idempotent. intros n. now apply Hlevel. }
  split; [exact Hsame|]. split.
  - rewrite Hcount.
    assert (Hnone : forall r, In r (order_tickets (tickets once)) ->
                      should_escalate cfg now r = false).
    { intros r Hr. apply (Permutation_in _ (order_tickets_perm _)) in Hr.
      rewrite Honce in Hr. cbn [tickets] in Hr. apply in_map_iff in Hr.
      destruct Hr as (t & <- & Ht). apply sweep_row_settled.
      intros n. now apply Hlevel. }
    now apply filter_none_length.
  - intros t Ht. exists (sweep_row cfg now t).
    split; [now apply monitorSLA_ticket|].
    split; [rewrite Hsame; now apply monitorSLA_ticket|].
    split; [|split].
    + unfold should_escalate, escalation_guard.
      rewrite andb_true_iff, orb_true_iff, negb_true_iff.
      assert (Hzero : match escalation_level t with
                      | Some 0%Z => true
                      | _ => false
                      end = true <-> escalation_level t = Some 0%Z).
      { destruct (escalation_level t) as [[| |]|]; split; congruence. }
      rewrite Hzero. reflexivity.
    + intros Hesc. split.
      * unfold sweep_row. rewrite Hesc. cbn. f_equal.
        apply next_level_exact. intros n. now apply Hlevel.
      * apply sweep_row_settled; [|exact Hesc]. intros n. now apply Hlevel.
    + intros Hesc. unfold sweep_row. now rewrite Hesc.
Qed.

(** C9, amended. A ticket whose [created_at] is text that does not parse as
    a date has no age, is never escalated and leaves the sweep as it was;
    every ticket of the store, whatever the other rows hold, is rewritten
    by the row-wise rule, and the sweep scans the whole table. *)
Theorem monitorSLA_unparsed_created_at (now : Z) (d : db) :
  List.NoDup (map id (tickets d)) ->
  (forall t s, In t (tickets d) -> created_at t = DtUnparsed s ->
     should_escalate cfg now t = false /\
     ticket_by_id (id t) (snd (monitorSLA order_tickets cfg now d)) = Some t) /\
  (forall r, In r (tickets d) ->
     ticket_by_id (id r) (snd (monitorSLA order_tickets cfg now d))
     = Some (sweep_row cfg now r)) /\
  sla_scanned (fst (monitorSLA order_tickets cfg now d)) = List.length (tickets d).
Proof.
  intros Hnd. split; [|split].
  - intros t s Hin Hc.
    assert (Hesc : should_escalate cfg now t = false).
    { unfold should_escalate, overdue, ageHours. now rewrite Hc. }
    split; [exact Hesc|].
    rewrite (monitorSLA_ticket now d t Hnd Hin). unfold sweep_row. now rewrite Hesc.
  - intros r Hr. now apply monitorSLA_ticket.
  - now destruct (monitorSLA_rows now d Hnd) as (_ & _ & ->).
Qed.

End SweepFacts.

Section SweepInstances.
Import Store TicketService AgentService.

Lemma sample_store_ids : List.NoDup (map id (tickets sample_store)).
Proof.
  cbn. repeat (constructor; [cbn; intuition discriminate|]). constructor.
Defined.

Lemma monitorSLA_escalation_transition_witness :
  exists t',
    ticket_by_id 1 (snd (monitorSLA (fun l => l) default_config sample_now sample_store))
    = Some t' /\
    escalation_level t' = Some 1%Z /\
    escalated_at t' = DtTime sample_now /\
    status t' = Some "open" /\
    priority t' = Some "high".
Proof.
  destruct (monitorSLA_escalation_transition (fun l => l) (fun l => Permutation_refl l)
              default_config sample_now sample_store
              (sample_ticket 1 (Some "high")
                 (DtTime (sample_now - 5 * ms_per_hour))))
    as [(t' & Hfind & Hlevel & Hat & Hstatus & _ & Hkeep & _) _].
  - exact sample_store_ids.
  - left. reflexivity.
  - reflexivity.
  - vm_compute. reflexivity.
  - reflexivity.
  - exists t'. repeat split; try assumption.
    rewrite Hkeep; [reflexivity|discriminate].
Defined.

(** C3, as stated, fails: the guard is not [escalation_level == 0]. The
    only ticket of [store_level_five] is overdue, at level 5 and without an
    escalation date; the sweep escalates it, to level 6. *)
Lemma monitorSLA_escalates_above_level_zero :
  option_map escalation_level (ticket_by_id 8 store_level_five) = Some (Some 5%Z) /\
  option_map escalated_at (ticket_by_id 8 store_level_five) = Some DtNull /\
  option_map (should_escalate default_config sample_now)
    (ticket_by_id 8 store_level_five) = Some true /\
  escalated (fst (monitorSLA (fun l => l) default_config sample_now store_level_five))
  = 1%nat /\
  option_map escalation_level
    (ticket_by_id 8
       (snd (monitorSLA (fun l => l) default_config sample_now store_level_five)))
  = Some (Some 6%Z).
Proof.
  vm_compute. repeat split.
Qed.

(** Beyond the range of the amended C3 the sum is not exact: at level 2^53
    an escalation leaves the level where it was. *)
Example monitorSLA_level_2_53_stays :
  escalated (fst (monitorSLA (fun l => l) default_config sample_now store_level_2_53))
  = 1%nat /\
  option_map escalation_level
    (ticket_by_id 9
       (snd (monitorSLA (fun l => l) default_config sample_now store_level_2_53)))
  = Some (Some (2 ^ 53)%Z).
Proof.
  vm_compute. split; reflexivity.
Qed.

Lemma monitorSLA_idempotent_witness :
  snd (monitorSLA (fun l => l) default_config sample_now
         (snd (monitorSLA (fun l => l) default_config sample_now sample_store)))
  = snd (monitorSLA (fun l => l) default_config sample_now sample_store).
Proof.
  apply (monitorSLA_idempotent (fun l => l) (fun l => Permutation_refl l)
           default_config sample_now sample_store).
  - exact sample_store_ids.
  - intros t n Hin Hn. cbn in Hin.
    destruct Hin as [<-|[<-|[<-|[]]]]; cbn in Hn; inversion Hn; lia.
Defined.

(** C9, as stated, fails: a ticket with no [created_at] is read as created
    at the epoch, found overdue and escalated. *)
Lemma missing_created_at_is_escalated :
  option_map escalation_level
    (ticket_by_id 7
       (snd (monitorSLA (fun l => l) default_config sample_now store_missing_created_at)))
  = Some (Some 1%Z) /\
  escalated (fst (monitorSLA (fun l => l) default_config sample_now
                    store_missing_created_at)) = 1%nat /\
  option_map escalation_level (ticket_by_id 7 store_missing_created_at)
  = Some (Some 0%Z).
Proof. vm_compute. repeat split. Qed.

(** The sweep reads every ticket, whatever its status: a resolved ticket
    past its SLA is escalated and set back to "open". *)
Example monitorSLA_reads_every_status :
  option_map (fun t => (status t, priority t, escalation_level t))
    (ticket_by_id 5
       (snd (monitorSLA (fun l => l) default_config sample_now store_resolved_ticket)))
  = Some (Some "open", Some "high", Some 1%Z).
Proof. vm_compute. reflexivity. Qed.

Lemma monitorSLA_unparsed_created_at_witness :
  ticket_by_id 2 (snd (monitorSLA (fun l => l) default_config sample_now sample_store))
  = Some (sample_ticket 2 (Some "medium") (DtUnparsed "yesterday")).
Proof.
  apply (proj1 (monitorSLA_unparsed_created_at (fun l => l)
                  (fun l => Permutation_refl l)
                  default_config sample_now sample_store sample_store_ids)
           (sample_ticket 2 (Some "medium") (DtUnparsed "yesterday")) "yesterday").
  - right. left. reflexivity.
  - reflexivity.
Defined.

End SweepInstances.

(** ** The access scan *)

Section ScanFacts.
Import Store AgentService.

Variable order_requests : list access_request -> list access_request.
Hypothesis order_requests_perm : forall l, Permutation (order_requests l) l.
Variable cfg : config.

Lemma NoDup_map_filter {A B : Type} (f : A -> B) (p : A -> bool) (l : list A) :
  List.NoDup (map f l) -> List.NoDup (map f (List.filter p l)).
Proof.
  induction l as [|x l IH]; intros Hnd; [constructor|].
  nodup_head Hnd Hfresh.
  cbn [List.filter]. destruct (p x); [|now apply IH].
  cbn [map]. constructor; [|now apply IH].
  intros Hin. apply Hfresh. apply in_map_iff in Hin.
  destruct Hin as (y & Hy & Hin). apply filter_In in Hin.
  rewrite <- Hy. apply in_map. tauto.
Qed.

Lemma NoDup_map_inj {A B : Type} (f : A -> B) (l : list A) (x y : A) :
  List.NoDup (map f l) -> In x l -> In y l -> f x = f y -> x = y.
Proof.
  induction l as [|z l IH]; intros Hnd Hx Hy Heq; [destruct Hx|].
  nodup_head Hnd Hfresh.
  destruct Hx as [->|Hx], Hy as [->|Hy]; auto.
  - exfalso. apply Hfresh. rewrite Heq. now apply in_map.
  - exfalso. apply Hfresh. rewrite <- Heq. now apply in_map.
Qed.

Lemma fetched_pending_filter (d : db) :
  AccessRequestService.getAllAccessRequests order_requests (Some "pending") d
  = order_requests (List.filter (fetched_pending d) (access_requests d)).
Proof.
  reflexivity.
Qed.

Lemma scan_touch_id (now : Z) (r req : access_request) :
  ar_id (scan_touch cfg now r req) = ar_id r.
Proof.
  unfold scan_touch.
  destruct (auto_approvable cfg req && (ar_id r =? ar_id req)%Z); reflexivity.
Qed.

Lemma scan_touch_other (now : Z) (r req : access_request) :
  ar_id req <> ar_id r -> scan_touch cfg now r req = r.
Proof.
  intros Hne. unfold scan_touch.
  replace (ar_id r =? ar_id req)%Z with false by (symmetry; apply Z.eqb_neq; congruence).
  now rewrite andb_false_r.
Qed.

Lemma scan_loop_rows (now : Z) (pending : list access_request) :
  forall (d : db) (n : nat),
    access_requests (fst (scan_loop cfg now pending d n))
    = map (fun r => fold_left (scan_touch cfg now) pending r) (access_requests d) /\
    users (fst (scan_loop cfg now pending d n)) = users d /\
    tickets (fst (scan_loop cfg now pending d n)) = tickets d /\
    snd (scan_loop cfg now pending d n)
    = (n + List.length (List.filter (auto_approvable cfg) pending))%nat.
Proof.
  induction pending as [|req pending IH]; intros d n.
  - simpl. rewrite map_id. repeat split; lia.
  - cbn [scan_loop List.filter].
    destruct (auto_approvable cfg req) eqn:Hok.
    + destruct (IH (approve_where_id now (ar_id req) d) (S n)) as (Hr & Hu & Ht & Hn).
      rewrite Hr, Hu, Ht, Hn. unfold approve_where_id.
      cbn [tickets users access_requests].
      rewrite map_map. repeat split; [|simpl; lia].
      apply map_ext. intros r. cbn [fold_left]. f_equal.
      unfold scan_touch. rewrite Hok. reflexivity.
    + destruct (IH d n) as (Hr & Hu & Ht & Hn).
      rewrite Hr, Hu, Ht, Hn. repeat split.
      apply map_ext. intros r. cbn [fold_left]. f_equal.
      unfold scan_touch. rewrite Hok. reflexivity.
Qed.

Lemma fold_scan_touch_foreign (now : Z) (pending : list access_request)
  (r : access_request) :
  ~ In (ar_id r) (map ar_id pending) -> fold_left (scan_touch cfg now) pending r = r.
Proof.
  induction pending as [|req pending IH]; intros Hnot; [reflexivity|].
  cbn [fold_left]. rewrite scan_touch_other.
  - apply IH. intros Hin. apply Hnot. right. exact Hin.
  - intros Heq. apply Hnot. left. exact Heq.
Qed.

Lemma fold_scan_touch_unique (now : Z) (pending : list access_request)
  (r : access_request) :
  List.NoDup (map ar_id pending) -> In r pending ->
  fold_left (scan_touch cfg now) pending r
  = if auto_approvable cfg r then approve_row now r else r.
Proof.
  induction pending as [|req pending IH]; intros Hnd Hin; [destruct Hin|].
  nodup_head Hnd Hfresh.
  cbn [fold_left]. destruct Hin as [->|Hin].
  - unfold scan_touch at 2. rewrite Z.eqb_refl, andb_true_r.
    apply fold_scan_touch_foreign.
    destruct (auto_approvable cfg r); exact Hfresh.
  - rewrite scan_touch_other; [now apply IH|].
    intros Heq. apply Hfresh. rewrite Heq. now apply in_map.
Qed.

(** With ids unique, a scan rewrites every row by the row-wise rule. *)
Lemma scanAccessRequests_request (now : Z) (d : db) (req : access_request) :
  List.NoDup (map ar_id (access_requests d)) -> In req (access_requests d) ->
  request_by_id (ar_id req) (snd (scanAccessRequests order_requests cfg now d))
  = Some (scan_row cfg now d req).
Proof.
  intros Hnd Hin. unfold scanAccessRequests. rewrite fetched_pending_filter.
  set (kept := List.filter (fetched_pending d) (access_requests d)).
  set (pending := order_requests kept).
  assert (Hperm : Permutation pending kept) by apply order_requests_perm.
  destruct (scan_loop_rows now pending d 0) as (Hr & _).
  destruct (scan_loop cfg now pending d 0) as [d' n]. cbn [fst snd] in *.
  unfold request_by_id. rewrite Hr.
  assert (Hnd' : List.NoDup (map ar_id pending)).
  { apply (Permutation_NoDup (l := map ar_id kept)).
    - apply Permutation_map. now symmetry.
    - now apply NoDup_map_filter. }
  assert (Hrow : forall r, In r (access_requests d) ->
            fold_left (scan_touch cfg now) pending r = scan_row cfg now d r).
  { intros r Hr'. unfold scan_row. destruct (fetched_pending d r) eqn:Hf; cbn [andb].
    - apply fold_scan_touch_unique; [exact Hnd'|].
      apply (Permutation_in (l := kept)); [now symmetry|].
      apply filter_In. tauto.
    - apply fold_scan_touch_foreign. intros Hid. apply in_map_iff in Hid.
      destruct Hid as (p & Hp & Hpin).
      apply (Permutation_in _ Hperm) in Hpin. apply filter_In in Hpin.
      destruct Hpin as [Hpin Hpf].
      assert (p = r) by (apply (NoDup_map_inj ar_id (access_requests d)); auto).
      congruence. }
  replace (map (fun r => fold_left (scan_touch cfg now) pending r) (access_requests d))
    with (map (scan_row cfg now d) (access_requests d))
    by (symmetry; apply map_ext_in; exact Hrow).
  apply (find_key_map ar_id); auto.
  intros r. unfold scan_row.
  destruct (fetched_pending d r && auto_approvable cfg r); reflexivity.
Qed.

End ScanFacts.

(** ** Auto-approval *)

Section ApprovalFacts.
Import Store AgentService.

Variable order_requests : list access_request -> list access_request.
Hypothesis order_requests_perm : forall l, Permutation (order_requests l) l.

(** The submission endpoint builds its decision from the assessed risk
    alone, whatever the reason, but cannot store it: every request that
    names a resource is answered 500. *)
Lemma auto_approve_endpoint (resource : string) (reason : option string) :
  resource <> "" ->
  AccessRisk.auto_approve (Some resource) reason = AccessRisk.ServerError /\
  AccessRisk.auto_approved (AccessRisk.build_request resource reason)
  = AccessRisk.is_low (AccessRisk.assessAccessRisk resource).
Proof.
  intros Hne. destruct resource as [|c resource]; [congruence|].
  split; reflexivity.
Qed.

Lemma listed_low_risk_rated_low (resource : string) :
  lowRisk default_config (trim resource) = true ->
  AccessRisk.assessAccessRisk resource = AccessRisk.Low.
Proof.
  intros H. unfold lowRisk in H. apply existsb_exists in H.
  destruct H as (listed & Hin & Heq). apply String.eqb_eq in Heq.
  assert (Hinc : includes (toLowerCase resource) (toLowerCase listed) = true).
  { rewrite <- Heq. apply includes_lower, includes_trim. }
  assert (Hlow : exists r, In r AccessRisk.lowRiskResources /\
                           startsWith (toLowerCase listed) r = true).
  { cbn in Hin. destruct Hin as [<-|[<-|[<-|[<-|[<-|[]]]]]].
    - exists "slack". split; [cbn; tauto|reflexivity].
    - exists "confluence". split; [cbn; tauto|reflexivity].
    - exists "figma". split; [cbn; tauto|reflexivity].
    - exists "notion". split; [cbn; tauto|reflexivity].
    - exists "jira". split; [cbn; tauto|reflexivity]. }
  destruct Hlow as (r & Hr & Hpre).
  unfold AccessRisk.assessAccessRisk.
  replace (AccessRisk.some_included AccessRisk.lowRiskResources (toLowerCase resource))
    with true; [reflexivity|].
  symmetry. apply some_included_iff. exists r. split; [exact Hr|].
  eapply includes_prefix; eassumption.
Qed.

Lemma listed_high_risk_rated_high (resource : string) :
  In (toLowerCase resource) AccessRisk.highRiskResources ->
  AccessRisk.assessAccessRisk resource = AccessRisk.High.
Proof.
  intros Hin. unfold AccessRisk.assessAccessRisk.
  cbn in Hin.
  destruct Hin as [<-|[<-|[<-|[<-|[<-|[<-|[<-|[<-|[<-|[<-|[]]]]]]]]]]];
    reflexivity.
Qed.

(** C6, amended. A pending request leaves the access scan either approved
    or as it was. The scan approves it exactly when its user exists, its
    trimmed resource name is, letter for letter, an entry of the scan's own
    low-risk list and its lowercased justification contains one of the
    marker terms. So an approved request has, under the default list, a low
    assessed risk and a marker term, and a fetched request for a resource
    of the scan's list whose justification contains "routine" is approved;
    under the default list a request whose resource is assessed high-risk
    (as every listed high-risk name is) stays as it was, whatever its
    justification. A low assessed risk alone does not suffice. *)
Theorem scanAccessRequests_auto_approval
  (cfg : config) (now : Z) (d : db) (req : access_request) :
  List.NoDup (map ar_id (access_requests d)) ->
  In req (access_requests d) ->
  ar_status req = Some "pending" ->
  let resource := or_default (resource_name req) "" in
  let justification := toLowerCase (or_default (Store.justification req) "") in
  let after := fun c =>
    request_by_id (ar_id req) (snd (scanAccessRequests order_requests c now d)) in
  (after cfg = Some (approve_row now req) \/ after cfg = Some req) /\
  (after cfg = Some (approve_row now req) ->
   lowRisk cfg (trim resource) = true /\
   exists term, In term safe_terms /\ includes justification term = true) /\
  (after default_config = Some (approve_row now req) ->
   AccessRisk.assessAccessRisk resource = AccessRisk.Low) /\
  (ar_user_id req ∈ users d ->
   lowRisk cfg (trim resource) = true ->
   includes justification "routine" = true ->
   after cfg = Some (approve_row now req) /\
   ar_status (approve_row now req) = Some "approved") /\
  (AccessRisk.assessAccessRisk resource = AccessRisk.High ->
   after default_config = Some req) /\
  (forall name, In (toLowerCase name) AccessRisk.highRiskResources ->
     AccessRisk.assessAccessRisk name = AccessRisk.High) /\
  (after cfg = Some (approve_row now req) <->
   ar_user_id req ∈ users d /\
   In (trim resource) (lowRiskResources cfg) /\
   exists term, In term safe_terms /\ includes justification term = true).
Proof.
  intros Hnd Hin Hpending resource justification after.
  assert (Hafter : forall c, after c = Some (scan_row c now d req)).
  { intros c. unfold after. now apply scanAccessRequests_request. }
  assert (Hdiff : approve_row now req <> req).
  { intros Heq. apply (f_equal ar_status) in Heq. cbn in Heq. congruence. }
  assert (Honly : forall c, after c = Some (approve_row now req) ->
            auto_approvable c req = true).
  { intros c. rewrite Hafter. unfold scan_row.
    destruct (fetched_pending d req && auto_approvable c req) eqn:E;
      [|intros Heq; inversion Heq; congruence].
    intros _. apply andb_true_iff in E. tauto. }
  assert (Hlisted : forall x,
            lowRisk cfg x = true <-> In x (lowRiskResources cfg)).
  { intros x. unfold lowRisk. rewrite existsb_exists. split.
    - intros (y & Hy & Heq). apply String.eqb_eq in Heq. now subst.
    - intros Hx. exists x. split; [exact Hx|apply String.eqb_refl]. }
  split; [|split; [|split; [|split; [|split; [|split]]]]].
  7: { rewrite Hafter. unfold scan_row, fetched_pending, auto_approvable, safeWords.
       rewrite Hpending. cbn [text_is]. rewrite String.eqb_refl, andb_true_r.
       fold resource. fold justification.
       rewrite <- Hlisted, <- existsb_exists.
       destruct (bool_decide (ar_user_id req ∈ users d)) eqn:Eu;
         [apply bool_decide_eq_true in Eu|apply bool_decide_eq_false in Eu];
         destruct (lowRisk cfg (trim resource));
         destruct (existsb (fun w => includes justification w) safe_terms);
         cbn [andb]; split; try tauto; try (intros Heq; inversion Heq; congruence);
         intros (? & ? & ?); congruence. }
  - rewrite Hafter. unfold scan_row.
    destruct (fetched_pending d req && auto_approvable cfg req); auto.
  - intros Happroved. apply Honly in Happroved.
    unfold auto_approvable in Happroved. apply andb_true_iff in Happroved.
    destruct Happroved as [Hlow Hsafe]. split; [exact Hlow|].
    unfold safeWords in Hsafe. apply existsb_exists in Hsafe. exact Hsafe.
  - intros Happroved. apply Honly in Happroved.
    unfold auto_approvable in Happroved. apply andb_true_iff in Happroved.
    apply listed_low_risk_rated_low. tauto.
  - intros Huser Hlow Hroutine. split; [|reflexivity].
    rewrite Hafter. unfold scan_row.
    replace (fetched_pending d req) with true.
    + replace (auto_approvable cfg req) with true; [reflexivity|].
      symmetry. unfold auto_approvable. apply andb_true_iff. split; [exact Hlow|].
      unfold safeWords. apply existsb_exists. exists "routine".
      split; [cbn; tauto|exact Hroutine].
    + symmetry. unfold fetched_pending. rewrite Hpending.
      apply andb_true_iff. split; [now apply bool_decide_eq_true|reflexivity].
  - intros Hhigh. rewrite Hafter. unfold scan_row.
    replace (auto_approvable default_config req) with false;
      [now rewrite andb_false_r|].
    symmetry. unfold auto_approvable.
    destruct (lowRisk default_config (trim (or_default (resource_name req) ""))) eqn:E;
      [|reflexivity].
    apply listed_low_risk_rated_low in E. fold resource in E. congruence.
  - apply listed_high_risk_rated_high.
Qed.

End ApprovalFacts.

Section ApprovalInstances.
Import Store AgentService.

Lemma sample_store_request_ids : List.NoDup (map ar_id (access_requests sample_store)).
Proof.
  cbn. repeat (constructor; [cbn; intuition discriminate|]). constructor.
Defined.

(** C6, as stated, fails: a low assessed risk and a marker term do not
    suffice. The only request of [store_figma_request] is pending, its user
    exists, its resource "figma" is an entry of the low-risk list of the
    risk assessment and is assessed low, and its justification contains
    "routine"; the scan approves nothing and leaves it pending, because
    the scan's own list holds "Figma". *)
Lemma low_risk_request_stays_pending :
  option_map resource_name (request_by_id 12 store_figma_request)
  = Some (Some "figma") /\
  option_map (fetched_pending store_figma_request)
    (request_by_id 12 store_figma_request) = Some true /\
  In "figma" AccessRisk.lowRiskResources /\
  AccessRisk.assessAccessRisk "figma" = AccessRisk.Low /\
  includes (toLowerCase "routine design review") "routine" = true /\
  approved (fst (scanAccessRequests (fun l => l) default_config sample_now
                   store_figma_request)) = 0%nat /\
  option_map ar_status
    (request_by_id 12
       (snd (scanAccessRequests (fun l => l) default_config sample_now
               store_figma_request)))
  = Some (Some "pending").
Proof.
  repeat split; try (vm_compute; reflexivity).
  cbn. tauto.
Qed.

Lemma scanAccessRequests_auto_approval_witness :
  option_map ar_status
    (request_by_id 10
       (snd (scanAccessRequests (fun l => l) default_config sample_now sample_store)))
  = Some (Some "approved") /\
  option_map ar_status
    (request_by_id 11
       (snd (scanAccessRequests (fun l => l) default_config sample_now sample_store)))
  = Some (Some "pending").
Proof.
  split.
  - destruct (scanAccessRequests_auto_approval (fun l => l) (fun l => Permutation_refl l)
                default_config sample_now sample_store
                (AccessRequest 10 1 (Some " Figma ") (Some "read")
                   (Some "Routine design review") (Some "pending") None DtNull None
                   (DtTime sample_now))
                sample_store_request_ids (or_introl eq_refl) eq_refl)
      as (_ & _ & _ & Happroved & _).
    destruct Happroved as [Hres _].
    + vm_compute. reflexivity.
    + reflexivity.
    + reflexivity.
    + cbn [ar_id] in Hres. rewrite Hres. reflexivity.
  - destruct (scanAccessRequests_auto_approval (fun l => l) (fun l => Permutation_refl l)
                default_config sample_now sample_store
                (AccessRequest 11 1 (Some "AWS") (Some "admin")
                   (Some "routine team standard daily") (Some "pending") None DtNull None
                   (DtTime sample_now))
                sample_store_request_ids (or_intror (or_introl eq_refl)) eq_refl)
      as (_ & _ & _ & _ & Hhigh & _).
    cbn [ar_id] in Hhigh. rewrite Hhigh; reflexivity.
Defined.

End ApprovalInstances.

(** ** Intent detection *)

Section DetectionFacts.
Import Regex IntentDetector.

Variable message : string.

Lemma check_patterns_first_match (ps : list regex) (score : Q) :
  check_patterns message ps score None
  = match first_match message ps with
    | Some g => ((score + 0.6)%Q, if truthy g then option_map trim g else None)
    | None => (score, None)
    end.
Proof.
  induction ps as [|p ps IH]; cbn [check_patterns first_match]; [reflexivity|].
  destruct (js_match message p); [reflexivity|exact IH].
Qed.

Lemma score_intent_total (d : intent_data) :
  keywords d <> [] ->
  exists score,
    score_intent message (toLowerCase message) d
    = Some (score, entity_trimmed message d) /\
    (score == total_score message d)%Q.
Proof.
  intros Hk. unfold score_intent. destruct (keywords d) as [|kw kws] eqn:E; [congruence|].
  rewrite check_patterns_first_match.
  unfold entity_trimmed, total_score, patternScore, keywordScore, keywordMatches.
  rewrite E.
  destruct (first_match message (patterns d)) as [[[|c g]|]|];
    eexists; (split; [reflexivity|cbn [truthy option_map]; ring]).
Qed.

Lemma exceeds_true (score best : Q) : exceeds score best = true <-> (best < score)%Q.
Proof.
  unfold exceeds. rewrite negb_true_iff. split.
  - intros H. apply Qnot_le_lt. intros Hle. apply Qle_bool_iff in Hle. congruence.
  - intros H. destruct (Qle_bool score best) eqn:E; [|reflexivity].
    apply Qle_bool_iff in E. exfalso. apply (Qlt_not_le _ _ H E).
Qed.

Lemma exceeds_false (score best : Q) : exceeds score best = false <-> (score <= best)%Q.
Proof.
  unfold exceeds. rewrite negb_false_iff. apply Qle_bool_iff.
Qed.

(** Entries that do not exceed the running best leave it in place. *)
Lemma fold_detect_no_better (table : list (string * intent_data)) (best : detection) :
  Forall has_keywords table ->
  (forall x, In x table -> (total_score message (snd x) <= confidence best)%Q) ->
  fold_left (detect_step message (toLowerCase message)) table best = best.
Proof.
  revert best. induction table as [|[n d] table IH]; intros best Hk Hle; [reflexivity|].
  apply Forall_cons_iff in Hk. destruct Hk as [Hd Hk].
  cbn [fold_left detect_step].
  destruct (score_intent_total d Hd) as (score & -> & Hscore).
  replace (exceeds score (confidence best)) with false.
  - apply IH; [exact Hk|]. intros x Hx. apply Hle. right. exact Hx.
  - symmetry. apply exceeds_false. rewrite Hscore. apply (Hle (n, d)). left. reflexivity.
Qed.

(** Entries scoring below a bound keep the running best below it. *)
Lemma fold_detect_below (table : list (string * intent_data)) (best : detection) (bound : Q) :
  Forall has_keywords table ->
  (confidence best < bound)%Q ->
  (forall x, In x table -> (total_score message (snd x) < bound)%Q) ->
  (confidence (fold_left (detect_step message (toLowerCase message)) table best)
   < bound)%Q.
Proof.
  revert best. induction table as [|[n d] table IH]; intros best Hk Hb Hlt; [exact Hb|].
  apply Forall_cons_iff in Hk. destruct Hk as [Hd Hk].
  cbn [fold_left detect_step].
  destruct (score_intent_total d Hd) as (score & -> & Hscore).
  assert (Hrest : forall x, In x table -> (total_score message (snd x) < bound)%Q)
    by (intros x Hx; apply Hlt; right; exact Hx).
  destruct (exceeds score (confidence best)); apply IH; auto.
  cbn [confidence]. rewrite Hscore. apply (Hlt (n, d)). left. reflexivity.
Qed.

(** The first entry with the maximal, positive total wins. *)
Lemma detect_in_winner (before after : list (string * intent_data))
  (name : string) (d : intent_data) :
  Forall has_keywords (before ++ (name, d) :: after) ->
  (0 < total_score message d)%Q ->
  (forall x, In x before -> (total_score message (snd x) < total_score message d)%Q) ->
  (forall x, In x after -> (total_score message (snd x) <= total_score message d)%Q) ->
  exists score,
    detect_in (before ++ (name, d) :: after) message
    = Detection name score (entity_trimmed message d) /\
    (score == total_score message d)%Q.
Proof.
  intros Hk Hpos Hbefore Hafter.
  apply Forall_app in Hk. destruct Hk as [Hkb Hk].
  apply Forall_cons_iff in Hk. destruct Hk as [Hd Hka].
  unfold detect_in. rewrite fold_left_app. cbn [fold_left].
  set (best := fold_left (detect_step message (toLowerCase message)) before unknown).
  assert (Hbest : (confidence best < total_score message d)%Q)
    by (apply fold_detect_below; auto).
  unfold detect_step at 2.
  destruct (score_intent_total d Hd) as (score & -> & Hscore).
  replace (exceeds score (confidence best)) with true
    by (symmetry; apply exceeds_true; now rewrite Hscore).
  exists score. split; [|exact Hscore].
  apply fold_detect_no_better; [exact Hka|].
  intros x Hx. cbn [confidence]. rewrite Hscore. now apply Hafter.
Qed.

Lemma detect_in_unknown (table : list (string * intent_data)) :
  Forall has_keywords table ->
  (forall x, In x table -> (total_score message (snd x) <= 0)%Q) ->
  detect_in table message = unknown.
Proof.
  intros Hk Hle. unfold detect_in. now apply fold_detect_no_better.
Qed.

Lemma non_matching_total (d : intent_data) :
  non_matching message d -> (total_score message d == 0)%Q.
Proof.
  intros [Hkw Hpat]. unfold total_score, keywordScore, patternScore.
  rewrite Hkw, Hpat. cbn [List.length Z.of_nat]. unfold Qdiv. ring.
Qed.

End DetectionFacts.

(** Either no entry scores above [floor], or some entry scores above it,
    strictly above every earlier entry and at least as high as every later
    one. *)
Lemma first_maximum {X : Type} (f : X -> Q) (floor : Q) (l : list X) :
  (forall x, In x l -> (f x <= floor)%Q) \/
  (exists before x after,
     l = (before ++ x :: after)%list /\ (floor < f x)%Q /\
     (forall y, In y before -> (f y < f x)%Q) /\
     (forall y, In y after -> (f y <= f x)%Q)).
Proof.
  induction l as [|a l IH].
  - left. intros x [].
  - destruct IH as [Hall|(before & x & after & -> & Hx & Hb & Ha)].
    + destruct (Qlt_le_dec floor (f a)) as [Hlt|Hle].
      * right. exists [], a, l. repeat split; auto.
        -- intros y [].
        -- intros y Hy. apply Qle_trans with floor; [now apply Hall|].
           now apply Qlt_le_weak.
      * left. intros y [<-|Hy]; auto.
    + right. destruct (Qlt_le_dec (f a) (f x)) as [Hlt|Hle].
      * exists (a :: before), x, after. repeat split; auto.
        intros y [<-|Hy]; auto.
      * exists [], a, (before ++ x :: after)%list. repeat split.
        -- apply Qlt_le_trans with (f x); assumption.
        -- intros y [].
        -- intros y Hy. apply in_app_or in Hy. destruct Hy as [Hy|[<-|Hy]].
           ++ apply Qle_trans with (f x); [|exact Hle].
              apply Qlt_le_weak. now apply Hb.
           ++ exact Hle.
           ++ apply Qle_trans with (f x); [|exact Hle]. now apply Ha.
Qed.

Section DetectionClaims.
Import Regex IntentDetector.

Lemma intents_have_keywords : Forall has_keywords intents.
Proof. repeat constructor; discriminate. Qed.

(** C2, as stated, fails: the entity is not the capture group itself. On
    "I need access to Figma " (with a trailing space) the first pattern of
    access_request captures "Figma " and the detection holds "Figma". *)
Lemma detect_entity_is_not_the_capture_group :
  intent (detect "I need access to Figma ") = "access_request" /\
  entity_as_stated "I need access to Figma " access_request = Some "Figma " /\
  entities (detect "I need access to Figma ") = Some "Figma" /\
  entities (detect "I need access to Figma ")
  <> entity_as_stated "I need access to Figma " access_request.
Proof.
  vm_compute. repeat split. discriminate.
Qed.

(** C2, amended. With the total of a definition being (keywords present in
    the lowercased message / keywords) x 0.4, plus 0.6 when one of its
    patterns matches, times its base confidence, [detect] answers for every
    message either "unknown" with confidence 0 and no entity, when no total
    is positive, or the first definition whose total is positive, strictly
    above every earlier total and not below any later one, with that total
    as confidence; its entity is the first capture group of the first
    matching pattern, trimmed of surrounding white space, when that group
    is present and non-empty. A message that no keyword and no pattern of
    any definition matches, the empty message among them, is "unknown". *)
Theorem detect_characterisation (message : string) :
  (((forall x, In x intents -> (total_score message (snd x) <= 0)%Q) /\
    detect message = unknown)
   \/
   (exists before name d after,
      intents = (before ++ (name, d) :: after)%list /\
      (0 < total_score message d)%Q /\
      (forall x, In x before -> (total_score message (snd x) < total_score message d)%Q) /\
      (forall x, In x after -> (total_score message (snd x) <= total_score message d)%Q) /\
      intent (detect message) = name /\
      (confidence (detect message) == total_score message d)%Q /\
      entities (detect message) = entity_trimmed message d)) /\
  ((forall x, In x intents -> non_matching message (snd x)) ->
   detect message = unknown) /\
  detect "" = unknown.
Proof.
  split; [|split].
  - destruct (first_maximum (fun x => total_score message (snd x)) 0 intents)
      as [Hall|(before & [name d] & after & Hsplit & Hpos & Hb & Ha)].
    + left. split; [exact Hall|].
      apply detect_in_unknown; [exact intents_have_keywords|exact Hall].
    + right. exists before, name, d, after. cbn [snd] in *.
      destruct (detect_in_winner message before after name d) as (score & Hdet & Hscore);
        auto.
      { rewrite <- Hsplit. exact intents_have_keywords. }
      unfold detect. rewrite Hsplit, Hdet. cbn [intent confidence entities].
      repeat split; auto.
  - intros Hnone. apply detect_in_unknown; [exact intents_have_keywords|].
    intros x Hx. rewrite non_matching_total by now apply Hnone.
    apply Qle_refl.
  - vm_compute. reflexivity.
Qed.

End DetectionClaims.

(** * Further properties *)

(** ** The routing log *)

Section RoutingLogFacts.
Import Agents AgentTriageRouter RouterOps.

Lemma newest_app {A : Type} (n : nat) (l1 l2 : list A) :
  skipn (List.length (skipn (List.length l1 - n) l1 ++ l2) - n)
    (skipn (List.length l1 - n) l1 ++ l2)%list
  = skipn (List.length (l1 ++ l2) - n) (l1 ++ l2)%list.
Proof.
  rewrite !length_app, length_skipn.
  destruct (Nat.le_gt_cases (List.length l1) n) as [Hle|Hgt].
  - replace (List.length l1 - n)%nat with 0%nat by lia. simpl.
    now rewrite Nat.sub_0_r.
  - replace (List.length l1 - (List.length l1 - n) + List.length l2 - n)%nat
      with (List.length l2) by lia.
    replace (List.length l1 + List.length l2 - n)%nat
      with (List.length l2 + (List.length l1 - n))%nat by lia.
    rewrite <- skipn_skipn. f_equal.
    rewrite skipn_app.
    replace (List.length l1 - n - List.length l1)%nat with 0%nat by lia.
    reflexivity.
Qed.

Lemma logRouting_newest (history : list routing_data) (entry : routing_data) :
  (List.length history <= 100)%nat ->
  logRouting history entry
  = skipn (List.length (history ++ [entry]) - 100) (history ++ [entry])%list.
Proof.
  intros Hlen. unfold logRouting. rewrite length_app. cbn [List.length].
  destruct (100 <? List.length history + 1)%nat eqn:E.
  - apply Nat.ltb_lt in E.
    replace (List.length history + 1 - 100)%nat with 1%nat by lia.
    reflexivity.
  - apply Nat.ltb_ge in E.
    replace (List.length history + 1 - 100)%nat with 0%nat by lia.
    reflexivity.
Qed.

Lemma logRouting_length (history : list routing_data) (entry : routing_data) :
  (List.length history <= 100)%nat ->
  (List.length (logRouting history entry) <= 100)%nat.
Proof.
  intros Hlen. rewrite logRouting_newest by exact Hlen.
  rewrite length_skipn, length_app. cbn [List.length]. lia.
Qed.

Lemma route_history (r : router) (input : string) (ctx : context) (t0 t1 : Z) :
  registry (snd (route r input ctx t0 t1)) = registry r /\
  fallbackAgent (snd (route r input ctx t0 t1)) = fallbackAgent r /\
  cfg (snd (route r input ctx t0 t1)) = cfg r /\
  if route_success (fst (route r input ctx t0 t1))
  then exists entry,
         log_input entry = input /\
         routingHistory (snd (route r input ctx t0 t1))
         = logRouting (routingHistory r) entry
  else snd (route r input ctx t0 t1) = r.
Proof.
  unfold route. destruct (attempt r (analyzeRouting r input ctx) input ctx);
    cbn [fst snd route_success registry fallbackAgent cfg routingHistory].
  - split; [reflexivity|]. split; [reflexivity|]. split; [reflexivity|].
    eexists. split; [|reflexivity]. reflexivity.
  - repeat split.
Qed.

Lemma answered_frame (r r' : router) (c : call) :
  registry r' = registry r -> fallbackAgent r' = fallbackAgent r -> cfg r' = cfg r ->
  answered r' c = answered r c.
Proof.
  intros Hreg Hfall Hcfg. unfold answered, route, attempt, analyzeRouting.
  rewrite Hreg, Hfall, Hcfg.
  match goal with
  | |- route_success (fst (match ?x with _ => _ end))
       = route_success (fst (match ?x with _ => _ end)) => destruct x
  end; reflexivity.
Qed.

Lemma serve_inputs (calls : list call) (r : router) :
  (List.length (routingHistory r) <= 100)%nat ->
  let logged :=
    (map log_input (routingHistory r)
     ++ map call_input (List.filter (answered r) calls))%list in
  map log_input (routingHistory (serve r calls))
  = skipn (List.length logged - 100) logged.
Proof.
  revert r. induction calls as [|c calls IH]; intros r Hlen logged; subst logged.
  - cbn [serve fold_left map List.filter]. rewrite app_nil_r, length_map.
    replace (List.length (routingHistory r) - 100)%nat with 0%nat by lia.
    reflexivity.
  - change (serve r (c :: calls))
      with (serve (snd (route r (call_input c) (call_context c)
                          (call_start c) (call_end c))) calls).
    destruct (route_history r (call_input c) (call_context c)
                (call_start c) (call_end c)) as (Hreg & Hfall & Hcfg & Hhist).
    cbn [List.filter]. fold (answered r c) in Hhist.
    destruct (answered r c).
    + destruct Hhist as (entry & Hin & Hhist).
      cbv zeta in IH. rewrite IH
        by (rewrite Hhist; apply logRouting_length; exact Hlen).
      rewrite (filter_ext _ (answered r))
        by (intros x; now apply answered_frame).
      rewrite Hhist, logRouting_newest by exact Hlen.
      rewrite <- (length_map log_input (routingHistory r ++ [entry])%list).
      rewrite <- skipn_map, map_app. cbn [map]. rewrite Hin.
      rewrite newest_app. rewrite <- app_assoc. reflexivity.
    + rewrite Hhist. now apply IH.
Qed.

(** X1. The routing log is a window over the last 100 answered calls: after
    any sequence of [route] calls on a freshly built router the log has
    min(number of calls answered with success, 100) entries, and their
    inputs are those of the most recent such calls, oldest first. A call
    answered with [success: false] leaves no entry. *)
Theorem serve_log_window (m : models) (c : config) (calls : list call) :
  let r := serve (new_router m c) calls in
  let logged := List.filter (answered (new_router m c)) calls in
  List.length (routingHistory r) = Nat.min (List.length logged) 100 /\
  map log_input (routingHistory r)
  = skipn (List.length logged - 100) (map call_input logged).
Proof.
  intros r logged. subst r logged.
  assert (H := serve_inputs calls (new_router m c)).
  cbn [new_router routingHistory map app List.length] in H.
  specialize (H (Nat.le_0_l _)). cbv zeta in H.
  change (Router _ _ [] c) with (new_router m c) in H.
  rewrite length_map in H. split; [|exact H].
  rewrite <- (length_map log_input), H, length_skipn, length_map. lia.
Qed.

End RoutingLogFacts.

(** ** Candidates and selection *)

Section SelectionFacts.
Import Agents AgentTriageRouter RouterOps.

Lemma insert_desc_perm (x : candidate) (l : list candidate) :
  Permutation (insert_desc x l) (x :: l).
Proof.
  induction l as [|y l IH]; cbn [insert_desc]; [reflexivity|].
  destruct (Qle_bool (confidence y) (confidence x)); [reflexivity|].
  rewrite IH. apply perm_swap.
Qed.

Lemma sort_desc_perm (l : list candidate) : Permutation (sort_desc l) l.
Proof.
  induction l as [|x l IH]; cbn [sort_desc]; [reflexivity|].
  rewrite insert_desc_perm. now constructor.
Qed.

Lemma insert_desc_sorted (x : candidate) (l : list candidate) :
  StronglySorted descending l -> StronglySorted descending (insert_desc x l).
Proof.
  induction l as [|y l IH]; intros Hs; cbn [insert_desc].
  - repeat constructor.
  - apply StronglySorted_inv in Hs. destruct Hs as [Hs Hy].
    destruct (Qle_bool (confidence y) (confidence x)) eqn:E.
    + apply Qle_bool_iff in E. constructor.
      * now constructor.
      * constructor; [exact E|].
        eapply List.Forall_impl; [|exact Hy]. intros z Hz. unfold descending in *.
        eapply Qle_trans; eassumption.
    + assert (Hlt : (confidence x < confidence y)%Q).
      { apply Qnot_le_lt. intros H. apply Qle_bool_iff in H. congruence. }
      constructor; [now apply IH|].
      eapply Permutation_Forall; [symmetry; apply insert_desc_perm|].
      constructor; [now apply Qlt_le_weak|exact Hy].
Qed.

Lemma sort_desc_sorted (l : list candidate) :
  StronglySorted descending (sort_desc l).
Proof.
  induction l as [|x l IH]; cbn [sort_desc]; [constructor|].
  now apply insert_desc_sorted.
Qed.

Lemma insert_desc_ties (q : Q) (x : candidate) (l : list candidate) :
  List.filter (fun c => Qeq_bool (confidence c) q) (insert_desc x l)
  = List.filter (fun c => Qeq_bool (confidence c) q) (x :: l).
Proof.
  induction l as [|y l IH]; cbn [insert_desc]; [reflexivity|].
  destruct (Qle_bool (confidence y) (confidence x)) eqn:E; [reflexivity|].
  cbn [List.filter] in *. rewrite IH.
  destruct (Qeq_bool (confidence x) q) eqn:Ex;
    destruct (Qeq_bool (confidence y) q) eqn:Ey; try reflexivity.
  apply Qeq_bool_iff in Ex. apply Qeq_bool_iff in Ey.
  assert (H : Qle_bool (confidence y) (confidence x) = true)
    by (apply Qle_bool_iff; rewrite Ex, Ey; apply Qle_refl).
  congruence.
Qed.

Lemma sort_desc_ties (q : Q) (l : list candidate) :
  List.filter (fun c => Qeq_bool (confidence c) q) (sort_desc l)
  = List.filter (fun c => Qeq_bool (confidence c) q) l.
Proof.
  induction l as [|x l IH]; cbn [sort_desc]; [reflexivity|].
  rewrite insert_desc_ties. cbn [List.filter]. now rewrite IH.
Qed.

Lemma collect_candidates_In (c : config) (registered : list agent)
  (input : string) (ctx : context) (x : candidate) :
  In x (collect_candidates c registered input ctx) <->
  In (cand_agent x) registered /\
  canHandle (cand_agent x) input ctx = true /\
  confidence x = calculateConfidence (cand_agent x) input ctx /\
  reaches (confidence x) (confidenceThreshold c) = true.
Proof.
  destruct x as [xa xc]. cbn [cand_agent confidence].
  induction registered as [|a registered IH]; cbn [collect_candidates In].
  - tauto.
  - destruct (canHandle a input ctx
              && reaches (calculateConfidence a input ctx) (confidenceThreshold c))
      eqn:E.
    + apply andb_true_iff in E. destruct E as [Ecan Ereach].
      cbn [In]. rewrite IH. split.
      * intros [H|H]; [|tauto]. inversion H; subst. tauto.
      * intros ([Heq|Hin] & Hcan & Hconf & Hreach).
        -- left. now subst.
        -- right. tauto.
    + rewrite IH. split; [tauto|].
      intros ([Heq|Hin] & Hcan & Hconf & Hreach); [|tauto].
      subst. rewrite Hcan, Hreach in E. discriminate E.
Qed.

Lemma candidates_In (r : router) (input : string) (ctx : context) (x : candidate) :
  In x (candidates (analyzeRouting r input ctx)) <->
  In (cand_agent x) (registry r) /\
  canHandle (cand_agent x) input ctx = true /\
  confidence x = calculateConfidence (cand_agent x) input ctx /\
  reaches (confidence x) (confidenceThreshold (cfg r)) = true.
Proof.
  cbn [analyzeRouting candidates]. rewrite <- collect_candidates_In.
  split; apply Permutation_in;
    [apply sort_desc_perm | symmetry; apply sort_desc_perm].
Qed.

Lemma sorted_app_le (l1 l2 : list candidate) :
  StronglySorted descending (l1 ++ l2) ->
  forall a b, In a l1 -> In b l2 -> descending a b.
Proof.
  induction l1 as [|x l1 IH]; intros Hs a b Ha Hb; [destruct Ha|].
  cbn [app] in Hs. apply StronglySorted_inv in Hs. destruct Hs as [Hs Hx].
  destruct Ha as [<-|Ha].
  - rewrite List.Forall_forall in Hx. apply Hx. apply in_or_app. now right.
  - now apply IH.
Qed.

Lemma slice0_prefix {A : Type} (l : list A) (n : Z) :
  exists k, slice0 l n = firstn k l /\ ((0 <= n)%Z -> k = Z.to_nat n).
Proof.
  unfold slice0. destruct (n <? 0)%Z eqn:E.
  - eexists. split; [reflexivity|]. apply Z.ltb_lt in E. lia.
  - eexists. split; reflexivity.
Qed.

(** X2. The candidates of a routing decision are the capable agents at or
    above the threshold, each once per registration, ordered by descending
    confidence; candidates of equal confidence keep their registration
    order. *)
Theorem analyzeRouting_candidates_ordered
  (r : router) (input : string) (ctx : context) :
  let found := collect_candidates (cfg r) (registry r) input ctx in
  let ranked := candidates (analyzeRouting r input ctx) in
  StronglySorted (fun a b => (confidence b <= confidence a)%Q) ranked /\
  Permutation ranked found /\
  (forall q,
     List.filter (fun c => Qeq_bool (confidence c) q) ranked
     = List.filter (fun c => Qeq_bool (confidence c) q) found) /\
  map cand_agent found
  = List.filter
      (fun a => canHandle a input ctx
                && reaches (calculateConfidence a input ctx)
                     (confidenceThreshold (cfg r)))
      (registry r).
Proof.
  intros found ranked. subst found ranked. cbn [analyzeRouting candidates].
  split; [apply sort_desc_sorted|]. split; [apply sort_desc_perm|].
  split; [intros q; apply sort_desc_ties|].
  induction (registry r) as [|a l IH]; cbn [collect_candidates List.filter map];
    [reflexivity|].
  destruct (canHandle a input ctx
            && reaches (calculateConfidence a input ctx)
                 (confidenceThreshold (cfg r)));
    cbn [map cand_agent]; now rewrite IH.
Qed.

(** X3. The agents a routing decision selects are a prefix of the ranked
    candidates (of length [maxAgents] when that is not negative), or the
    fallback agent alone when that prefix is empty. Hence every selected
    agent is the fallback or a registered agent that passed its capability
    test with a confidence at or above the threshold, and no candidate left
    out has a higher confidence than a selected one. *)
Theorem analyzeRouting_selects_top
  (r : router) (input : string) (ctx : context) :
  let decision := analyzeRouting r input ctx in
  exists k,
    ((0 <= maxAgents (cfg r))%Z -> k = Z.to_nat (maxAgents (cfg r))) /\
    agents decision
    = match firstn k (candidates decision) with
      | [] => [fallbackAgent r]
      | top => map cand_agent top
      end /\
    (forall a, In a (agents decision) ->
       a = fallbackAgent r \/
       (In a (registry r) /\ canHandle a input ctx = true /\
        (confidenceThreshold (cfg r) <= calculateConfidence a input ctx)%Q)) /\
    (forall chosen left_out,
       In chosen (firstn k (candidates decision)) ->
       In left_out (skipn k (candidates decision)) ->
       (confidence left_out <= confidence chosen)%Q).
Proof.
  intros decision.
  destruct (slice0_prefix (candidates decision) (maxAgents (cfg r)))
    as (k & Hk & Hk0).
  exists k. split; [exact Hk0|].
  assert (Hagents : agents decision
    = match firstn k (candidates decision) with
      | [] => [fallbackAgent r]
      | top => map cand_agent top
      end).
  { subst decision. cbn [analyzeRouting agents candidates] in *.
    rewrite Hk. destruct (firstn k _); reflexivity. }
  split; [exact Hagents|]. split.
  - intros a Ha. rewrite Hagents in Ha.
    destruct (firstn k (candidates decision)) as [|c0 top] eqn:E.
    + left. destruct Ha as [<-|[]]. reflexivity.
    + right. apply in_map_iff in Ha. destruct Ha as (x & <- & Hx).
      assert (Hin : In x (candidates decision)).
      { rewrite <- (firstn_skipn k). apply in_or_app. left. now rewrite E. }
      apply candidates_In in Hin. destruct Hin as (H1 & H2 & H3 & H4).
      split; [exact H1|]. split; [exact H2|].
      rewrite <- H3. now apply Qle_bool_iff.
  - intros chosen left_out Hc Hl.
    apply (sorted_app_le (firstn k (candidates decision))
             (skipn k (candidates decision))); try assumption.
    rewrite firstn_skipn. subst decision. cbn [analyzeRouting candidates].
    apply sort_desc_sorted.
Qed.

End SelectionFacts.

(** ** Confidence against the default threshold *)

Section ThresholdFacts.
Import Agents AgentTriageRouter RouterOps.

Lemma getHistoricalSuccess_bounds (agentName : string) :
  (0.8 <= getHistoricalSuccess agentName <= 0.92)%Q.
Proof.
  unfold getHistoricalSuccess, successRates.
  repeat (rewrite lookup_insert; destruct (decide (_ = agentName)) as [_|_];
          [vm_compute; split; discriminate|]).
  rewrite lookup_empty. vm_compute; split; discriminate.
Qed.

Lemma calculateConfidence_raw (a : agent) (input : string) (ctx : context) :
  exists raw,
    calculateConfidence a input ctx = min_one raw /\
    (raw == 0.5 + inject_Z (Z.of_nat (countKeywordMatches a input)) * 0.1
            + (if priority_bonus a ctx then 0.3 else 0)
            + (if role_bonus a ctx then 0.4 else 0)
            + getHistoricalSuccess (name a) * 0.2)%Q.
Proof.
  unfold calculateConfidence, priority_bonus, role_bonus.
  destruct (is_text (priority ctx) "high" && String.eqb (name a) "EscalationAgent");
  destruct (is_text (userRole ctx) "new_hire" && String.eqb (name a) "OnboardingAgent");
  eexists; (split; [reflexivity|ring]).
Qed.

Lemma reaches_true (c t : Q) : (t <= c)%Q -> reaches c t = true.
Proof. intros H. now apply Qle_bool_iff. Qed.

Lemma reaches_false (c t : Q) : (c < t)%Q -> reaches c t = false.
Proof.
  intros H. apply not_true_is_false. intros E. apply Qle_bool_iff in E. lra.
Qed.

Lemma reaches_default (a : agent) (input : string) (ctx : context) (t : Q) :
  (t == 0.7)%Q ->
  reaches (calculateConfidence a input ctx) t
  = (0 <? countKeywordMatches a input)%nat
    || priority_bonus a ctx || role_bonus a ctx.
Proof.
  intros Ht.
  destruct (calculateConfidence_raw a input ctx) as (raw & -> & Hraw).
  assert (Hh := getHistoricalSuccess_bounds (name a)).
  destruct (0 <? countKeywordMatches a input)%nat eqn:Ek.
  - apply Nat.ltb_lt in Ek. apply (inject_nat_le 1) in Ek.
    change (inject_Z (Z.of_nat 1)) with 1%Q in Ek.
    cbn [orb]. apply reaches_true.
    destruct (min_one_spec raw) as [[? ->]|[? ->]];
      destruct (priority_bonus a ctx); destruct (role_bonus a ctx); lra.
  - apply Nat.ltb_ge in Ek.
    replace (countKeywordMatches a input) with 0%nat in Hraw by lia.
    change (inject_Z (Z.of_nat 0)) with 0%Q in Hraw.
    destruct (priority_bonus a ctx); destruct (role_bonus a ctx); cbn [orb];
      try (apply reaches_true; destruct (min_one_spec raw) as [[? ->]|[? ->]]; lra).
    apply reaches_false. destruct (min_one_spec raw) as [[? ->]|[? ->]]; lra.
Qed.

(** X4. Every routing confidence lies between 0.66 and 1. Against the
    default threshold 0.7 it decides as follows: an agent reaches the
    threshold exactly when one of the router's keywords for it occurs in
    the text or one of the two context bonuses applies to it; without
    either its confidence is at most 0.684. *)
Theorem calculateConfidence_range (a : agent) (input : string) (ctx : context) :
  let c := calculateConfidence a input ctx in
  let boosted :=
    (0 <? countKeywordMatches a input)%nat
    || priority_bonus a ctx || role_bonus a ctx in
  (0.66 <= c <= 1)%Q /\
  reaches c (confidenceThreshold default_config) = boosted /\
  (boosted = false -> (c <= 0.684)%Q) /\
  (boosted = true -> (0.76 <= c)%Q).
Proof.
  intros c boosted. subst c boosted.
  split; [|split; [apply reaches_default; reflexivity|split]].
  - destruct (calculateConfidence_raw a input ctx) as (raw & -> & Hraw).
    assert (Hh := getHistoricalSuccess_bounds (name a)).
    assert (Hk : (0 <= inject_Z (Z.of_nat (countKeywordMatches a input)))%Q)
      by (apply (inject_nat_le 0); lia).
    destruct (min_one_spec raw) as [[? ->]|[? ->]];
      destruct (priority_bonus a ctx); destruct (role_bonus a ctx); lra.
  - intros Hb. apply orb_false_iff in Hb. destruct Hb as [Hb Hr].
    apply orb_false_iff in Hb. destruct Hb as [Hk Hp].
    destruct (calculateConfidence_raw a input ctx) as (raw & -> & Hraw).
    assert (Hh := getHistoricalSuccess_bounds (name a)).
    rewrite Hp, Hr in Hraw. apply Nat.ltb_ge in Hk.
    replace (countKeywordMatches a input) with 0%nat in Hraw by lia.
    change (inject_Z (Z.of_nat 0)) with 0%Q in Hraw.
    destruct (min_one_spec raw) as [[? ->]|[? ->]]; lra.
  - intros Hb.
    destruct (calculateConfidence_raw a input ctx) as (raw & -> & Hraw).
    assert (Hh := getHistoricalSuccess_bounds (name a)).
    assert (Hk : (0 <= inject_Z (Z.of_nat (countKeywordMatches a input)))%Q)
      by (apply (inject_nat_le 0); lia).
    destruct (0 <? countKeywordMatches a input)%nat eqn:Ek.
    + apply Nat.ltb_lt in Ek. apply (inject_nat_le 1) in Ek.
      change (inject_Z (Z.of_nat 1)) with 1%Q in Ek.
      destruct (min_one_spec raw) as [[? ->]|[? ->]];
        destruct (priority_bonus a ctx); destruct (role_bonus a ctx); lra.
    + cbn [orb] in Hb.
      destruct (min_one_spec raw) as [[? ->]|[? ->]];
        destruct (priority_bonus a ctx); destruct (role_bonus a ctx);
        try discriminate Hb; lra.
Qed.

(** X5. With a threshold of 0.7 or more (the default and the server's
    setting are 0.7), a text in which no router keyword of any registered
    agent occurs, in a context that grants no bonus, has no candidate at
    all, whatever the capability tests answer: the decision is the fallback
    agent alone, with confidence 0.5. *)
Theorem analyzeRouting_no_keyword_fallback
  (r : router) (input : string) (ctx : context) :
  (0.7 <= confidenceThreshold (cfg r))%Q ->
  (forall a, In a (registry r) ->
     countKeywordMatches a input = 0%nat /\
     priority_bonus a ctx = false /\ role_bonus a ctx = false) ->
  let decision := analyzeRouting r input ctx in
  candidates decision = [] /\
  agents decision = [fallbackAgent r] /\
  decision_confidence decision = 0.5%Q.
Proof.
  intros Ht Hnone decision.
  assert (Hc : collect_candidates (cfg r) (registry r) input ctx = []).
  { apply collect_candidates_nil. intros a Ha.
    destruct (Hnone a Ha) as (Hk & Hp & Hr).
    apply andb_false_iff. right. apply reaches_false.
    destruct (calculateConfidence_raw a input ctx) as (raw & -> & Hraw).
    assert (Hh := getHistoricalSuccess_bounds (name a)).
    rewrite Hk, Hp, Hr in Hraw. change (inject_Z (Z.of_nat 0)) with 0%Q in Hraw.
    destruct (min_one_spec raw) as [[? ->]|[? ->]]; lra. }
  subst decision. unfold analyzeRouting. rewrite Hc.
  cbn [sort_desc candidates agents decision_confidence].
  repeat split. unfold slice0.
  destruct (maxAgents (cfg r) <? 0)%Z; rewrite firstn_nil; reflexivity.
Qed.

Lemma analyzeRouting_no_keyword_fallback_witness :
  agents (analyzeRouting sample_router "my laptop is broken" empty_context)
  = [fallbackAgent sample_router] /\
  ITSupportAgent_canHandle "my laptop is broken" empty_context = true.
Proof.
  split; [|reflexivity].
  apply (analyzeRouting_no_keyword_fallback sample_router
           "my laptop is broken" empty_context).
  - vm_compute. discriminate.
  - intros a Ha. cbn in Ha.
    repeat (destruct Ha as [<-|Ha]; [vm_compute; auto|]). destruct Ha.
Defined.

Lemma escalation_router_keywords :
  agentKeywords !! "EscalationAgent"
  = Some ["urgent"; "critical"; "emergency"; "escalate"; "production"; "outage"].
Proof. reflexivity. Qed.

Lemma escalation_keyword_capable (m : models) (input : string) (ctx : context) :
  (0 <? countKeywordMatches (EscalationAgent m) input)%nat = true ->
  canHandle (EscalationAgent m) input ctx = true.
Proof.
  unfold countKeywordMatches. cbn [EscalationAgent name canHandle].
  rewrite escalation_router_keywords. cbn [default from_option id].
  unfold EscalationAgent_canHandle, some_keyword, escalationKeywords.
  set (text := toLowerCase input). cbn [List.filter existsb].
  destruct (includes text "urgent"); [reflexivity|].
  destruct (includes text "critical"); [reflexivity|].
  destruct (includes text "emergency"); [reflexivity|].
  destruct (includes text "escalate"); [now rewrite ?orb_true_r|].
  destruct (includes text "production"); [now rewrite ?orb_true_r|].
  destruct (includes text "outage"); [now rewrite ?orb_true_r|].
  cbn [List.length Nat.ltb Nat.leb]. discriminate.
Qed.

(** X6. On a router built by the constructor with the default threshold,
    the escalation agent is a candidate exactly when one of the router's
    escalation keywords occurs in the text or the context priority is
    "high": its own capability test never excludes it then, and its other
    triggers (severity, elapsed time, its further keywords) never suffice.
    Under priority "high" it is a candidate with confidence at least
    0.984. *)
Theorem escalation_candidate_iff (m : models) (input : string) (ctx : context) :
  let decision := analyzeRouting (new_router m default_config) input ctx in
  let listed :=
    exists c, In c (candidates decision) /\ cand_agent c = EscalationAgent m in
  (listed <->
   (1 <= countKeywordMatches (EscalationAgent m) input)%nat \/
   priority ctx = Some "high") /\
  (priority ctx = Some "high" ->
   exists c, In c (candidates decision) /\ cand_agent c = EscalationAgent m /\
             (0.984 <= confidence c)%Q).
Proof.
  intros decision listed. subst decision listed.
  set (a := EscalationAgent m).
  assert (Hreach := reaches_default a input ctx 0.7 (Qeq_refl _)).
  assert (Hrole : role_bonus a ctx = false)
    by (unfold role_bonus; cbn; apply andb_false_r).
  assert (Hprio : priority_bonus a ctx = is_text (priority ctx) "high")
    by (unfold priority_bonus; cbn; apply andb_true_r).
  rewrite Hrole, Hprio, orb_false_r in Hreach.
  assert (Htext : is_text (priority ctx) "high" = true <-> priority ctx = Some "high").
  { unfold is_text. destruct (priority ctx) as [p|]; [|split; discriminate].
    rewrite String.eqb_eq. split; congruence. }
  assert (Hin : In a (registry (new_router m default_config))) by (left; reflexivity).
  assert (Hcand : forall c, cand_agent c = a ->
            (In c (candidates (analyzeRouting (new_router m default_config) input ctx))
             <-> confidence c = calculateConfidence a input ctx /\
                 ((1 <= countKeywordMatches a input)%nat \/ priority ctx = Some "high"))).
  { intros c Hc. rewrite candidates_In, Hc. cbn [cfg new_router default_config confidenceThreshold].
    split.
    - intros (_ & _ & Hconf & Hr). split; [exact Hconf|].
      rewrite Hconf, Hreach in Hr. apply orb_true_iff in Hr.
      destruct Hr as [Hr|Hr]; [left; now apply Nat.ltb_lt in Hr|right; now apply Htext].
    - intros (Hconf & Hor). split; [exact Hin|].
      assert (Hb : (0 <? countKeywordMatches a input)%nat
                   || is_text (priority ctx) "high" = true).
      { apply orb_true_iff. destruct Hor as [Hk|Hp];
          [left; now apply Nat.ltb_lt|right; now apply Htext]. }
      split; [|split; [exact Hconf|now rewrite Hconf, Hreach]].
      destruct (0 <? countKeywordMatches a input)%nat eqn:Ek.
      + now apply escalation_keyword_capable.
      + cbn [orb] in Hb. subst a. cbn [EscalationAgent canHandle].
        unfold EscalationAgent_canHandle. rewrite Hb.
        now rewrite ?orb_true_r. }
  split.
  - split.
    + intros (c & Hc & Hca). now apply (Hcand c Hca).
    + intros Hor. exists (Candidate a (calculateConfidence a input ctx)).
      split; [|reflexivity]. apply Hcand; [reflexivity|]. now split.
  - intros Hp. exists (Candidate a (calculateConfidence a input ctx)).
    split; [apply Hcand; [reflexivity|split; [reflexivity|now right]]|].
    split; [reflexivity|]. cbn [confidence].
    destruct (calculateConfidence_raw a input ctx) as (raw & -> & Hraw).
    rewrite Hrole, Hprio in Hraw. apply Htext in Hp. rewrite Hp in Hraw.
    replace (getHistoricalSuccess (name a)) with 0.92%Q in Hraw
      by (vm_compute; reflexivity).
    assert (Hk : (0 <= inject_Z (Z.of_nat (countKeywordMatches a input)))%Q)
      by (apply (inject_nat_le 0); lia).
    destruct (min_one_spec raw) as [[? ->]|[? ->]]; lra.
Qed.

End ThresholdFacts.

(** ** Dispatch *)

Section DispatchFacts.
Import Agents AgentTriageRouter RouterOps.






End DispatchFacts.

(** ** Analytics *)

Section UsageFacts.
Import Agents AgentTriageRouter RouterOps.

Lemma count_usage_lookup (usage : gmap string nat) (rs : list result) (n : string) :
  fold_left count_usage rs usage !! n
  = match List.length (List.filter (fun res => String.eqb (agent_of res) n) rs) with
    | O => usage !! n
    | S k => Some (default 0%nat (usage !! n) + S k)%nat
    end.
Proof.
  revert usage. induction rs as [|res rs IH]; intros usage; [reflexivity|].
  cbn [fold_left List.filter]. rewrite IH. unfold count_usage.
  rewrite lookup_insert.
  destruct (String.eqb_spec (agent_of res) n) as [Heq|Hne].
  - destruct (decide (agent_of res = n)) as [_|Hn]; [|contradiction].
    rewrite Heq. cbn [List.length default from_option id].
    destruct (List.length _); f_equal; lia.
  - destruct (decide (agent_of res = n)) as [Hn|_]; [contradiction|].
    reflexivity.
Qed.

Lemma fold_usage_concat (history : list routing_data) (usage : gmap string nat) :
  fold_left (fun usage e => fold_left count_usage (results e) usage) history usage
  = fold_left count_usage (concat (map results history)) usage.
Proof.
  revert usage. induction history as [|e history IH]; intros usage; [reflexivity|].
  cbn [fold_left map concat]. rewrite fold_left_app. apply IH.
Qed.

Lemma filter_all_length {A : Type} (f : A -> bool) (l : list A) :
  List.length (List.filter f l) = List.length l <-> forallb f l = true.
Proof.
  induction l as [|x l IH]; cbn [List.filter forallb List.length]; [tauto|].
  assert (Hle := filter_length_le f l).
  destruct (f x); cbn [List.length andb].
  - rewrite <- IH. lia.
  - split; [lia|discriminate].
Qed.

(** X9. In the analytics of a non-empty log, [agentUsage] counts for every
    agent name the results of that agent over all logged calls, and has no
    entry for a name without results; [successRate] lies between 0 and 1
    and is 1 exactly when every logged call had only successful results;
    [recentRoutings] are the last min(10, total) entries of the log. *)
Theorem getRoutingAnalytics_counts (r : router) (a : analytics) :
  getRoutingAnalytics r = Full a ->
  (forall agentName,
     agentUsage a !! agentName
     = match appearances agentName (routingHistory r) with
       | O => None
       | S k => Some (S k)
       end) /\
  (exists rate,
     successRate a = Some rate /\ (0 <= rate <= 1)%Q /\
     ((rate == 1)%Q <->
      forall e, In e (routingHistory r) -> forallb success (results e) = true)) /\
  List.length (recentRoutings a) = Nat.min 10 (total a) /\
  (exists older, routingHistory r = (older ++ recentRoutings a)%list).
Proof.
  unfold getRoutingAnalytics.
  destruct (List.length (routingHistory r) =? 0)%nat eqn:E; [discriminate|].
  apply Nat.eqb_neq in E. intros H. inversion H as [Ha]. clear H Ha.
  cbn [agentUsage successRate recentRoutings total].
  set (history := routingHistory r) in *.
  set (n := List.length history) in *.
  assert (Hn : (0 < inject_Z (Z.of_nat n))%Q).
  { change 0%Q with (inject_Z 0). rewrite <- Zlt_Qlt. lia. }
  assert (Hn0 : ~ (inject_Z (Z.of_nat n) == 0)%Q)
    by (apply Qnot_eq_sym, Qlt_not_eq; exact Hn).
  split; [|split; [|split]].
  - intros agentName. rewrite fold_usage_concat, count_usage_lookup.
    unfold appearances. fold history. rewrite lookup_empty.
    destruct (List.length _); f_equal.
  - unfold js_div.
    replace (Qeq_bool (inject_Z (Z.of_nat n)) 0) with false.
    2:{ symmetry. apply not_true_is_false. intros Hq. now apply Qeq_bool_iff in Hq. }
    eexists. split; [reflexivity|].
    set (k := List.length (List.filter all_succeeded history)).
    assert (Hk : (k <= n)%nat) by apply filter_length_le.
    assert (Hk0 : (0 <= inject_Z (Z.of_nat k))%Q) by (apply (inject_nat_le 0); lia).
    assert (Hkn := inject_nat_le k n Hk).
    split; [split|].
    + apply Qle_shift_div_l; [exact Hn|]. now rewrite Qmult_0_l.
    + apply Qle_shift_div_r; [exact Hn|]. now rewrite Qmult_1_l.
    + rewrite <- (forallb_forall all_succeeded history).
      rewrite <- filter_all_length. fold k. fold n. split.
      * intros Hq.
        assert (Hq' : (inject_Z (Z.of_nat k) == inject_Z (Z.of_nat n))%Q).
        { rewrite <- (Qmult_1_l (inject_Z (Z.of_nat n))), <- Hq.
          field. exact Hn0. }
        apply (proj1 (inject_Z_injective _ _)) in Hq'. now apply Nat2Z.inj in Hq'.
      * intros Heq. rewrite Heq. field. exact Hn0.
  - unfold last10. fold n. rewrite length_skipn. fold n. lia.
  - exists (firstn (n - 10) history). unfold last10. fold n.
    now rewrite firstn_skipn.
Qed.

Lemma getRoutingAnalytics_counts_witness :
  exists a,
    getRoutingAnalytics sample_served = Full a /\
    agentUsage a !! "EscalationAgent" = Some 1%nat /\
    agentUsage a !! "OnboardingAgent" = None.
Proof.
  assert (Hlen : (List.length (routingHistory sample_served) =? 0)%nat = false)
    by (vm_compute; reflexivity).
  eassert (H : getRoutingAnalytics sample_served = Full _).
  { unfold getRoutingAnalytics. cbv zeta. rewrite Hlen. reflexivity. }
  eexists. split; [exact H|].
  destruct (getRoutingAnalytics_counts _ _ H) as (Husage & _).
  rewrite !Husage. split; vm_compute; reflexivity.
Defined.

End UsageFacts.

(** ** Range of the detector *)

Section DetectionRange.
Import Regex IntentDetector Suggestions.

Lemma detect_cases (message : string) :
  detect message = unknown \/
  exists name d score,
    In (name, d) intents /\
    detect message = Detection name score (entity_trimmed message d) /\
    (score == total_score message d)%Q /\
    (0 < total_score message d)%Q.
Proof.
  destruct (first_maximum (fun x => total_score message (snd x)) 0 intents)
    as [Hall|(before & [name d] & after & Hsplit & Hpos & Hb & Ha)].
  - left. apply detect_in_unknown; [exact intents_have_keywords|exact Hall].
  - right. cbn [snd] in *.
    destruct (detect_in_winner message before after name d) as (score & Hdet & Hscore);
      auto.
    { rewrite <- Hsplit. exact intents_have_keywords. }
    exists name, d, score. repeat split; auto.
    + rewrite Hsplit. apply in_or_app. right. left. reflexivity.
    + unfold detect. now rewrite Hsplit.
Qed.




(** X11. The phrases suggested for a detected intent are never none: for
    every message there are two or three of them, and a message detected as
    help, status_check or unknown gets the same default list. *)
Theorem getSuggestions_of_detect (message : string) :
  let offered := getSuggestions (intent (detect message)) in
  (2 <= List.length offered <= 3)%nat /\
  (In (intent (detect message)) ["help"; "status_check"; "unknown"] ->
   offered = getSuggestions "unknown").
Proof.
  intros offered. subst offered.
  assert (Hin : In (intent (detect message)) ("unknown" :: map fst intents)).
  { destruct (detect_cases message) as [->|(name & data & score & Hin & -> & _)].
    - now left.
    - right. apply in_map_iff. exists (name, data). auto. }
  generalize dependent (intent (detect message)). intros i Hin.
  unfold intents in Hin. cbn [map fst In] in Hin.
  repeat (destruct Hin as [<-|Hin];
          [split; [vm_compute; lia|intros H];
           first [reflexivity
                 | cbn [In] in H;
                   repeat (destruct H as [H|H]; [discriminate H|]); destruct H]|]).
  destruct Hin.
Qed.

End DetectionRange.

(** ** The detector and the case of letters *)

Section CaseFacts.
Import Regex IntentDetector CaseFold.

Lemma upper_lower_ascii (c : ascii) : upper_ascii (lower_ascii c) = upper_ascii c.
Proof. destruct c as [[] [] [] [] [] [] [] []]; reflexivity. Qed.

Lemma is_line_terminator_lower (c : ascii) :
  is_line_terminator (lower_ascii c) = is_line_terminator c.
Proof. destruct c as [[] [] [] [] [] [] [] []]; reflexivity. Qed.

Lemma is_space_lower (c : ascii) : is_space (lower_ascii c) = is_space c.
Proof. destruct c as [[] [] [] [] [] [] [] []]; reflexivity. Qed.

Lemma alike_ascii_upper (c d : ascii) :
  lower_ascii c = lower_ascii d -> upper_ascii c = upper_ascii d.
Proof.
  intros H. rewrite <- (upper_lower_ascii c), H. apply upper_lower_ascii.
Qed.

Lemma alike_ascii_terminator (c d : ascii) :
  lower_ascii c = lower_ascii d -> is_line_terminator c = is_line_terminator d.
Proof.
  intros H. rewrite <- (is_line_terminator_lower c), H.
  apply is_line_terminator_lower.
Qed.

Lemma alike_length (s s' : string) :
  alike s s' -> String.length s = String.length s'.
Proof.
  unfold alike. revert s'.
  induction s as [|c s IH]; intros [|c' s'] H; try discriminate H; [reflexivity|].
  cbn [toLowerCase] in H. injection H as _ H. cbn [String.length]. f_equal.
  now apply IH.
Qed.

Lemma alike_substring (n m : nat) (s s' : string) :
  alike s s' -> alike (substring n m s) (substring n m s').
Proof.
  unfold alike. revert n m s'.
  induction s as [|c s IH]; intros n m [|c' s'] H; try discriminate H.
  - reflexivity.
  - cbn [toLowerCase] in H. injection H as Hc Hs.
    destruct n as [|n]; destruct m as [|m]; cbn [substring toLowerCase];
      try reflexivity.
    + f_equal; [exact Hc|]. now apply (IH 0%nat m).
    + now apply IH.
    + now apply IH.
Qed.

Lemma alike_consumed (before before' after after' : string) :
  alike before before' -> alike after after' ->
  alike (consumed before after) (consumed before' after').
Proof.
  intros Hb Ha. unfold consumed.
  rewrite (alike_length _ _ Hb), (alike_length _ _ Ha).
  now apply alike_substring.
Qed.

Lemma alike_result_cases (o o' : option captures) :
  alike_result o o' ->
  (o = None /\ o' = None) \/
  (exists g g', o = Some g /\ o' = Some g' /\ alike_opt g g').
Proof.
  unfold alike_result, alike_opt.
  destruct o as [g|], o' as [g'|]; cbn [option_map]; intros H;
    try discriminate H; [right|left; auto].
  exists g, g'. injection H as H. auto.
Qed.

Lemma alike_result_some (g g' : captures) :
  alike_opt g g' -> alike_result (Some g) (Some g').
Proof. unfold alike_result, alike_opt. cbn [option_map]. congruence. Qed.

Lemma dot_star_alike (s s' : string) (k k' : string -> option captures) :
  alike s s' ->
  (forall t t', alike t t' -> alike_result (k t) (k' t')) ->
  alike_result (dot_star s k) (dot_star s' k').
Proof.
  intros Hs Hk. revert s' Hs.
  induction s as [|c s IH]; intros [|c' s'] Hs; try discriminate Hs.
  - cbn [dot_star]. now apply Hk.
  - assert (Hs0 := Hs). unfold alike in Hs. cbn [toLowerCase] in Hs.
    injection Hs as Hc Hs. cbn [dot_star].
    rewrite (alike_ascii_terminator c c' Hc).
    destruct (is_line_terminator c'); [now apply Hk|].
    destruct (alike_result_cases _ _ (IH s' Hs)) as [[-> ->]|(g & g' & -> & -> & Hg)].
    + now apply Hk.
    + now apply alike_result_some.
Qed.

Lemma run_alike (r : regex) :
  forall k k',
    (forall st st', alike_state st st' -> alike_result (k st) (k' st')) ->
    forall st st', alike_state st st' -> alike_result (run r k st) (run r k' st').
Proof.
  induction r as [|c| | |r1 IH1 r2 IH2|r1 IH1 r2 IH2|r1 IH1| |r1 IH1];
    intros k k' Hk st st' Hst; cbn [run].
  - now apply Hk.
  - destruct Hst as (Hs & Hr & Hg).
    destruct (rest st) as [|d s], (rest st') as [|d' s']; try discriminate Hr;
      [reflexivity|].
    unfold alike in Hr. cbn [toLowerCase] in Hr. injection Hr as Hd Hr.
    unfold ci_eqb. rewrite (alike_ascii_upper d d' Hd).
    destruct (Ascii.eqb (upper_ascii c) (upper_ascii d')); [|reflexivity].
    apply Hk. repeat split; assumption.
  - destruct Hst as (Hs & Hr & Hg).
    destruct (rest st) as [|d s], (rest st') as [|d' s']; try discriminate Hr;
      [reflexivity|].
    unfold alike in Hr. cbn [toLowerCase] in Hr. injection Hr as Hd Hr.
    rewrite (alike_ascii_terminator d d' Hd).
    destruct (is_line_terminator d'); [reflexivity|].
    apply Hk. repeat split; assumption.
  - assert (Hs : at_start st = at_start st') by apply Hst. rewrite Hs.
    destruct (at_start st'); [|reflexivity]. now apply Hk.
  - apply IH1; [|exact Hst]. intros st1 st1' H1. now apply IH2.
  - destruct (alike_result_cases _ _ (IH1 k k' Hk st st' Hst))
      as [[-> ->]|(g & g' & -> & -> & Hg)].
    + now apply IH2.
    + now apply alike_result_some.
  - destruct (alike_result_cases _ _ (IH1 k k' Hk st st' Hst))
      as [[-> ->]|(g & g' & -> & -> & Hg)].
    + now apply Hk.
    + now apply alike_result_some.
  - destruct Hst as (Hs & Hr & Hg). unfold dot_plus.
    destruct (rest st) as [|d s], (rest st') as [|d' s']; try discriminate Hr;
      [reflexivity|].
    unfold alike in Hr. cbn [toLowerCase] in Hr. injection Hr as Hd Hr.
    rewrite (alike_ascii_terminator d d' Hd).
    destruct (is_line_terminator d'); [reflexivity|].
    apply dot_star_alike; [exact Hr|].
    intros t t' Ht. apply Hk. repeat split; assumption.
  - apply IH1; [|exact Hst]. intros st1 st1' (Hs1 & Hr1 & Hg1).
    apply Hk. split; [exact Hs1|]. split; [exact Hr1|].
    unfold alike_opt. cbn [group1 option_map]. f_equal.
    apply alike_consumed; [apply Hst|exact Hr1].
Qed.

Lemma search_alike (r : regex) (start : bool) (s s' : string) :
  alike s s' -> alike_result (search r start s) (search r start s').
Proof.
  revert start s'. induction s as [|c s IH]; intros start [|c' s'] Hs;
    try discriminate Hs.
  - reflexivity.
  - cbn [search].
    assert (Hst : alike_state (MState start (String c s) None)
                    (MState start (String c' s') None))
      by (repeat split; assumption).
    destruct (alike_result_cases _ _
      (run_alike r accept accept
         (fun st st' H => alike_result_some _ _ (proj2 (proj2 H))) _ _ Hst))
      as [[-> ->]|(g & g' & -> & -> & Hg)];
      [|now apply alike_result_some].
    apply IH. unfold alike in *. cbn [toLowerCase] in Hs. now injection Hs.
Qed.

Lemma toLowerCase_trimStart (s : string) :
  toLowerCase (trimStart s) = trimStart (toLowerCase s).
Proof.
  induction s as [|c s IH]; [reflexivity|].
  cbn [trimStart toLowerCase]. rewrite is_space_lower.
  destruct (is_space c); [exact IH|reflexivity].
Qed.

Lemma toLowerCase_trimEnd (s : string) :
  toLowerCase (trimEnd s) = trimEnd (toLowerCase s).
Proof.
  induction s as [|c s IH]; [reflexivity|].
  cbn [trimEnd toLowerCase]. rewrite <- IH, is_space_lower.
  destruct (trimEnd s) as [|d t]; cbn [toLowerCase]; [|reflexivity].
  destruct (is_space c); reflexivity.
Qed.

Lemma alike_trim (s s' : string) : alike s s' -> alike (trim s) (trim s').
Proof.
  unfold alike, trim. intros H.
  now rewrite !toLowerCase_trimEnd, !toLowerCase_trimStart, H.
Qed.

Lemma first_match_alike (message message' : string) (ps : list regex) :
  alike message message' ->
  alike_result (first_match message ps) (first_match message' ps).
Proof.
  intros Hm. induction ps as [|p ps IH]; cbn [first_match]; [reflexivity|].
  unfold js_match.
  destruct (alike_result_cases _ _ (search_alike p true _ _ Hm))
    as [[-> ->]|(g & g' & -> & -> & Hg)];
    [exact IH|now apply alike_result_some].
Qed.

Lemma score_intent_alike (message message' : string) (d : intent_data) :
  alike message message' ->
  match score_intent message (toLowerCase message) d,
        score_intent message' (toLowerCase message') d with
  | Some (s, e), Some (s', e') => s = s' /\ alike_opt e e'
  | None, None => True
  | _, _ => False
  end.
Proof.
  intros Hm. unfold score_intent. rewrite <- Hm.
  destruct (keywords d) as [|kw kws]; [exact I|].
  rewrite !check_patterns_first_match.
  destruct (alike_result_cases _ _ (first_match_alike _ _ (patterns d) Hm))
    as [[-> ->]|(g & g' & -> & -> & Hg)].
  - split; reflexivity.
  - split; [reflexivity|].
    unfold alike_opt in *.
    destruct g as [[|c g]|], g' as [[|c' g']|]; cbn [option_map truthy] in *;
      try discriminate Hg; try reflexivity.
    f_equal. apply alike_trim. unfold alike. congruence.
Qed.

Lemma fold_detect_alike (message message' : string)
  (table : list (string * intent_data)) (best best' : detection) :
  alike message message' ->
  alike_detection best best' ->
  alike_detection
    (fold_left (detect_step message (toLowerCase message)) table best)
    (fold_left (detect_step message' (toLowerCase message')) table best').
Proof.
  intros Hm. revert best best'.
  induction table as [|[n d] table IH]; intros best best' Hb; [exact Hb|].
  cbn [fold_left]. apply IH. unfold detect_step.
  assert (Hs := score_intent_alike message message' d Hm).
  destruct (score_intent message (toLowerCase message) d) as [[s e]|],
           (score_intent message' (toLowerCase message') d) as [[s' e']|];
    try contradiction; [|exact Hb].
  destruct Hs as [<- He]. destruct Hb as (Hi & Hc & Hent). rewrite <- Hc.
  destruct (exceeds s (confidence best)); [|repeat split; assumption].
  repeat split; assumption.
Qed.

(** X12. Detection does not depend on the case of letters: two messages
    that differ only in letter case get the same intent and the same
    confidence, and their extracted entities differ at most in letter case.
    In particular a message, its upper-case form and its lower-case form
    are classified alike. *)
Theorem detect_case_insensitive (message message' : string) :
  toLowerCase message = toLowerCase message' ->
  intent (detect message) = intent (detect message') /\
  confidence (detect message) = confidence (detect message') /\
  option_map toLowerCase (entities (detect message))
  = option_map toLowerCase (entities (detect message')) /\
  intent (detect (toUpperCase message)) = intent (detect message) /\
  intent (detect (toLowerCase message)) = intent (detect message).
Proof.
  intros Hm.
  assert (H : forall a b, alike a b -> alike_detection (detect a) (detect b)).
  { intros a b Hab. unfold detect, detect_in.
    apply fold_detect_alike; [exact Hab|]. repeat split. }
  destruct (H message message' Hm) as (Hi & Hc & He).
  split; [exact Hi|]. split; [exact Hc|]. split; [exact He|]. split.
  - apply H. unfold alike. apply toLowerCase_toUpperCase.
  - apply H. unfold alike. apply toLowerCase_idempotent.
Qed.

Lemma detect_case_insensitive_witness :
  intent (detect "I NEED ACCESS TO Figma") = intent (detect "i need access to figma").
Proof.
  apply (detect_case_insensitive "I NEED ACCESS TO Figma" "i need access to figma").
  reflexivity.
Defined.

End CaseFacts.

(** ** Updates of single tickets *)

Section TicketFacts.
Import Store TicketService AgentService Automation.


Lemma update_where_id_absent (i : Z) (upd : ticket -> ticket) (rows : list ticket) :
  (forall r, In r rows -> id r <> i) -> update_where_id i upd rows = rows.
Proof.
  intros Hnone. unfold update_where_id. rewrite <- (map_id rows) at 2.
  apply map_ext_in. intros r Hr.
  replace (id r =? i)%Z with false; [reflexivity|].
  symmetry. apply Z.eqb_neq. now apply Hnone.
Qed.

Lemma update_where_id_nth (i : Z) (upd : ticket -> ticket) (rows : list ticket)
  (n : nat) (r : ticket) :
  nth_error rows n = Some r ->
  nth_error (update_where_id i upd rows) n
  = Some (if (id r =? i)%Z then upd r else r).
Proof.
  intros H. unfold update_where_id. rewrite nth_error_map, H. reflexivity.
Qed.

Lemma escalateTicket_rows (now i : Z) (d : db) :
  snd (escalateTicket now i d)
  = Db (users d) (update_where_id i (escalate_row now) (tickets d))
       (access_requests d).
Proof.
  unfold escalateTicket.
  destruct (find (fun r => (id r =? i)%Z) (tickets d)) eqn:E.
  - cbn [tickets].
    destruct (find (fun r => (id r =? i)%Z)
                (update_where_id i (escalate_row now) (tickets d)));
      reflexivity.
  - cbn [snd]. rewrite update_where_id_absent; [now destruct d|].
    intros r Hr. apply (find_none _ _ E) in Hr. now apply Z.eqb_neq.
Qed.

(** X13. [updateTicket] touches only the rows carrying the given id, and
    of those only the listed columns and [updated_at]: the row at every
    position is the old row, rewritten by the given fields when its id is
    the given one and at least one field is given. Hence an empty set of
    fields or an id no ticket carries leaves the store as it was, and no
    update changes the ids, the owners or the creation dates, nor the users
    or the access requests. *)
Theorem updateTicket_frame (now ticketId : Z) (f : ticket_fields) (d : db) :
  let d' := updateTicket now ticketId f d in
  (forall n r, nth_error (tickets d) n = Some r ->
     nth_error (tickets d') n
     = Some (if negb (fields_empty f) && (id r =? ticketId)%Z
             then set_fields now f r else r)) /\
  (fields_empty f = true -> d' = d) /\
  ((forall r, In r (tickets d) -> id r <> ticketId) -> d' = d) /\
  map id (tickets d') = map id (tickets d) /\
  map user_id (tickets d') = map user_id (tickets d) /\
  map created_at (tickets d') = map created_at (tickets d) /\
  users d' = users d /\ access_requests d' = access_requests d.
Proof.
  intros d'. subst d'. unfold updateTicket.
  destruct (fields_empty f) eqn:E; cbn [negb andb].
  - repeat split; auto.
  - cbn [tickets users access_requests]. split; [|split; [discriminate|split]].
    + intros n r Hn. now apply update_where_id_nth.
    + intros Hnone. rewrite update_where_id_absent by exact Hnone. now destruct d.
    + unfold update_where_id. rewrite !map_map.
      repeat split; apply map_ext; intros r; destruct (id r =? ticketId)%Z;
        reflexivity.
Qed.




End TicketFacts.


(** ** What the sweep preserves *)

Section SweepInvariants.
Import Store TicketService AgentService.

Variable order_tickets : list ticket -> list ticket.
Hypothesis order_tickets_perm : forall l, Permutation (order_tickets l) l.
Variable cfg : config.

Lemma next_level_bounds (t : ticket) :
  (forall n, escalation_level t = Some n -> (0 <= n <= 2 ^ 53)%Z) ->
  (default 0 (escalation_level t) <= next_level t
   <= default 0 (escalation_level t) + 1)%Z /\
  (1 <= next_level t <= 2 ^ 53)%Z /\
  (default 0 (escalation_level t) < 2 ^ 53 ->
   next_level t = default 0 (escalation_level t) + 1)%Z.
Proof.
  intros Hlevel. unfold next_level.
  destruct (escalation_level t) as [n|]; cbn [default from_option Datatypes.id];
    [|vm_compute; repeat split; congruence].
  specialize (Hlevel n eq_refl). rewrite (js_number_exact n) by lia.
  destruct (Z.eq_dec n (2 ^ 53)%Z) as [->|Hne].
  - vm_compute. repeat split; congruence.
  - rewrite (js_number_exact (n + 1)) by lia. lia.
Qed.

Lemma sweep_row_level (now : Z) (t : ticket) :
  (forall n, escalation_level t = Some n -> (0 <= n <= 2 ^ 53)%Z) ->
  (default 0 (escalation_level t) <= default 0 (escalation_level (sweep_row cfg now t))
   <= default 0 (escalation_level t) + 1)%Z /\
  (forall n, escalation_level (sweep_row cfg now t) = Some n ->
     (0 <= n <= 2 ^ 53)%Z) /\
  created_at (sweep_row cfg now t) = created_at t /\
  user_id (sweep_row cfg now t) = user_id t /\
  (sweep_row cfg now t <> t ->
   status (sweep_row cfg now t) = Some "open" /\
   escalated_at (sweep_row cfg now t) = DtTime now).
Proof.
  intros Hlevel. destruct (next_level_bounds t Hlevel) as (Hb & Hr & _).
  unfold sweep_row. destruct (should_escalate cfg now t).
  - unfold set_fields, escalation_fields.
    cbn [escalation_level created_at user_id status escalated_at
         f_escalation_level f_status f_escalated_at default from_option].
    unfold Datatypes.id.
    split; [exact Hb|]. split; [intros n Hn; inversion Hn; subst; lia|].
    repeat split.
  - split; [lia|]. split; [exact Hlevel|]. split; [reflexivity|].
    split; [reflexivity|]. intros H. now destruct H.
Qed.

(** X15. A sweep keeps the shape of the store: after [monitorSLA] the
    ticket ids are the same and still unique, and the escalation levels
    still lie between 0 and 2^53 if they did. It adds and removes no ticket
    and changes no owner or creation date, nor users or access requests;
    the level of a ticket never goes down and rises by at most one, and a
    ticket the sweep changes is left open with [escalated_at] set to the
    instant of the sweep. *)
Theorem monitorSLA_preserves_invariants (now : Z) (d : db) :
  List.NoDup (map id (tickets d)) ->
  (forall t n, In t (tickets d) -> escalation_level t = Some n ->
     (0 <= n <= 2 ^ 53)%Z) ->
  let d' := snd (monitorSLA order_tickets cfg now d) in
  List.NoDup (map id (tickets d')) /\
  (forall t n, In t (tickets d') -> escalation_level t = Some n ->
     (0 <= n <= 2 ^ 53)%Z) /\
  map id (tickets d') = map id (tickets d) /\
  map user_id (tickets d') = map user_id (tickets d) /\
  map created_at (tickets d') = map created_at (tickets d) /\
  users d' = users d /\ access_requests d' = access_requests d /\
  (forall t, In t (tickets d) ->
     exists t',
       ticket_by_id (id t) d' = Some t' /\
       (default 0 (escalation_level t) <= default 0 (escalation_level t')
        <= default 0 (escalation_level t) + 1)%Z /\
       (t' <> t -> status t' = Some "open" /\ escalated_at t' = DtTime now)).
Proof.
  intros Hnd Hlevel d'.
  destruct (monitorSLA_rows order_tickets order_tickets_perm cfg now d Hnd)
    as (Hrows & _).
  assert (Hticket := monitorSLA_ticket order_tickets order_tickets_perm cfg now d).
  assert (Hrow : forall t, In t (tickets d) ->
            forall n, escalation_level t = Some n -> (0 <= n <= 2 ^ 53)%Z)
    by (intros t Hin n; now apply Hlevel).
  subst d'. rewrite Hrows in *. cbn [tickets users access_requests].
  assert (Hids : map id (map (sweep_row cfg now) (tickets d)) = map id (tickets d)).
  { rewrite map_map. apply map_ext. intros t. apply sweep_row_id. }
  split; [now rewrite Hids|]. split; [|split; [exact Hids|]].
  - intros t' n Hin Hn. apply in_map_iff in Hin. destruct Hin as (t & <- & Hin).
    destruct (sweep_row_level now t (Hrow t Hin)) as (_ & Hl & _). now apply Hl.
  - split; [|split; [|split; [reflexivity|split; [reflexivity|]]]].
    + rewrite map_map. apply map_ext_in. intros t Hin.
      now apply sweep_row_level, Hrow.
    + rewrite map_map. apply map_ext_in. intros t Hin.
      now apply sweep_row_level, Hrow.
    + intros t Hin. exists (sweep_row cfg now t).
      split; [now apply Hticket|].
      destruct (sweep_row_level now t (Hrow t Hin)) as (Hl & _ & _ & _ & Hchanged).
      split; [exact Hl|]. exact Hchanged.
Qed.

End SweepInvariants.

Section SweepInvariantsInstance.
Import Store TicketService AgentService.

Lemma monitorSLA_preserves_invariants_witness :
  map id (tickets (snd (monitorSLA (fun l => l) default_config sample_now sample_store)))
  = [1; 2; 3]%Z.
Proof.
  refine (proj1 (proj2 (proj2
    (monitorSLA_preserves_invariants (fun l => l) (fun l => Permutation_refl l)
       default_config sample_now sample_store _ _)))).
  - cbn. repeat (constructor; [cbn; intuition discriminate|]). constructor.
  - intros t n Hin. cbn in Hin.
    repeat (destruct Hin as [<-|Hin]; [cbn; intros H; inversion H; lia|]).
    destruct Hin.
Defined.

End SweepInvariantsInstance.

(** ** The SLA monitor of the server *)

Section MonitorFacts.
Import Store TicketService AgentService Automation.

Variable order_tickets : list ticket -> list ticket.


Lemma violates_iff (now : Z) (t : ticket) :
  violates now t = true <->
  text_is (status t) "resolved" = false /\
  exists age, ageHours now t = Some age /\ (getSLAThreshold (priority t) < age)%Q.
Proof.
  unfold violates, assess.
  destruct (text_is (status t) "resolved"); [split; [discriminate|intros [H _]; discriminate H]|].
  destruct (ageHours now t) as [age|];
    [|split; [discriminate|intros (_ & age & H & _); discriminate H]].
  destruct (Qle_bool age (getSLAThreshold (priority t))) eqn:E; cbn [negb].
  - apply Qle_bool_iff in E. split.
    + destruct (negb (Qle_bool age (getSLAThreshold (priority t) * 0.8)));
        discriminate.
    + intros (_ & age' & Hage & Hlt). injection Hage as <-. lra.
  - split; [|reflexivity]. intros _. split; [reflexivity|].
    exists age. split; [reflexivity|]. apply Qnot_le_lt. intros H.
    apply Qle_bool_iff in H. congruence.
Qed.

Lemma visit_id (clock : nat -> Z) (fetched : list ticket) :
  forall i r, id (visit clock i fetched r) = id r.
Proof.
  induction fetched as [|t fetched IH]; intros i r; [reflexivity|].
  cbn [visit]. rewrite IH.
  destruct (violates (clock i) t && (id r =? id t)%Z); reflexivity.
Qed.



Lemma monitor_loop_spec (clock : nat -> Z) (fetched : list ticket) :
  forall i st d,
    exists c w v,
      fst (monitor_loop clock i fetched st d)
      = SlaStatus (st_compliant st ++ c) (st_warning st ++ w)
          (st_violated st ++ v) (st_escalated st ++ map fst v) /\
      Permutation fetched (c ++ map fst w ++ map fst v) /\
      Forall (fun t => exists j, assess (clock j) t = Compliant) c /\
      Forall (fun e => exists j, assess (clock j) (fst e) = Warning (snd e)) w /\
      Forall (fun e => exists j, assess (clock j) (fst e) = Violated (snd e)) v /\
      tickets (snd (monitor_loop clock i fetched st d))
      = map (visit clock i fetched) (tickets d) /\
      users (snd (monitor_loop clock i fetched st d)) = users d /\
      access_requests (snd (monitor_loop clock i fetched st d)) = access_requests d.
Proof.
  induction fetched as [|t fetched IH]; intros i st d.
  - exists [], [], []. cbn [monitor_loop fst snd map visit].
    rewrite !app_nil_r, map_id. destruct st. repeat split; constructor.
  - cbn [monitor_loop visit]. unfold violates.
    destruct (assess (clock i) t) as [|h|h] eqn:E.
    + destruct (IH (S i)
                  (SlaStatus (st_compliant st ++ [t]) (st_warning st)
                     (st_violated st) (st_escalated st)) d)
        as (c & w & v & Hst & Hperm & Hc & Hw & Hv & Ht & Hu & Ha).
      exists (t :: c), w, v. rewrite Hst.
      cbn [st_compliant st_warning st_violated st_escalated].
      rewrite <- app_assoc. cbn [app andb].
      repeat split; auto.
      constructor; [now exists i|exact Hc].
    + destruct (IH (S i)
                  (SlaStatus (st_compliant st) (st_warning st ++ [(t, h)])
                     (st_violated st) (st_escalated st)) d)
        as (c & w & v & Hst & Hperm & Hc & Hw & Hv & Ht & Hu & Ha).
      exists c, ((t, h) :: w), v. rewrite Hst.
      cbn [st_compliant st_warning st_violated st_escalated].
      rewrite <- app_assoc. cbn [app andb map fst].
      repeat split; auto.
      * now apply Permutation_cons_app.
      * constructor; [now exists i|exact Hw].
    + rewrite escalateTicket_rows.
      destruct (IH (S i)
                  (SlaStatus (st_compliant st) (st_warning st)
                     (st_violated st ++ [(t, h)]) (st_escalated st ++ [t]))
                  (Db (users d)
                      (update_where_id (id t) (escalate_row (clock i)) (tickets d))
                      (access_requests d)))
        as (c & w & v & Hst & Hperm & Hc & Hw & Hv & Ht & Hu & Ha).
      exists c, w, ((t, h) :: v). rewrite Hst.
      cbn [st_compliant st_warning st_violated st_escalated].
      rewrite <- !app_assoc. cbn [app andb map fst].
      cbn [tickets users access_requests] in Ht, Hu, Ha.
      repeat split; auto.
      * rewrite app_assoc. apply Permutation_cons_app. now rewrite <- app_assoc.
      * constructor; [now exists i|exact Hv].
      * rewrite Ht. unfold update_where_id. rewrite map_map. reflexivity.
Qed.

(** X16. [GET /api/sla/monitor] sorts every fetched ticket into exactly
    one of compliant, warning and violated, and escalates exactly the
    violated ones: the list of escalated tickets is the list of violated
    ones, in the same order, whatever their escalation state, since the
    guard [!ticket.escalated] reads a property no row has. A resolved
    ticket, or one whose creation date does not parse, is never escalated.
    The call adds and removes no ticket. *)
Theorem slaMonitor_partition (clock : nat -> Z) (d : db) :
  let st := fst (slaMonitor order_tickets clock d) in
  let d' := snd (slaMonitor order_tickets clock d) in
  Permutation (getAllTickets order_tickets d)
    (st_compliant st ++ map fst (st_warning st) ++ map fst (st_violated st)) /\
  st_escalated st = map fst (st_violated st) /\
  (forall t h, In (t, h) (st_violated st) ->
     exists i, assess (clock i) t = Violated h) /\
  (forall t h, In (t, h) (st_warning st) ->
     exists i, assess (clock i) t = Warning h) /\
  (forall t, In t (st_compliant st) -> exists i, assess (clock i) t = Compliant) /\
  (forall t, In t (st_escalated st) ->
     text_is (status t) "resolved" = false /\ getTime (created_at t) <> None) /\
  map id (tickets d') = map id (tickets d) /\
  users d' = users d /\ access_requests d' = access_requests d.
Proof.
  intros st d'. subst st d'. unfold slaMonitor.
  destruct (monitor_loop_spec clock (getAllTickets order_tickets d) 0
              (SlaStatus [] [] [] []) d)
    as (c & w & v & Hst & Hperm & Hc & Hw & Hv & Ht & Hu & Ha).
  rewrite Hst, Ht, Hu, Ha.
  cbn [st_compliant st_warning st_violated st_escalated app].
  rewrite List.Forall_forall in Hc, Hw, Hv.
  split; [exact Hperm|]. split; [reflexivity|].
  split; [intros t h Hin; exact (Hv (t, h) Hin)|].
  split; [intros t h Hin; exact (Hw (t, h) Hin)|].
  split; [exact Hc|]. split.
  - intros t Hin. apply in_map_iff in Hin. destruct Hin as ([t0 h] & <- & Hin).
    destruct (Hv (t0, h) Hin) as (i & Hi). cbn [fst snd] in *.
    assert (Hviol : violates (clock i) t0 = true) by (unfold violates; now rewrite Hi).
    apply violates_iff in Hviol. destruct Hviol as (Hs & age & Hage & _).
    split; [exact Hs|]. unfold ageHours in Hage.
    destruct (getTime (created_at t0)); [discriminate|discriminate Hage].
  - split; [|split; reflexivity]. rewrite map_map. apply map_ext.
    intros r. apply visit_id.
Qed.

Hypothesis order_tickets_perm : forall l, Permutation (order_tickets l) l.


End MonitorFacts.

Section MonitorInstance.
Import Store TicketService AgentService Automation.


End MonitorInstance.

(** ** Triage of new tickets *)

Section TriageFacts.
Import Store AgentService Automation AgentOps.

Lemma lower_or_default_upper (s : string) :
  toLowerCase (or_default (Some (toUpperCase s)) "")
  = toLowerCase (or_default (Some s) "").
Proof.
  destruct s as [|c s]; [reflexivity|].
  unfold or_default. cbn [toUpperCase truthy default from_option Datatypes.id].
  apply (toLowerCase_toUpperCase (String c s)).
Qed.

(** X18. The priority the server assigns to an auto-generated ticket is
    "urgent", "high" or "medium", never "low", and does not depend on the
    case of letters. The two SLA tables of the program disagree on each of
    them: the SLA monitor of the server allows 4, 24 and 48 hours, the
    background sweep 24 (its table has no entry "urgent"), 4 and 24 hours;
    so for the sweep an urgent ticket is due six times later than a
    high-priority one. *)
Theorem autoDetectPriority_sla_tables (description : string) (t : ticket) :
  priority t = Some (autoDetectPriority description) ->
  ((autoDetectPriority description = "urgent" /\
    getSLAThreshold (priority t) = 4%Q /\ sla_of default_config t = 24%Q) \/
   (autoDetectPriority description = "high" /\
    getSLAThreshold (priority t) = 24%Q /\ sla_of default_config t = 4%Q) \/
   (autoDetectPriority description = "medium" /\
    getSLAThreshold (priority t) = 48%Q /\ sla_of default_config t = 24%Q)) /\
  autoDetectPriority (toUpperCase description) = autoDetectPriority description.
Proof.
  intros Hp. split.
  - unfold sla_of. rewrite Hp. unfold autoDetectPriority.
    destruct (existsb _ urgentWords); [left; repeat split; vm_compute; reflexivity|].
    destruct (existsb _ highWords);
      [right; left; repeat split; vm_compute; reflexivity|].
    right; right; repeat split; vm_compute; reflexivity.
  - unfold autoDetectPriority. now rewrite toLowerCase_toUpperCase.
Qed.

Lemma autoDetectPriority_sla_tables_witness :
  autoDetectPriority "The VPN is down for everyone" = "urgent" /\
  sla_of default_config
    (sample_ticket 9 (Some "urgent") (DtTime sample_now)) = 24%Q.
Proof.
  destruct (autoDetectPriority_sla_tables "The VPN is down for everyone"
              (sample_ticket 9 (Some "urgent") (DtTime sample_now)) eq_refl)
    as [[(H1 & _ & H3)|[(H1 & _)|(H1 & _)]] _].
  - split; [exact H1|exact H3].
  - vm_compute in H1. discriminate H1.
  - vm_compute in H1. discriminate H1.
Defined.

(** X19. [classifyTicket] answers one of five categories and one of three
    priorities for every text. It suggests an assignee exactly when the
    category is not "general", and the team is determined by the category.
    Its priority always has an entry of its own in the default SLA table
    of the sweep (4, 24 or 48 hours). A missing text is classified like
    the empty one, as general and medium, and the answer does not depend
    on the case of letters. *)
Theorem classifyTicket_range (text : option string) :
  let c := classifyTicket text in
  In (cl_category c) ["hardware"; "network"; "access"; "software"; "general"] /\
  In (cl_priority c) ["high"; "low"; "medium"] /\
  In (cl_category c, assigneeSuggestion c)
     [ ("hardware", Some "helpdesk"); ("network", Some "network-team");
       ("access", Some "iam-team"); ("software", Some "app-support");
       ("general", None) ] /\
  (assigneeSuggestion c = None <-> cl_category c = "general") /\
  In (cl_priority c, slaHours default_config !! cl_priority c)
     [ ("high", Some 4%Q); ("low", Some 48%Q); ("medium", Some 24%Q) ] /\
  classifyTicket None = Classification "general" "medium" None /\
  classifyTicket (Some "") = Classification "general" "medium" None /\
  (forall s, classifyTicket (Some (toUpperCase s)) = classifyTicket (Some s)).
Proof.
  intros c. subst c.
  split; [|split; [|split; [|split; [|split; [|split; [|split]]]]]].
  8: { intros s. unfold classifyTicket. now rewrite lower_or_default_upper. }
  6, 7: reflexivity.
  all: unfold classifyTicket; cbv zeta;
    generalize (toLowerCase (or_default text "")); intros lower;
    destruct (test_any ["laptop"; "hardware"; "device"; "keyboard"; "mouse"] lower);
    [|destruct (test_any ["vpn"; "network"; "wifi"; "lan"] lower);
      [|destruct (test_any ["login"; "access"; "permission"; "authorize"] lower);
        [|destruct (test_any ["error"; "bug"; "issue"; "crash"; "exception"] lower)]]];
    (destruct (test_any ["outage"; "down"; "cannot access"; "urgent"; "production"]
                 lower);
     [|destruct (test_any ["slow"; "minor"; "typo"] lower)]);
    cbn [cl_category cl_priority assigneeSuggestion String.eqb Ascii.eqb Bool.eqb In].
  all: try (split; [discriminate|intros H; discriminate H]).
  all: try (split; reflexivity).
  all: try (vm_compute; tauto).
Qed.

End TriageFacts.

(** ** The access scan, run twice *)

Section ScanTwice.
Import Store AgentService.

Variable order_requests : list access_request -> list access_request.
Hypothesis order_requests_perm : forall l, Permutation (order_requests l) l.
Variable cfg : config.

Lemma filter_length_perm {A : Type} (f : A -> bool) (l l' : list A) :
  Permutation l l' -> List.length (List.filter f l) = List.length (List.filter f l').
Proof.
  induction 1 as [|x l l' _ IH|x y l|l l' l'' _ IH1 _ IH2]; cbn [List.filter].
  - reflexivity.
  - destruct (f x); cbn [List.length]; now rewrite IH.
  - destruct (f x), (f y); reflexivity.
  - now rewrite IH1.
Qed.

Lemma filter_split_length {A : Type} (p q : A -> bool) (l : list A) :
  (List.length (List.filter (fun x => p x && negb (q x)) l)
   + List.length (List.filter q (List.filter p l)))%nat
  = List.length (List.filter p l).
Proof.
  induction l as [|x l IH]; [reflexivity|].
  cbn [List.filter]. destruct (p x); cbn [andb List.filter]; [|exact IH].
  destruct (q x); cbn [negb List.length]; lia.
Qed.

Lemma scan_rows (now : Z) (d : db) :
  List.NoDup (map ar_id (access_requests d)) ->
  snd (scanAccessRequests order_requests cfg now d)
  = Db (users d) (tickets d) (map (scan_row cfg now d) (access_requests d)) /\
  scanned (fst (scanAccessRequests order_requests cfg now d))
  = List.length (List.filter (fetched_pending d) (access_requests d)) /\
  approved (fst (scanAccessRequests order_requests cfg now d))
  = List.length (List.filter (auto_approvable cfg)
                   (List.filter (fetched_pending d) (access_requests d))).
Proof.
  intros Hnd. unfold scanAccessRequests.
  rewrite (fetched_pending_filter order_requests).
  set (kept := List.filter (fetched_pending d) (access_requests d)).
  set (pending := order_requests kept).
  assert (Hperm : Permutation pending kept) by apply order_requests_perm.
  destruct (scan_loop_rows cfg now pending d 0) as (Hr & Hu & Ht & Hn).
  destruct (scan_loop cfg now pending d 0) as [d' n]. cbn [fst snd] in *.
  assert (Hnd' : List.NoDup (map ar_id pending)).
  { apply (Permutation_NoDup (l := map ar_id kept)).
    - apply Permutation_map. now symmetry.
    - now apply NoDup_map_filter. }
  split; [|split].
  - destruct d' as [u t a]. cbn [users tickets access_requests] in *.
    subst u t a. f_equal. apply map_ext_in. intros r Hin.
    unfold scan_row. destruct (fetched_pending d r) eqn:Ef; cbn [andb].
    + apply (fold_scan_touch_unique cfg now pending r Hnd').
      apply (Permutation_in _ (Permutation_sym Hperm)).
      apply filter_In. split; assumption.
    + apply fold_scan_touch_foreign. intros Hid.
      apply in_map_iff in Hid. destruct Hid as (r' & Heq & Hin').
      apply (Permutation_in _ Hperm) in Hin'. apply filter_In in Hin'.
      destruct Hin' as [Hin' Hf'].
      assert (r' = r)
        by exact (NoDup_map_inj ar_id (access_requests d) r' r Hnd Hin' Hin Heq).
      subst r'. congruence.
  - cbn [scanned]. now apply Permutation_length.
  - cbn [approved]. rewrite Hn. cbn [Nat.add]. now apply filter_length_perm.
Qed.

Lemma scan_row_again (now : Z) (d d1 : db) (r : access_request) :
  users d1 = users d ->
  fetched_pending d1 (scan_row cfg now d r)
  = fetched_pending d r && negb (auto_approvable cfg r) /\
  auto_approvable cfg (scan_row cfg now d r) = auto_approvable cfg r.
Proof.
  intros Hu. unfold scan_row, fetched_pending. rewrite Hu.
  destruct (bool_decide (ar_user_id r ∈ users d)) eqn:Eu;
    destruct (text_is (ar_status r) "pending") eqn:Ep;
    destruct (auto_approvable cfg r) eqn:Ea; cbn [andb negb];
    rewrite ?Eu, ?Ep, ?Ea; cbn [andb]; split; try reflexivity.
  all: cbn [approve_row ar_user_id ar_status text_is].
  - rewrite Eu. reflexivity.
  - unfold auto_approvable in *. exact Ea.
Qed.

(** X20. The access scan is idempotent. With request ids distinct, a
    second scan approves nothing and leaves the store as the first left it;
    the first approves at most what it scanned, and the second scans what
    the first scanned less what it approved. Users and tickets are never
    touched. *)
Theorem scanAccessRequests_idempotent (now : Z) (d : db) :
  List.NoDup (map ar_id (access_requests d)) ->
  let first := scanAccessRequests order_requests cfg now d in
  let second := scanAccessRequests order_requests cfg now (snd first) in
  snd second = snd first /\
  approved (fst second) = 0%nat /\
  (approved (fst first) <= scanned (fst first))%nat /\
  scanned (fst second) = (scanned (fst first) - approved (fst first))%nat /\
  users (snd first) = users d /\ tickets (snd first) = tickets d /\
  map ar_id (access_requests (snd first)) = map ar_id (access_requests d).
Proof.
  intros Hnd first second. subst first second.
  destruct (scan_rows now d Hnd) as (Hrows & Hscanned & Happroved).
  rewrite Hrows.
  set (d1 := Db (users d) (tickets d) (map (scan_row cfg now d) (access_requests d))).
  assert (Hids : map ar_id (access_requests d1) = map ar_id (access_requests d)).
  { cbn [d1 access_requests]. rewrite map_map. apply map_ext.
    intros r. unfold scan_row.
    destruct (fetched_pending d r && auto_approvable cfg r); reflexivity. }
  assert (Hnd1 : List.NoDup (map ar_id (access_requests d1))) by now rewrite Hids.
  assert (Hu : users d1 = users d) by reflexivity.
  destruct (scan_rows now d1 Hnd1) as (Hrows2 & Hscanned2 & Happroved2).
  assert (Hfilter : forall l,
            List.filter (fetched_pending d1) (map (scan_row cfg now d) l)
            = map (scan_row cfg now d)
                (List.filter (fun r => fetched_pending d r
                                       && negb (auto_approvable cfg r)) l)).
  { induction l as [|r l IH]; [reflexivity|]. cbn [map List.filter].
    destruct (scan_row_again now d d1 r Hu) as [-> _].
    destruct (fetched_pending d r && negb (auto_approvable cfg r));
      cbn [map]; now rewrite IH. }
  assert (Hkept : forall r,
            In r (List.filter (fun r => fetched_pending d r
                                        && negb (auto_approvable cfg r))
                    (access_requests d)) ->
            auto_approvable cfg r = false /\ scan_row cfg now d r = r).
  { intros r Hr. apply filter_In in Hr. destruct Hr as [_ Hr].
    apply andb_true_iff in Hr. destruct Hr as [_ Hr].
    apply negb_true_iff in Hr. split; [exact Hr|].
    unfold scan_row. now rewrite Hr, andb_false_r. }
  split; [|split; [|split; [|split; [|split; [|split]]]]].
  - rewrite Hrows2. unfold d1 at 4. cbn [d1 users tickets access_requests].
    f_equal. rewrite map_map. apply map_ext. intros r.
    unfold scan_row at 1.
    destruct (scan_row_again now d d1 r Hu) as [-> ->].
    unfold scan_row.
    destruct (fetched_pending d r); destruct (auto_approvable cfg r);
      reflexivity.
  - rewrite Happroved2. cbn [d1 access_requests].
    fold d1. rewrite Hfilter. apply filter_none_length.
    intros r' Hr'. apply in_map_iff in Hr'. destruct Hr' as (r & <- & Hr).
    destruct (Hkept r Hr) as [Ha ->]. exact Ha.
  - rewrite Hscanned, Happroved. apply filter_length_le.
  - rewrite Hscanned2, Hscanned, Happroved. cbn [d1 access_requests].
    fold d1. rewrite Hfilter, length_map.
    assert (H := filter_split_length (fetched_pending d) (auto_approvable cfg)
                   (access_requests d)). lia.
  - reflexivity.
  - reflexivity.
  - exact Hids.
Qed.

End ScanTwice.

Section ScanTwiceInstance.
Import Store AgentService.

Lemma scanAccessRequests_idempotent_witness :
  approved
    (fst (scanAccessRequests (fun l => l) default_config sample_now
            (snd (scanAccessRequests (fun l => l) default_config sample_now
                    sample_store))))
  = 0%nat.
Proof.
  apply (scanAccessRequests_idempotent (fun l => l) (fun l => Permutation_refl l)
           default_config sample_now sample_store).
  exact sample_store_request_ids.
Defined.

End ScanTwiceInstance.

(** ** Reminders *)

Section ReminderFacts.
Import Store AgentOps.

Variable order_reminders : list reminder -> list reminder.
Hypothesis order_reminders_perm : forall l, Permutation (order_reminders l) l.

Lemma dispatch_loop_spec (now : Z) (rows : list reminder) :
  forall (s : store) (n : nat),
    reminders (fst (dispatch_loop now rows s n))
    = map (fun x => if existsb (fun r => (rem_id x =? rem_id r)%Z) rows
                    then mark_sent now x else x) (reminders s) /\
    conversations (fst (dispatch_loop now rows s n))
    = (conversations s ++ map (notice now) rows)%list /\
    base (fst (dispatch_loop now rows s n)) = base s /\
    snd (dispatch_loop now rows s n) = (n + List.length rows)%nat.
Proof.
  induction rows as [|r rows IH]; intros s n.
  - cbn [dispatch_loop fst snd existsb map List.length].
    rewrite map_id, app_nil_r. repeat split. lia.
  - cbn [dispatch_loop].
    destruct (IH (AgentStore (base s)
                    (map (fun x => if (rem_id x =? rem_id r)%Z
                                   then mark_sent now x else x) (reminders s))
                    (conversations s ++ [notice now r])%list)
                 (S n)) as (Hr & Hc & Hb & Hn).
    rewrite Hr, Hc, Hb, Hn.
    cbn [reminders conversations base map List.length existsb].
    split; [|split; [|split; [reflexivity|lia]]].
    + rewrite map_map. apply map_ext. intros x.
      destruct (rem_id x =? rem_id r)%Z; cbn [orb mark_sent rem_id].
      * now destruct (existsb _ rows).
      * reflexivity.
    + now rewrite <- app_assoc.
Qed.

Lemma due_selected (now : Z) (rows : list reminder) (selected : list reminder)
  (x : reminder) :
  List.NoDup (map rem_id rows) ->
  Permutation selected (List.filter (due now) rows) ->
  In x rows ->
  existsb (fun r => (rem_id x =? rem_id r)%Z) selected = due now x.
Proof.
  intros Hnd Hperm Hin. destruct (due now x) eqn:Ed.
  - apply existsb_exists. exists x. split; [|apply Z.eqb_refl].
    apply (Permutation_in _ (Permutation_sym Hperm)).
    apply filter_In. now split.
  - apply not_true_is_false. intros H. apply existsb_exists in H.
    destruct H as (r & Hr & Heq). apply Z.eqb_eq in Heq.
    apply (Permutation_in _ Hperm) in Hr. apply filter_In in Hr.
    destruct Hr as [Hr Hdue].
    assert (x = r) by exact (NoDup_map_inj rem_id rows x r Hnd Hin Hr Heq).
    subst r. congruence.
Qed.

Lemma due_after_dispatch (now later : Z) (rows : list reminder) :
  List.filter (due later)
    (map (fun x => if due now x then mark_sent now x else x) rows)
  = List.filter (fun x => due later x && negb (due now x)) rows.
Proof.
  induction rows as [|x rows IH]; [reflexivity|].
  cbn [map List.filter]. rewrite IH.
  destruct (due now x); cbn [negb].
  - rewrite andb_false_r. reflexivity.
  - rewrite andb_true_r. reflexivity.
Qed.

Lemma none_due_twice (now : Z) (rows : list reminder) :
  List.filter (fun x => due now x && negb (due now x)) rows = [].
Proof.
  induction rows as [|x l IH]; [reflexivity|].
  cbn [List.filter]. rewrite andb_negb_r. exact IH.
Qed.

Lemma dispatchOnboardingReminders_rows (now : Z) (s : store) :
  List.NoDup (map rem_id (reminders s)) ->
  snd (dispatchOnboardingReminders order_reminders now s)
  = AgentStore (base s)
      (map (fun x => if due now x then mark_sent now x else x) (reminders s))
      (conversations s
       ++ map (notice now) (order_reminders (List.filter (due now) (reminders s))))
  /\
  sent (fst (dispatchOnboardingReminders order_reminders now s))
  = List.length (List.filter (due now) (reminders s)).
Proof.
  intros Hnd. unfold dispatchOnboardingReminders.
  set (selected := order_reminders (List.filter (due now) (reminders s))).
  assert (Hperm : Permutation selected (List.filter (due now) (reminders s)))
    by apply order_reminders_perm.
  destruct (dispatch_loop_spec now selected s 0) as (Hr & Hc & Hb & Hn).
  destruct (dispatch_loop now selected s 0) as [s' n].
  cbn [fst snd sent] in *. split.
  - destruct s' as [b rs cs]. cbn [base reminders conversations] in *.
    subst b cs. f_equal. rewrite Hr. apply map_ext_in. intros x Hx.
    now rewrite (due_selected now (reminders s) selected x Hnd Hperm Hx).
  - rewrite Hn. cbn [Nat.add]. now apply Permutation_length.
Qed.

(** X21. A dispatch sends each due reminder once. With reminder ids
    distinct, [dispatchOnboardingReminders] marks as sent exactly the
    reminders that are pending, unsent and due, and leaves every other row
    as it was; it reports as many sent as scanned, and appends one notice
    per sent reminder to the conversations, addressed to its user. The
    reminders a later dispatch selects are those that become due in
    between: none is sent twice, and a second dispatch at the same instant
    sends nothing. *)
Theorem dispatchOnboardingReminders_once (now : Z) (s : store) :
  List.NoDup (map rem_id (reminders s)) ->
  let result := fst (dispatchOnboardingReminders order_reminders now s) in
  let after := snd (dispatchOnboardingReminders order_reminders now s) in
  reminders after
  = map (fun x => if due now x then mark_sent now x else x) (reminders s) /\
  sent result = dispatch_scanned result /\
  sent result = List.length (List.filter (due now) (reminders s)) /\
  (exists selected,
     Permutation selected (List.filter (due now) (reminders s)) /\
     conversations after = (conversations s ++ map (notice now) selected)%list) /\
  base after = base s /\
  (forall later,
     List.filter (due later) (reminders after)
     = List.filter (fun x => due later x && negb (due now x)) (reminders s)) /\
  sent (fst (dispatchOnboardingReminders order_reminders now after)) = 0%nat.
Proof.
  intros Hnd result after. subst result after.
  unfold dispatchOnboardingReminders.
  set (selected := order_reminders (List.filter (due now) (reminders s))).
  assert (Hperm : Permutation selected (List.filter (due now) (reminders s)))
    by apply order_reminders_perm.
  destruct (dispatch_loop_spec now selected s 0) as (Hr & Hc & Hb & Hn).
  destruct (dispatch_loop now selected s 0) as [s' n] eqn:Eloop.
  cbn [fst snd sent dispatch_scanned] in *.
  assert (Hrows : reminders s'
            = map (fun x => if due now x then mark_sent now x else x) (reminders s)).
  { rewrite Hr. apply map_ext_in. intros x Hx.
    now rewrite (due_selected now (reminders s) selected x Hnd Hperm Hx). }
  split; [exact Hrows|]. split; [lia|].
  split; [rewrite Hn; cbn [Nat.add]; now apply Permutation_length|].
  split; [exists selected; now split|].
  split; [exact Hb|]. split.
  - intros later. rewrite Hrows. apply due_after_dispatch.
  - assert (Hnone : List.filter (due now) (reminders s') = []).
    { rewrite Hrows, due_after_dispatch. apply none_due_twice. }
    rewrite Hnone.
    assert (Hnil : order_reminders [] = [])
      by (apply Permutation_nil; symmetry; apply order_reminders_perm).
    rewrite Hnil. reflexivity.
Qed.

End ReminderFacts.

Section ReminderInstance.
Import Store AgentOps.

Lemma dispatchOnboardingReminders_once_witness :
  map rem_status
    (reminders (snd (dispatchOnboardingReminders (fun l => l) sample_now
                       sample_reminder_store)))
  = [Some "sent"; Some "pending"].
Proof.
  assert (Hnd : List.NoDup (map rem_id (reminders sample_reminder_store))).
  { cbn. repeat (constructor; [cbn; intuition discriminate|]). constructor. }
  rewrite (proj1 (dispatchOnboardingReminders_once (fun l => l)
                    (fun l => Permutation_refl l) sample_now sample_reminder_store Hnd)).
  vm_compute. reflexivity.
Defined.

End ReminderInstance.

(** ** The status report *)

Section StatusFacts.
Import Store TicketService AgentService AgentOps.

Variable order_tickets : list ticket -> list ticket.
Variable order_requests : list access_request -> list access_request.
Variable order_reminders : list reminder -> list reminder.
Hypothesis order_tickets_perm : forall l, Permutation (order_tickets l) l.
Hypothesis order_requests_perm : forall l, Permutation (order_requests l) l.
Hypothesis order_reminders_perm : forall l, Permutation (order_reminders l) l.
Variable cfg : config.

Lemma counted_sweep_row (now : Z) (t : ticket) :
  counted (sweep_row cfg now t) = should_escalate cfg now t || counted t.
Proof.
  unfold sweep_row. destruct (should_escalate cfg now t); reflexivity.
Qed.

Lemma pending_due_after_dispatch (now : Z) (rows : list reminder) :
  (List.length
     (List.filter (pending_due now)
        (map (fun x => if due now x then mark_sent now x else x) rows))
   + List.length (List.filter (due now) rows))%nat
  = List.length (List.filter (pending_due now) rows).
Proof.
  induction rows as [|x rows IH]; [reflexivity|].
  cbn [map List.filter].
  assert (Hm : pending_due now (mark_sent now x) = false) by reflexivity.
  assert (Hp : due now x = true -> pending_due now x = true).
  { unfold due, pending_due.
    destruct (text_is (rem_status x) "pending"); destruct (is_null (sent_at x));
      destruct (due_at x <=? now)%Z; cbn [andb]; congruence. }
  destruct (due now x) eqn:Edue.
  - rewrite Hm, (Hp eq_refl). cbn [List.length]. lia.
  - destruct (pending_due now x); cbn [List.length]; lia.
Qed.

(** X22. What [getStatus] reports, and how the agents move it.
    [openTickets] is the number of all tickets, whatever their status, and
    [overdueTickets] never exceeds it. A sweep leaves [openTickets] as it
    was and never lowers [overdueTickets], which afterwards counts at least
    the tickets the sweep escalated. A scan lowers [pendingAccess] by the
    number it approved, and a dispatch lowers [dueReminders] by the number
    it sent. *)
Theorem getStatus_follows_agents (now : Z) (s : store) :
  List.NoDup (map id (tickets (base s))) ->
  List.NoDup (map ar_id (access_requests (base s))) ->
  List.NoDup (map rem_id (reminders s)) ->
  let report := getStatus order_requests order_tickets now in
  let swept := monitorSLA order_tickets cfg now (base s) in
  let scan := scanAccessRequests order_requests cfg now (base s) in
  let dispatch := dispatchOnboardingReminders order_reminders now s in
  let on (d : db) := AgentStore d (reminders s) (conversations s) in
  openTickets (report s) = List.length (tickets (base s)) /\
  (overdueTickets (report s) <= openTickets (report s))%nat /\
  openTickets (report (on (snd swept))) = openTickets (report s) /\
  (escalated (fst swept) <= overdueTickets (report (on (snd swept))))%nat /\
  (overdueTickets (report s) <= overdueTickets (report (on (snd swept))))%nat /\
  pendingAccess (report (on (snd scan)))
  = (pendingAccess (report s) - approved (fst scan))%nat /\
  (approved (fst scan) <= pendingAccess (report s))%nat /\
  dueReminders (report (snd dispatch))
  = (dueReminders (report s) - sent (fst dispatch))%nat /\
  (sent (fst dispatch) <= dueReminders (report s))%nat.
Proof.
  intros Hticket Hrequest Hreminder report swept scan dispatch on.
  subst report swept scan dispatch on. cbv beta.
  destruct (monitorSLA_rows order_tickets order_tickets_perm cfg now (base s) Hticket)
    as (Hswept & Hescalated & _).
  destruct (scan_rows order_requests order_requests_perm cfg now (base s) Hrequest)
    as (Hscan & Hscanned & Happroved).
  destruct (dispatchOnboardingReminders_rows order_reminders order_reminders_perm
              now s Hreminder) as (Hrows & Hsent).
  rewrite Hswept, Hscan, Hrows, Hescalated, Happroved, Hsent.
  unfold getStatus, getAllTickets.
  cbn [openTickets overdueTickets pendingAccess dueReminders base reminders
       tickets access_requests].
  rewrite !(fetched_pending_filter order_requests).
  rewrite !(Permutation_length (order_tickets_perm _)).
  rewrite !(Permutation_length (order_requests_perm _)).
  rewrite (filter_length_perm (should_escalate cfg now) _ _ (order_tickets_perm _)).
  rewrite length_map.
  assert (Hsplit := filter_split_length
                      (fetched_pending (base s)) (auto_approvable cfg)
                      (access_requests (base s))).
  assert (Hdue := pending_due_after_dispatch now (reminders s)).
  assert (Hagain : forall d1 l,
            users d1 = users (base s) ->
            List.filter (fetched_pending d1) (map (scan_row cfg now (base s)) l)
            = map (scan_row cfg now (base s))
                (List.filter
                   (fun r => fetched_pending (base s) r
                             && negb (auto_approvable cfg r)) l)).
  { intros d1 l Hu. induction l as [|r l IH]; [reflexivity|].
    cbn [map List.filter].
    destruct (scan_row_again cfg now (base s) d1 r Hu) as [-> _].
    destruct (fetched_pending (base s) r && negb (auto_approvable cfg r));
      cbn [map]; now rewrite IH. }
  split; [reflexivity|]. split; [apply filter_length_le|].
  split; [reflexivity|]. split.
  { clear. induction (tickets (base s)) as [|t l IH]; [reflexivity|].
    cbn [map List.filter]. rewrite counted_sweep_row.
    destruct (should_escalate cfg now t); cbn [orb List.length].
    - lia.
    - destruct (counted t); cbn [List.length]; lia. }
  split.
  { rewrite <- (length_map (sweep_row cfg now)
                  (List.filter counted (tickets (base s)))).
    clear. induction (tickets (base s)) as [|t l IH]; [reflexivity|].
    cbn [map List.filter]. rewrite counted_sweep_row.
    destruct (counted t); [rewrite orb_true_r|rewrite orb_false_r].
    - cbn [map List.length]. lia.
    - destruct (should_escalate cfg now t); cbn [List.length]; lia. }
  split; [cbn [access_requests]; rewrite (Hagain _ _ eq_refl), length_map; lia|].
  split; [lia|]. split; lia.
Qed.

End StatusFacts.

Section StatusInstance.
Import Store TicketService AgentService AgentOps.

Lemma getStatus_follows_agents_witness :
  dueReminders
    (getStatus (fun l => l) (fun l => l) sample_now
       (snd (dispatchOnboardingReminders (fun l => l) sample_now
               sample_reminder_store)))
  = (dueReminders (getStatus (fun l => l) (fun l => l) sample_now
                     sample_reminder_store)
     - sent (fst (dispatchOnboardingReminders (fun l => l) sample_now
                    sample_reminder_store)))%nat.
Proof.
  assert (Hnd : List.NoDup (map rem_id (reminders sample_reminder_store))).
  { cbn. repeat (constructor; [cbn; intuition discriminate|]). constructor. }
  destruct (getStatus_follows_agents (fun l => l) (fun l => l) (fun l => l)
              (fun l => Permutation_refl l) (fun l => Permutation_refl l)
              (fun l => Permutation_refl l) default_config sample_now
              sample_reminder_store sample_store_ids sample_store_request_ids Hnd)
    as (_ & _ & _ & _ & _ & _ & _ & H & _).
  exact H.
Defined.

End StatusInstance.
